(** * Kibble-Zurek demo: the spin-ring model, kink statistics, the
      theoretical curve, the extrapolation fit and the job life cycle.

    Shallow embedding of [helpers/qa.py], [helpers/kz_calcs.py] and of the
    start-up code and the [simulate] / [alert_no_solver] callbacks of
    [app.py].

    Conventions.
    - Python [int] is [Z]; [range n] is [seqZ 0 n].
    - A Python exception is a value of [exn]; a call that may raise returns
      [result].
    - NumPy [float64] is the primitive binary64 [float] where the code's
      behaviour on NaN and infinities matters ([theoretical_kink_density]);
      ratios of integers ([kink_stats]) and the least-squares fit are kept
      as exact rationals [Q].
    - A [dict] is a [gmap]; [dash.no_update] is the constructor [no_update]
      of [upd]. *)

From Stdlib Require Import ZArith QArith Qabs Lia Lqa Floats DecimalString.
From stdpp Require Import gmap strings list.

(* Decimal literals such as [0.2] denote the nearest binary64 value, as in
   Python. *)
Set Warnings "-inexact-float".

Local Open Scope Z_scope.

(** ** Python exceptions and fallible calls *)

Inductive exn : Type :=
  | KeyError
  | IndexError
  | ValueError
  | TypeError
  | AttributeError
  | ResourceNotFoundError
  | OtherException (name : string).

Inductive result (A : Type) : Type :=
  | Raise (e : exn)
  | Return (a : A).
Arguments Raise {A} e.
Arguments Return {A} a.

#[global] Instance result_ret : MRet result := fun A a => Return a.
#[global] Instance result_bind : MBind result := fun A B k r =>
  match r with
  | Raise e => Raise e
  | Return a => k a
  end.

(** [for x in xs: s = body(s, x)], the first exception leaves the loop. *)
Fixpoint for_each {S A} (body : S -> A -> result S) (xs : list A) (s : S)
  : result S :=
  match xs with
  | [] => Return s
  | x :: xs' => s' ← body s x; for_each body xs' s'
  end.

(** ** [helpers/qa.py]: the spin-ring model *)

Module Dimod.

(** [dimod.BinaryQuadraticModel(vartype="SPIN")]: the variables in
    insertion order and the quadratic biases, one per unordered pair. *)
Record BinaryQuadraticModel : Type := {
  variables : list Z;
  quadratic : gmap (Z * Z) Q
}.

Definition empty_bqm : BinaryQuadraticModel :=
  {| variables := []; quadratic := ∅ |}.

(** An interaction is undirected: [(u, v)] and [(v, u)] are one key. *)
Definition edge_key (u v : Z) : Z * Z :=
  if u <=? v then (u, v) else (v, u).

Definition add_variable (v : Z) (vs : list Z) : list Z :=
  if bool_decide (v ∈ vs) then vs else vs ++ [v].

(** [bqm.add_quadratic(u, v, bias)]: a self-loop raises [ValueError]; a
    new interaction gets [bias], an existing one accumulates it. *)
Definition add_quadratic (bqm : BinaryQuadraticModel) (u v : Z) (bias : Q)
  : result BinaryQuadraticModel :=
  if u =? v then Raise ValueError
  else
    let k := edge_key u v in
    let b := match quadratic bqm !! k with
             | Some old => (old + bias)%Q
             | None => bias
             end in
    Return {| variables := add_variable v (add_variable u (variables bqm));
              quadratic := <[k := b]> (quadratic bqm) |}.

Definition get_quadratic (bqm : BinaryQuadraticModel) (u v : Z) : option Q :=
  quadratic bqm !! edge_key u v.

Definition num_variables (bqm : BinaryQuadraticModel) : nat :=
  length (variables bqm).

Definition num_interactions (bqm : BinaryQuadraticModel) : nat :=
  size (quadratic bqm).

End Dimod.

Import Dimod.

(** [create_bqm(num_spins, coupling_strength)]. *)
Definition create_bqm (num_spins : Z) (coupling_strength : Q)
  : result BinaryQuadraticModel :=
  for_each
    (fun bqm spin =>
       add_quadratic bqm spin ((spin + 1) mod num_spins) coupling_strength)
    (seqZ 0 num_spins) empty_bqm.

(** The [i]-th edge of the ring of [N] spins, as the model keys it. *)
Definition ring_edge (N i : Z) : Z * Z := edge_key i ((i + 1) mod N).

(** The variables after [k] turns of the loop of [create_bqm]. *)
Definition ring_variables (N : Z) (k : nat) : list Z :=
  match k with
  | O => []
  | S _ => seqZ 0 (Z.min (Z.of_nat k + 1) N)
  end.

(** What holds of the model after [k] turns of the loop. *)
Record ring_prefix (N : Z) (J : Q) (k : nat) (bqm : BinaryQuadraticModel)
  : Prop := {
  prefix_variables : variables bqm = ring_variables N k;
  prefix_size : size (quadratic bqm) = k;
  prefix_bias : ∀ i, 0 ≤ i < Z.of_nat k → quadratic bqm !! ring_edge N i = Some J;
  prefix_only : ∀ key, is_Some (quadratic bqm !! key) →
                       ∃ i, 0 ≤ i < Z.of_nat k ∧ key = ring_edge N i
}.

(** ** [helpers/kz_calcs.py]: kink statistics *)

(** [sampleset.record.sample]: a two-dimensional integer array, one row per
    sample.  [shape1] is [shape[1]], the ring length; every row of a NumPy
    array has that many entries. *)
Record SampleArray : Type := {
  shape1 : nat;
  rows : list (list Z)
}.

Definition well_shaped (a : SampleArray) : Prop :=
  Forall (fun row => length row = shape1 a) (rows a).

(** [a[:, -1]]: the last entry of every row; [IndexError] on zero columns. *)
Definition last_column (a : SampleArray) : result (list Z) :=
  match shape1 a with
  | O => Raise IndexError
  | S _ => Return ((fun row => List.last row 0) <$> rows a)
  end.

(** [np.diff(v)] along a row: [out[i] = v[i+1] - v[i]]. *)
Definition np_diff (v : list Z) : list Z :=
  zip_with (fun a b => b - a) v (tail v).

(** [np.diff(a, prepend=p)]: each row is extended on the left first. *)
Definition np_diff_prepend (p : list Z) (a : list (list Z)) : list (list Z) :=
  zip_with (fun x row => np_diff (x :: row)) p a.

(** [np.count_nonzero(m, 1)] and [np.count_nonzero(m == 0, 1)]. *)
Definition count_nonzero (v : list Z) : Z :=
  Z.of_nat (length (filter (fun d => d ≠ 0) v)).

Definition count_zero (v : list Z) : Z :=
  Z.of_nat (length (filter (fun d => d = 0) v)).

Definition sumZ (v : list Z) : Z := foldr Z.add 0 v.

(** [np.mean] of an integer vector; [None] is the NaN of the empty mean. *)
Definition np_mean (v : list Z) : option Q :=
  match v with
  | [] => None
  | _ => Some (inject_Z (sumZ v) / inject_Z (Z.of_nat (length v)))%Q
  end.

Definition Qltb (x y : Q) : bool := negb (Qle_bool y x).

(** [kink_stats(sampleset, J)]: the per-sample counts and the mean kink
    density ([None] for NaN). *)
Definition kink_stats (sampleset : SampleArray) (J : Q)
  : result (list Z * option Q) :=
  last ← last_column sampleset;
  let sign_switches := np_diff_prepend last (rows sampleset) in
  let width := inject_Z (Z.of_nat (shape1 sampleset)) in
  if Qltb J 0 then
    let switches_per_sample := count_nonzero <$> sign_switches in
    let kink_density := (fun m => m / width)%Q <$> np_mean switches_per_sample in
    Return (switches_per_sample, kink_density)
  else
    let non_switches_per_sample := count_zero <$> sign_switches in
    let kink_density := (fun m => m / width)%Q <$> np_mean non_switches_per_sample in
    Return (non_switches_per_sample, kink_density).

(** The claim's wording, on one row of the ring: entry [i] minus its cyclic
    predecessor, the entry at [(i - 1) mod N]. *)
Definition cyclic_predecessor (N i : nat) : nat := ((i + N - 1) mod N)%nat.

Definition cyclic_first_difference (row : list Z) : list Z :=
  imap (fun i x => x - nth (cyclic_predecessor (length row) i) row 0) row.

Definition kinks_of_row (J : Q) (row : list Z) : Z :=
  if Qltb J 0 then count_nonzero (cyclic_first_difference row)
  else count_zero (cyclic_first_difference row).

(** The claim's "number of nonzero entries" and "number of zero entries" of
    a vector, entry by entry. *)
Fixpoint nonzero_entries (v : list Z) : Z :=
  match v with
  | [] => 0
  | d :: v' => (if d =? 0 then 0 else 1) + nonzero_entries v'
  end.

Fixpoint zero_entries (v : list Z) : Z :=
  match v with
  | [] => 0
  | d :: v' => (if d =? 0 then 1 else 0) + zero_entries v'
  end.

Definition sumQ (v : list Q) : Q := foldr Qplus 0%Q v.

Definition average (v : list Q) : Q :=
  (sumQ v / inject_Z (Z.of_nat (length v)))%Q.

(** A spin is [+1] or [-1]. *)
Definition is_spin (s : Z) : Prop := s = 1 ∨ s = -1.

(** A perfectly alternating row: every spin is the opposite of the one
    before it in the row.  Whether the first spin also differs from the
    last, its neighbour on the ring, is left to the length. *)
Definition alternating (row : list Z) : Prop :=
  Forall is_spin row ∧
  ∀ i, (S i < length row)%nat → nth (S i) row 0 = - nth i row 0.

(** All spins of the row are equal. *)
Definition constant (row : list Z) : Prop :=
  ∃ s, row = replicate (length row) s.

(** ** [helpers/qa.py]: the extrapolation fit *)

(** [np.polynomial.polynomial.polyval(x, c)], Horner's rule. *)
Definition polyval (x : Q) (c : list Q) : Q :=
  foldr (fun ci acc => ci + acc * x)%Q 0%Q c.

Section FittedFunction.

(** [Polynomial.fit(x, y, deg).convert().coef] is NumPy's; the wrapper is
    modelled over any implementation of it. *)
Variable Polynomial_fit : list Q → list Q → nat → result (list Q).

(** [fitted_function(xdata, ydata)]: the closure [y_func_x]. *)
Definition fitted_function (xdata ydata : list Q) : result (Q → Q) :=
  coeffs ← Polynomial_fit ((fun x => x * x)%Q <$> xdata) ydata 1;
  Return (fun x => polyval (x * x)%Q coeffs).

End FittedFunction.

(** NumPy's least-squares fit at the one degree the code asks for, [deg=1],
    in exact arithmetic: the normal equations when the abscissae are not
    all equal; otherwise the system is rank deficient, NumPy warns
    ([RankWarning]) and returns the solution of least norm, the constant
    [mean(y)].  Empty or mismatched vectors raise [TypeError]. *)
Definition lstsq_line (x y : list Q) (deg : nat) : result (list Q) :=
  match x with
  | [] => Raise TypeError
  | _ :: _ =>
      if negb (length x =? length y)%nat then Raise TypeError
      else
        let n := inject_Z (Z.of_nat (length x)) in
        let sx := sumQ x in
        let sy := sumQ y in
        let sxx := sumQ (zip_with Qmult x x) in
        let sxy := sumQ (zip_with Qmult x y) in
        let det := (n * sxx - sx * sx)%Q in
        if Qeq_bool det 0 then Return [(sy / n)%Q; 0%Q]
        else
          let c1 := ((n * sxy - sx * sy) / det)%Q in
          Return [((sy - c1 * sx) / n)%Q; c1]
  end.

(** ** [helpers/qa.py]: embedding search and job status *)

Definition Embedding : Type := gmap Z (list Z).

(** [status.status.value] ranges over the cloud API's problem states. *)
Inductive ProblemStatus : Type :=
  | PENDING | IN_PROGRESS | COMPLETED | FAILED | CANCELLED.

Definition status_value (s : ProblemStatus) : string :=
  match s with
  | PENDING => "PENDING"
  | IN_PROGRESS => "IN_PROGRESS"
  | COMPLETED => "COMPLETED"
  | FAILED => "FAILED"
  | CANCELLED => "CANCELLED"
  end.

(** What [p.get_problem_status(job_id)] returns: the problem's label, which
    may be absent, and its state. *)
Record StatusReply : Type := {
  label : option string;
  status : ProblemStatus
}.

(** [client]: [None], the placeholder string ["dummy"], or a configured
    cloud client. *)
Inductive Client : Type :=
  | NoClient
  | DummyClient
  | QpuClient.

(** Python truthiness of [client]. *)
Definition client_truthy (c : Client) : bool :=
  match c with
  | NoClient => false
  | DummyClient | QpuClient => true
  end.

(** The calls that leave the process. *)
Inductive Call : Type :=
  | CallNow
  | CallFindSubgraph (ring_edges : gset (Z * Z)) (timeout : Z)
  | CallGetProblemStatus (job_id : string).

(** The collaborators of one callback run: the wall clock already
    formatted by [strftime("%c")], the sampler registry [qpus] (name to
    edge list), the subgraph search and the status endpoint. *)
Record World : Type := {
  clock : string;
  qpus : gmap string (list (Z * Z));
  find_subgraph : gset (Z * Z) → list (Z * Z) → Z → result (gmap Z Z);
  get_problem_status : string → result StatusReply
}.

(** A computation that logs its external calls and may raise. *)
Record IO (A : Type) : Type := MkIO {
  calls : list Call;
  outcome : result A
}.
Arguments MkIO {A} calls outcome.
Arguments calls {A} _.
Arguments outcome {A} _.

Definition io_ret {A} (a : A) : IO A := MkIO [] (Return a).

Definition io_bind {A B} (m : IO A) (k : A → IO B) : IO B :=
  match outcome m with
  | Raise e => MkIO (calls m) (Raise e)
  | Return a => MkIO (calls m ++ calls (k a)) (outcome (k a))
  end.

Declare Scope io_scope.
Delimit Scope io_scope with io.
Bind Scope io_scope with IO.
Notation "x ← y ; z" := (io_bind y (fun x => z)) : io_scope.
Notation "' x ← y ; z" := (io_bind y (fun x => z)) : io_scope.

Definition raise {A} (e : exn) : IO A := MkIO [] (Raise e).

Definition external {A} (c : Call) (r : result A) : IO A := MkIO [c] r.

(** [try: body / except E: handler] for the exceptions [catches] accepts. *)
Definition try_except {A} (body : IO A) (catches : exn → bool)
  (handler : IO A) : IO A :=
  match outcome body with
  | Raise e =>
      if catches e then MkIO (calls body ++ calls handler) (outcome handler)
      else body
  | Return _ => body
  end.

(** [except Exception]: every exception of the model derives from it. *)
Definition any_Exception (e : exn) : bool := true.

Definition is_ResourceNotFoundError (e : exn) : bool :=
  match e with
  | ResourceNotFoundError => true
  | _ => false
  end.

(** [s.split(sep)] for a non-empty separator: cut at every occurrence, left
    to right.  [skip] counts the characters of a separator still to drop,
    [acc] holds the current piece reversed. *)
Fixpoint split_aux (sep : string) (skip : nat) (acc : string) (s : string)
  : list string :=
  match s with
  | EmptyString => [String.rev acc]
  | String c s' =>
      match skip with
      | S k => split_aux sep k acc s'
      | O =>
          if String.prefix sep s
          then String.rev acc :: split_aux sep (String.length sep - 1) EmptyString s'
          else split_aux sep O (String c acc) s'
      end
  end.

Definition split (s sep : string) : list string := split_aux sep 0 EmptyString s.

(** [find_one_to_one_embedding(spins, sampler_edgelist, timeout=60)]. *)
Definition find_one_to_one_embedding (w : World) (spins : Z)
  (sampler_edgelist : list (Z * Z)) : IO Embedding :=
  (let ring_edges : gset (Z * Z) :=
     list_to_set ((fun i => (i, (i + 1) mod spins)) <$> seqZ 0 spins) in
   emb_1to1 ← external (CallFindSubgraph ring_edges 60)
                (find_subgraph w ring_edges sampler_edgelist 60);
   io_ret ((fun v => [v]) <$> emb_1to1))%io.

(** [get_job_status(client, job_id, job_submit_time)]: [None] when the
    lookup raises [ResourceNotFoundError] or the label carries another
    submit time. *)
Definition get_job_status (w : World) (client : Client)
  (job_id job_submit_time : string) : IO (option string) :=
  (_ ← match client with
       | QpuClient => io_ret ()
       | _ => raise AttributeError
       end;
   try_except
     (reply ← external (CallGetProblemStatus job_id) (get_problem_status w job_id);
      lbl ← match label reply with
            | Some l => io_ret l
            | None => raise AttributeError
            end;
      label_time ← match split lbl "submitted: " !! 1%nat with
                   | Some t => io_ret t
                   | None => raise IndexError
                   end;
      if String.eqb label_time job_submit_time
      then io_ret (Some (status_value (status reply)))
      else io_ret None)
     is_ResourceNotFoundError
     (io_ret None))%io.

(** ** [app.py]: start-up *)

(** A sampler of the registry: a QPU solver of the cloud client or the
    local [MockKibbleZurekSampler]. *)
Inductive Sampler : Type :=
  | QpuSolver
  | MockKibbleZurekSampler.

(** The module-level state after import. *)
Record Startup : Type := {
  registry : gmap string Sampler;
  client : Client;
  init_job_status : string
}.

(** The initialisation at the top of the module.  [from_config] is the
    outcome of [Client.from_config(client="qpu")], [get_solvers] the names
    the fast-anneal query returns. *)
Definition startup (from_config : result ()) (get_solvers : result (list string))
  (USE_CLASSICAL : bool) : Startup :=
  let attempt : result (gmap string Sampler) :=
    _ ← from_config;
    names ← get_solvers;
    let found : gmap string Sampler :=
      list_to_map ((fun name => (name, QpuSolver)) <$> names) in
    if bool_decide (size found < 1)%nat
    then Raise (OtherException "Exception")
    else Return found in
  let '(qpus0, client0, status0) :=
    match attempt with
    | Return found => (found, QpuClient, "READY")
    | Raise _ => (∅, NoClient, "NO SOLVER")
    end in
  let qpus1 :=
    if USE_CLASSICAL
    then <["Diffusion [Classical]" := MockKibbleZurekSampler]> qpus0
    else qpus0 in
  let status1 := "READY" in
  let client1 := if negb (client_truthy client0) then DummyClient else client0 in
  {| registry := qpus1; client := client1; init_job_status := status1 |}.

(** [ctx.triggered_id == name]; [triggered_id] is [None] when nothing fired. *)
Definition triggered_is (triggered_id : option string) (name : string) : bool :=
  match triggered_id with
  | Some id => String.eqb id name
  | None => false
  end.

(** [alert_no_solver]: the value of [solver_modal.is_open]. *)
Definition alert_no_solver (triggered_id : option string) (client : Client) : bool :=
  triggered_is triggered_id "btn_simulate" && negb (client_truthy client).

(** ** [app.py]: the [simulate] callback *)

(** A value a callback returns for one output: [dash.no_update] or a new
    value. *)
Inductive upd (A : Type) : Type :=
  | no_update
  | update (a : A).
Arguments no_update {A}.
Arguments update {A} a.

(** [wd_job.interval] is given as [0.5 * 1000] and the like, or as an
    integer. *)
Inductive number : Type :=
  | PyInt (z : Z)
  | PyFloat (f : float).

(** The data of [embeddings_found]: a text (["needed"], ["not found"], or
    what the page starts with) or the dictionary [{spins: embedding}]. *)
Inductive FoundData : Type :=
  | FoundText (s : string)
  | FoundEmbedding (spins : Z) (embedding : Embedding).

(** The seven outputs, in the order of the decorator. *)
Record SimulateReturn : Type := {
  btn_simulate_disabled : bool;
  wd_job_disabled : bool;
  wd_job_interval : number;
  wd_job_n_intervals : Z;
  job_submit_state : upd string;
  job_submit_time : upd string;
  embeddings_found : upd FoundData
}.

Definition now (w : World) : IO string := external CallNow (Return (clock w)).

(** Python [in] on a list of state names. *)
Definition elem_ofb (s : string) (l : list string) : bool :=
  existsb (String.eqb s) l.

(** [embeddings_found == "needed"]. *)
Definition is_needed (d : FoundData) : bool :=
  match d with
  | FoundText s => String.eqb s "needed"
  | FoundEmbedding _ _ => false
  end.

(** [not x] for [x] a string or [None]. *)
Definition falsy (x : option string) : bool :=
  match x with
  | None => true
  | Some s => String.eqb s ""
  end.

(** [find_one_to_one_embedding(spins, qpus[qpu_name].edges)]; an unknown
    name is a [KeyError]. *)
Definition embedding_search (w : World) (spins : Z) (qpu_name : string)
  : IO Embedding :=
  (edges ← match qpus w !! qpu_name with
           | Some edges => io_ret edges
           | None => raise KeyError
           end;
   find_one_to_one_embedding w spins edges)%io.

Definition simulate (w : World) (client : Client) (triggered_id : option string)
  (job_id job_submit_state job_submit_time : string)
  (cached_embedding_lengths : list Z) (spins : Z) (qpu_name : string)
  (embeddings_found : FoundData) : IO SimulateReturn :=
  (if triggered_is triggered_id "btn_simulate" then
     if bool_decide (spins ∈ cached_embedding_lengths)
        || String.eqb qpu_name "Diffusion [Classical]"
     then
       submit_time ← now w;
       let submit_time :=
         if String.eqb qpu_name "Diffusion [Classical]" then "SA" else submit_time in
       io_ret {| btn_simulate_disabled := true; wd_job_disabled := false;
                 wd_job_interval := PyFloat (0.5 * 1000); wd_job_n_intervals := 0;
                 job_submit_state := update "SUBMITTED";
                 job_submit_time := update submit_time;
                 embeddings_found := no_update |}
     else
       io_ret {| btn_simulate_disabled := true; wd_job_disabled := false;
                 wd_job_interval := PyFloat (0.5 * 1000); wd_job_n_intervals := 0;
                 job_submit_state := update "EMBEDDING";
                 job_submit_time := no_update;
                 embeddings_found := update (FoundText "needed") |}
   else if String.eqb job_submit_state "EMBEDDING" then
     '(job_submit_state, submit_time, embedding) ←
       (if is_needed embeddings_found then
           try_except
             (embedding ← embedding_search w spins qpu_name;
              if negb (bool_decide (embedding = ∅))
              then io_ret ("EMBEDDING", no_update,
                           update (FoundEmbedding spins embedding))
              else io_ret ("FAILED", no_update, update (FoundText "not found")))
             any_Exception
             (io_ret ("FAILED", no_update, update (FoundText "not found")))
        else
           submit_time ← now w;
           io_ret ("SUBMITTED", update submit_time, no_update));
     io_ret {| btn_simulate_disabled := true; wd_job_disabled := false;
               wd_job_interval := PyFloat (0.2 * 1000); wd_job_n_intervals := 0;
               job_submit_state := update job_submit_state;
               job_submit_time := submit_time;
               embeddings_found := embedding |}
   else if elem_ofb job_submit_state ["SUBMITTED"; "PENDING"; "IN_PROGRESS"] then
     polled ← get_job_status w client job_id job_submit_time;
     let '(job_submit_state, wd_time) :=
       if falsy polled then ("SUBMITTED", PyFloat (0.2 * 1000))
       else (default "" polled, PyInt (1 * 1000)) in
     io_ret {| btn_simulate_disabled := true; wd_job_disabled := false;
               wd_job_interval := wd_time; wd_job_n_intervals := 0;
               job_submit_state := update job_submit_state;
               job_submit_time := no_update;
               embeddings_found := no_update |}
   else if elem_ofb job_submit_state ["COMPLETED"; "CANCELLED"; "FAILED"] then
     io_ret {| btn_simulate_disabled := false; wd_job_disabled := true;
               wd_job_interval := PyFloat (0.1 * 1000); wd_job_n_intervals := 0;
               job_submit_state := no_update;
               job_submit_time := no_update;
               embeddings_found := no_update |}
   else
     io_ret {| btn_simulate_disabled := false; wd_job_disabled := true;
               wd_job_interval := PyInt 0; wd_job_n_intervals := 0;
               job_submit_state := update "ERROR";
               job_submit_time := no_update;
               embeddings_found := no_update |})%io.

(** The properties [simulate] writes, as the page holds them. *)
Record Page : Type := {
  btn_disabled : bool;
  wd_disabled : bool;
  wd_interval : number;
  wd_n_intervals : Z;
  state : string;
  submit_time : string;
  found : FoundData
}.

(** The properties [simulate] only reads; other callbacks and the user
    write them. *)
Record Inputs : Type := {
  job_id : string;
  embedding_is_cached : list Z;
  spins_value : Z;
  qpu_selection : string
}.

Definition apply_upd {A} (u : upd A) (old : A) : A :=
  match u with
  | no_update => old
  | update a => a
  end.

(** Dash writes the outputs back to the page. *)
Definition render (out : SimulateReturn) (p : Page) : Page :=
  {| btn_disabled := btn_simulate_disabled out;
     wd_disabled := wd_job_disabled out;
     wd_interval := wd_job_interval out;
     wd_n_intervals := wd_job_n_intervals out;
     state := apply_upd (job_submit_state out) (state p);
     submit_time := apply_upd (job_submit_time out) (submit_time p);
     found := apply_upd (embeddings_found out) (found p) |}.

(** One firing of the callback on the current page. *)
Definition fire (w : World) (client : Client) (triggered_id : option string)
  (i : Inputs) (p : Page) : IO Page :=
  (out ← simulate w client triggered_id (job_id i) (state p) (submit_time p)
           (embedding_is_cached i) (spins_value i) (qpu_selection i) (found p);
   io_ret (render out p))%io.

(** A polling tick is a firing by the interval timer. *)
Definition tick (w : World) (client : Client) (i : Inputs) (p : Page) : IO Page :=
  fire w client (Some "wd_job") i p.

(** ** The page over a run of ticks *)

(** What the page shows once a firing is over: an exception leaves it as it
    was. *)
Definition settle (r : IO Page) (p : Page) : Page :=
  match outcome r with
  | Return p' => p'
  | Raise _ => p
  end.

(** A run of polling ticks, each with the world and the inputs of its
    moment: the final page and every external call made on the way. *)
Fixpoint run_ticks (client : Client) (moments : list (World * Inputs)) (p : Page)
  : list Call * Page :=
  match moments with
  | [] => ([], p)
  | (w, i) :: rest =>
      let r := tick w client i p in
      let '(cs, p') := run_ticks client rest (settle r p) in
      (calls r ++ cs, p')
  end.

(** The page after a tick spent in EMBEDDING, SUBMITTED, PENDING or
    IN_PROGRESS: the submit control and the timer stay as they are while a
    job is under way. *)
Definition running_page (interval : number) (st time : string) (f : FoundData)
  : Page :=
  {| btn_disabled := true; wd_disabled := false;
     wd_interval := interval; wd_n_intervals := 0;
     state := st; submit_time := time; found := f |}.

(** The page after a tick spent in a terminal state. *)
Definition idle_page (st time : string) (f : FoundData) : Page :=
  {| btn_disabled := false; wd_disabled := true;
     wd_interval := PyFloat 100; wd_n_intervals := 0;
     state := st; submit_time := time; found := f |}.

Definition classical : string := "Diffusion [Classical]".

(** The outputs of a submit request that goes straight to submission. *)
Definition submitted_with (time : string) : SimulateReturn :=
  {| btn_simulate_disabled := true; wd_job_disabled := false;
     wd_job_interval := PyFloat 500; wd_job_n_intervals := 0;
     job_submit_state := update "SUBMITTED";
     job_submit_time := update time;
     embeddings_found := no_update |}.

(** The outputs of a submit request that asks for an embedding. *)
Definition embedding_needed : SimulateReturn :=
  {| btn_simulate_disabled := true; wd_job_disabled := false;
     wd_job_interval := PyFloat 500; wd_job_n_intervals := 0;
     job_submit_state := update "EMBEDDING";
     job_submit_time := no_update;
     embeddings_found := update (FoundText "needed") |}.

(** ** [helpers/kz_calcs.py]: the theoretical kink density *)

Local Open Scope float_scope.

(** One line of the schedule table: the columns the function reads. *)
Record ScheduleRow : Type := {
  A_GHz : float;
  B_GHz : float;
  C_normalized : float
}.

Definition np_pi : float := 0x1.921fb54442d18p+1.

(** [Series.diff()]: NaN in the first place, then [x[i] - x[i-1]]. *)
Definition series_diff (x : list float) : list float :=
  match x with
  | [] => []
  | _ :: rest => nan :: zip_with (fun prev cur => cur - prev) x rest
  end.

Definition series_div (x y : list float) : list float :=
  zip_with PrimFloat.div x y.

(** [Series.idxmin()]: the place of the first least entry, NaN skipped;
    an empty or all-NaN series has none and the call (or the lookup by its
    NaN result) raises. *)
Fixpoint idxmin_from (i : nat) (best : option (nat * float)) (x : list float)
  : option (nat * float) :=
  match x with
  | [] => best
  | v :: x' =>
      let best' :=
        if is_nan v then best
        else match best with
             | None => Some (i, v)
             | Some (_, m) => if v <? m then Some (i, v) else best
             end in
      idxmin_from (S i) best' x'
  end.

Definition idxmin (x : list float) : result nat :=
  match idxmin_from 0 None x with
  | Some (i, _) => Return i
  | None => Raise ValueError
  end.

(** [x[i]] for a place [idxmin] returned. *)
Definition at_index (x : list float) (i : nat) : float := nth i x nan.

Section TheoreticalKinkDensity.

(** [np.power] is the platform's [pow]; the model is over any. *)
Variable np_power : float → float → float.

Definition theoretical_kink_density (annealing_times_ns : list float)
  (J : float) (schedule : list ScheduleRow) : result (list float) :=
  let A := A_GHz <$> schedule in
  let B := B_GHz <$> schedule in
  let C := C_normalized <$> schedule in
  let A_tag := series_div (series_diff A) (series_diff C) in
  let B_tag := series_div (series_diff B) (series_diff C) in
  sc_indx ← idxmin (zip_with (fun a b => abs (a - b * abs J)) A B);
  let b_numerator := 1e9 * np_pi * at_index A sc_indx in
  let b_denominator :=
    at_index B_tag sc_indx / at_index B sc_indx
    - at_index A_tag sc_indx / at_index A sc_indx in
  let b := b_numerator / b_denominator in
  Return ((fun t => np_power (1e-9 * t) (-0.5) / (2 * np_pi * sqrt (2 * b)))
            <$> annealing_times_ns).

End TheoreticalKinkDensity.

(** A stand-in for [pow] at the exponent the code uses, for the worked
    instances: [x ** -0.5] as [1 / sqrt x], which differs from the
    platform's [pow] by rounding at most on positive arguments. *)
Definition pow_by_sqrt (x y : float) : float :=
  if y =? -0.5 then 1 / sqrt x else nan.

Local Close Scope float_scope.

(** ** The theoretical kink density, row by row *)

(** NaN on the specification side of a binary64 value. *)
Definition sf_is_nan (f : spec_float) : bool :=
  match f with
  | S754_nan => true
  | _ => false
  end.

(** The running best is never NaN. *)
Definition best_ok (best : option (nat * float)) : Prop :=
  ∀ bi bm, best = Some (bi, bm) → is_nan bm = false.

(** The gap [|A(s) - B(s) |J||] on one row of the schedule. *)
Definition critical_gap (J : float) (row : ScheduleRow) : float :=
  abs (A_GHz row - B_GHz row * abs J)%float.

(** The discrete derivative of a column at row [i] that [A.diff()/C.diff()]
    holds: the difference to the row before over the difference of the
    [C (normalized)] column.  The first row has no row before it; the value
    there is NaN. *)
Definition discrete_derivative (column : ScheduleRow → float)
  (schedule : list ScheduleRow) (i : nat) : float :=
  match i with
  | O => nan
  | S k =>
      match schedule !! k, schedule !! i with
      | Some before, Some here =>
          ((column here - column before)
           / (C_normalized here - C_normalized before))%float
      | _, _ => nan
      end
  end.

(** The denominator [B'(s)/B(s) - A'(s)/A(s)] at row [sc], with these
    derivatives. *)
Definition rate_denominator (schedule : list ScheduleRow) (sc : nat)
  (at_sc : ScheduleRow) : float :=
  (discrete_derivative B_GHz schedule sc / B_GHz at_sc
   - discrete_derivative A_GHz schedule sc / A_GHz at_sc)%float.

(** The rate constant [b] at row [sc], [A] taken to Hz. *)
Definition rate_constant (schedule : list ScheduleRow) (sc : nat)
  (at_sc : ScheduleRow) : float :=
  (1e9 * np_pi * A_GHz at_sc / rate_denominator schedule sc at_sc)%float.

(** ** The schedule table of the specification *)

(** A line of the specification's table: the normalized time [s] beside
    the columns the function reads. *)
Record ScheduleLine : Type := {
  s_time : float;
  coefficients : ScheduleRow
}.

(** The claim's discrete derivative of a column at line [i]: the
    difference to the line before over the difference of the normalized
    time. *)
Definition derivative_over_time (column : ScheduleRow → float)
  (table : list ScheduleLine) (i : nat) : float :=
  match i with
  | O => nan
  | S k =>
      match table !! k, table !! i with
      | Some before, Some here =>
          ((column (coefficients here) - column (coefficients before))
           / (s_time here - s_time before))%float
      | _, _ => nan
      end
  end.

(** The claim's rate constant at line [sc], with these derivatives. *)
Definition rate_constant_over_time (table : list ScheduleLine) (sc : nat)
  (at_sc : ScheduleRow) : float :=
  (1e9 * np_pi * A_GHz at_sc
   / (derivative_over_time B_GHz table sc / B_GHz at_sc
      - derivative_over_time A_GHz table sc / A_GHz at_sc))%float.

(** ** Inputs of the worked instances *)

Definition kz_label (submitted : string) : string :=
  "Examples - Kibble-Zurek Simulation, submitted: " ++ submitted.

(** A world at a given moment, with one QPU whose graph holds a triangle on
    qubits 10, 11 and 12, and one known job, ["2"], submitted at
    [submitted] and in state [st]. *)
Definition world_at (time submitted : string) (st : ProblemStatus) : World :=
  {| clock := time;
     qpus := {[ "Advantage_system4.3" := [(10, 11); (11, 12); (10, 12)] ]};
     find_subgraph := fun ring _ _ =>
       if bool_decide (size ring = 3%nat)
       then Return (<[0 := 10]> (<[1 := 11]> (<[2 := 12]> ∅)))
       else Return ∅;
     get_problem_status := fun job =>
       if String.eqb job "2"
       then Return {| label := Some (kz_label submitted); status := st |}
       else Raise ResourceNotFoundError |}.

Definition tuesday_1338 : string := "Tue Nov  3 13:38:00 2026".
Definition tuesday_1339 : string := "Tue Nov  3 13:39:00 2026".

(** Three spins on the QPU of [world_at], the search still to be made. *)
Definition three_spins : Inputs :=
  {| job_id := ""; embedding_is_cached := [512; 1024]; spins_value := 3;
     qpu_selection := "Advantage_system4.3" |}.

Definition triangle : Embedding := <[0 := [10]]> (<[1 := [11]]> (<[2 := [12]]> ∅)).

(** Job ["2"] under way at 512 spins. *)
Definition job_two : Inputs :=
  {| job_id := "2"; embedding_is_cached := [512; 1024]; spins_value := 512;
     qpu_selection := "Advantage_system4.3" |}.

Definition two_samples : SampleArray :=
  {| shape1 := 4; rows := [[1; -1; 1; -1]; [1; 1; -1; -1]] |}.

(** Alternating rows on an even ring, constant rows, and alternating rows
    on an odd ring. *)
Definition alternating_samples : SampleArray :=
  {| shape1 := 4; rows := [[1; -1; 1; -1]; [-1; 1; -1; 1]] |}.

Definition constant_samples : SampleArray :=
  {| shape1 := 4; rows := [[1; 1; 1; 1]; [-1; -1; -1; -1]] |}.

Definition odd_ring_samples : SampleArray :=
  {| shape1 := 3; rows := [[1; -1; 1]; [-1; 1; -1]] |}.

(** A schedule of three rows whose gap at [J = 1] is least on the second. *)
Definition crossing_schedule : list ScheduleRow :=
  [ {| A_GHz := 8; B_GHz := 0.5; C_normalized := 0 |};
    {| A_GHz := 4; B_GHz := 2; C_normalized := 0.5 |};
    {| A_GHz := 1; B_GHz := 6; C_normalized := 1 |} ]%float.

(** Constant [A] and [B] columns: every gap is the same, the critical row
    is the first. *)
Definition constant_schedule : list ScheduleRow :=
  [ {| A_GHz := 1; B_GHz := 1; C_normalized := 0 |};
    {| A_GHz := 1; B_GHz := 1; C_normalized := 1 |} ]%float.

(** [A] and [B] fall at the same relative rate: at the critical row, the
    second, [B'/B = A'/A] and the denominator is zero. *)
Definition parallel_schedule : list ScheduleRow :=
  [ {| A_GHz := 4; B_GHz := 2; C_normalized := 0 |};
    {| A_GHz := 2; B_GHz := 1; C_normalized := 1 |} ]%float.

(** The rows of [crossing_schedule] at the times [0], [0.5] and [1], with a
    [C (normalized)] column that is not the time. *)
Definition skewed_table : list ScheduleLine :=
  [ {| s_time := 0; coefficients := {| A_GHz := 8; B_GHz := 0.5; C_normalized := 0 |} |};
    {| s_time := 0.5; coefficients := {| A_GHz := 4; B_GHz := 2; C_normalized := 0.25 |} |};
    {| s_time := 1; coefficients := {| A_GHz := 1; B_GHz := 6; C_normalized := 1 |} |} ]%float.

(** * Further code of the repository *)

(** ** [app.py]: the states [simulate] knows and the label of a job *)

(** The state names [simulate] tests for, in the order of its branches. *)
Definition known_states : list string :=
  ["EMBEDDING"; "SUBMITTED"; "PENDING"; "IN_PROGRESS";
   "COMPLETED"; "CANCELLED"; "FAILED"].

(** Every state a firing can write. *)
Definition lifecycle_states : list string := known_states ++ ["ERROR"].

(** The page after a tick spent in a state [simulate] does not know. *)
Definition error_page (time : string) (f : FoundData) : Page :=
  {| btn_disabled := false; wd_disabled := true;
     wd_interval := PyInt 0; wd_n_intervals := 0;
     state := "ERROR"; submit_time := time; found := f |}.

(** Python's [sub in s] on strings. *)
Fixpoint contains (s sub : string) : bool :=
  String.prefix sub s
  || match s with
     | EmptyString => false
     | String _ s' => contains s' sub
     end.

(** The label [submit_job] gives the problem it sends to the QPU:
    [f"Examples - Kibble-Zurek Simulation, submitted: {job_submit_time}"]. *)
Definition job_label (job_submit_time : string) : string :=
  "Examples - Kibble-Zurek Simulation, submitted: " ++ job_submit_time.

(** A world whose status endpoint gives the same answer for every job, with
    no QPU and a search that finds nothing. *)
Definition world_with_reply (time : string) (r : result StatusReply) : World :=
  {| clock := time;
     qpus := ∅;
     find_subgraph := fun _ _ _ => Return ∅;
     get_problem_status := fun _ => r |}.

(** ** [app.py]: [disable_buttons] *)

(** A value of a dropdown option's dictionary. *)
Inductive OptionValue : Type :=
  | OBool (b : bool)
  | OInt (z : Z)
  | OStr (s : string).

Definition running_states : list string :=
  ["EMBEDDING"; "SUBMITTED"; "PENDING"; "IN_PROGRESS"].

Definition done_states : list string :=
  ["COMPLETED"; "CANCELLED"; "FAILED"].

(** [raise PreventUpdate]: Dash leaves every output as it is. *)
Definition PreventUpdate : exn := OtherException "PreventUpdate".

(** [disable_buttons(job_submit_state, spins_options)]: the values of
    [anneal_duration.disabled], [coupling_strength.disabled],
    [spins.options] and [qpu_selection.disabled]. *)
Definition disable_buttons (job_submit_state : string)
  (spins_options : list (gmap string OptionValue))
  : result (bool * bool * list (gmap string OptionValue) * bool) :=
  let is_running := elem_ofb job_submit_state running_states in
  if negb (elem_ofb job_submit_state (running_states ++ done_states))
  then Raise PreventUpdate
  else
    let spins_options :=
      (fun option => <["disabled" := OBool is_running]> option) <$> spins_options in
    Return (is_running, is_running, spins_options, is_running).

(** ** Sample sets related by a symmetry *)

(** Every spin of every sample turned over. *)
Definition flip_spins (a : SampleArray) : SampleArray :=
  {| shape1 := shape1 a;
     rows := (fun row : list Z => Z.opp <$> row) <$> rows a |}.

(** A sample set of spins. *)
Definition spin_samples (a : SampleArray) : Prop :=
  Forall (Forall is_spin) (rows a).

(** ** Python dictionaries, in insertion order *)

(** A [dict] as the list of its items in insertion order. *)
Definition PyDict (K V : Type) : Type := list (K * V).

Section PyDict.

Context {K V : Type} `{EqDecision K}.

Fixpoint dict_lookup (k : K) (d : PyDict K V) : option V :=
  match d with
  | [] => None
  | (k', v) :: d' => if decide (k = k') then Some v else dict_lookup k d'
  end.

(** [d[k]]: [KeyError] when [k] is no key of [d]. *)
Definition dict_getitem (k : K) (d : PyDict K V) : result V :=
  match dict_lookup k d with
  | Some v => Return v
  | None => Raise KeyError
  end.

(** [d[k] = v]: a key already there keeps its place, a new one goes last. *)
Fixpoint dict_setitem (k : K) (v : V) (d : PyDict K V) : PyDict K V :=
  match d with
  | [] => [(k, v)]
  | (k', v') :: d' =>
      if decide (k = k') then (k', v) :: d' else (k', v') :: dict_setitem k v d'
  end.

(** [del d[k]]: [KeyError] when [k] is no key of [d]. *)
Fixpoint dict_delitem (k : K) (d : PyDict K V) : result (PyDict K V) :=
  match d with
  | [] => Raise KeyError
  | (k', v') :: d' =>
      if decide (k = k') then Return d'
      else d'' ← dict_delitem k d'; Return ((k', v') :: d'')
  end.

(** [list(d.keys())]. *)
Definition dict_keys (d : PyDict K V) : list K := d.*1.

End PyDict.

(** ** [helpers/qa.py]: [json_to_dict] *)

(** An embedding [{node: [qubit, ...]}] and the cache [{spins: embedding}],
    as Python holds them and as they come back from the page's JSON, where
    every key is a string. *)
Definition Chains : Type := PyDict Z (list Z).
Definition JsonChains : Type := PyDict string (list Z).
Definition JsonEmbeddings : Type := PyDict string JsonChains.

Section JsonToDict.

(** [int(key)] on a string is Python's; the model is over any. *)
Variable int : string → result Z.

(** [{int(key): convert(value) for key, value in items}]: the key is
    evaluated before the value, a key met again overwrites. *)
Definition with_int_keys {V W : Type} (convert : V → result W)
  (items : PyDict string V) : result (PyDict Z W) :=
  for_each (fun acc '(key, value) =>
              k ← int key;
              w ← convert value;
              Return (dict_setitem k w acc))
           items [].

Definition json_to_dict (emb_json : JsonEmbeddings) : result (PyDict Z Chains) :=
  with_int_keys (with_int_keys (fun qubits => Return qubits)) emb_json.

End JsonToDict.

(** ** [helpers/qa.py]: [get_samples] *)

(** The sample sets [get_samples] obtains and hands on are the libraries':
    [SampleSet.from_serializable(json.loads(job_id))],
    [client.retrieve_answer(job_id).sampleset] and [unembed_sampleset].  A
    sample set is taken as its array [record.sample]. *)
Record SampleSource : Type := {
  from_serializable : string → result SampleArray;
  retrieve_answer : string → result SampleArray;
  unembed_sampleset : SampleArray → Chains → BinaryQuadraticModel → result SampleArray
}.

(** The marker of a serialized sample set, [{"type": "SampleSet"]. *)
Definition double_quote : string := String (Ascii.ascii_of_nat 34) EmptyString.

Definition sampleset_marker : string :=
  double_quote ++ "type" ++ double_quote ++ ": "
  ++ double_quote ++ "SampleSet" ++ double_quote.

Definition get_samples (src : SampleSource) (client : Client) (job_id : string)
  (num_spins : Z) (J : Q) (embedding : Chains) : result SampleArray :=
  bqm ← create_bqm num_spins J;
  sampleset ← (if contains job_id sampleset_marker
               then from_serializable src job_id
               else match client with
                    | QpuClient => retrieve_answer src job_id
                    | _ => Raise AttributeError
                    end);
  unembed_sampleset src sampleset embedding bqm.

(** ** [app.py]: [display_graphics_spin_ring] *)

(** [plot_spin_orientation(num_spins, sample)] is the plotting module's;
    the figure is taken as the call that makes it. *)
Inductive Figure : Type :=
  | plot_spin_orientation (num_spins : Z) (sample : option (list Z)).

(** [np.abs(kinks_per_sample - kink_density)]; NaN in every place when the
    density is NaN. *)
Definition deviations (kinks_per_sample : list Z) (kink_density : option Q)
  : list (option Q) :=
  (fun kinks => (fun density => Qabs (inject_Z kinks - density)) <$> kink_density)
    <$> kinks_per_sample.

(** [a.argmin()]: the place of the first least entry, of the first NaN if
    there is one; [ValueError] on an empty array. *)
Fixpoint argmin_from (i : nat) (best : nat * option Q) (a : list (option Q)) : nat :=
  match a with
  | [] => best.1
  | x :: a' =>
      let best' :=
        match best.2, x with
        | None, _ => best
        | Some _, None => (i, None)
        | Some m, Some y => if Qltb y m then (i, x) else best
        end in
      argmin_from (S i) best' a'
  end.

Definition np_argmin (a : list (option Q)) : result nat :=
  match a with
  | [] => Raise ValueError
  | x :: a' => Return (argmin_from 1 (0%nat, x) a')
  end.

Definition display_graphics_spin_ring (int : string → result Z)
  (src : SampleSource) (client : Client) (triggered_id : option string)
  (spins : Z) (job_submit_state job_id : string) (J : Q)
  (embeddings_cached : JsonEmbeddings) : result Figure :=
  if triggered_is triggered_id "job_submit_state" then
    if negb (String.eqb job_submit_state "COMPLETED") then Raise PreventUpdate
    else
      embeddings_cached ← json_to_dict int embeddings_cached;
      embedding ← dict_getitem spins embeddings_cached;
      sampleset_unembedded ← get_samples src client job_id spins J embedding;
      '(kinks_per_sample, kink_density) ← kink_stats sampleset_unembedded J;
      best_indx ← np_argmin (deviations kinks_per_sample kink_density);
      best_sample ← match rows sampleset_unembedded !! best_indx with
                    | Some row => Return row
                    | None => Raise IndexError
                    end;
      Return (plot_spin_orientation spins (Some best_sample))
  else Return (plot_spin_orientation spins None).

(** Every key of a cache as it comes from JSON, of both levels, and the
    cache with every key replaced by a number. *)
Definition json_keys (emb_json : JsonEmbeddings) : list string :=
  dict_keys emb_json ++ concat ((fun item => dict_keys item.2) <$> emb_json).

Definition rename_chains (n : string → Z) (emb : JsonChains) : Chains :=
  (fun item => (n item.1, item.2)) <$> emb.

Definition rename_keys (n : string → Z) (emb_json : JsonEmbeddings)
  : PyDict Z Chains :=
  (fun item => (n item.1, rename_chains n item.2)) <$> emb_json.

(** ** [app.py]: [set_schedule] *)

(** [file.lower()] on the letters [A] to [Z]; whether the lowered name
    contains ["schedule.csv"] depends on these alone. *)
Definition lower_ascii (c : Ascii.ascii) : Ascii.ascii :=
  let n := Ascii.nat_of_ascii c in
  if (65 <=? n)%nat && (n <=? 90)%nat then Ascii.ascii_of_nat (n + 32) else c.

Fixpoint lower (s : string) : string :=
  match s with
  | EmptyString => EmptyString
  | String c s' => String (lower_ascii c) (lower s')
  end.

(** The style of the file name on the page. *)
Record Style : Type := {
  color : string;
  fontSize : Z
}.

(** Python truthiness of [ctx.triggered_id]. *)
Definition truthy_id (triggered_id : option string) : bool :=
  match triggered_id with
  | Some (String _ _) => true
  | _ => false
  end.

(** [set_schedule(qpu_name)]; [listdir] is the outcome of
    [os.listdir("helpers")]. *)
Definition set_schedule (listdir : result (list string))
  (triggered_id : option string) (qpu_name : string) : result (string * Style) :=
  let schedule_filename := "FALLBACK_SCHEDULE.csv" in
  let schedule_filename_style := {| color := "red"; fontSize := 12 |} in
  if truthy_id triggered_id then
    files ← listdir;
    for_each (fun '(schedule_filename, schedule_filename_style) filename =>
                family ← match split qpu_name "." !! 0%nat with
                         | Some piece => Return piece
                         | None => Raise IndexError
                         end;
                if contains filename family then
                  if contains filename qpu_name
                  then Return (filename, {| color := "white"; fontSize := 12 |})
                  else Return (filename, schedule_filename_style)
                else Return (schedule_filename, schedule_filename_style))
      (filter (fun file => contains (lower file) "schedule.csv" = true) files)
      (schedule_filename, schedule_filename_style)
  else Return (schedule_filename, schedule_filename_style).

(** A file name [set_schedule] looks at. *)
Definition is_schedule_file (file : string) : Prop :=
  contains (lower file) "schedule.csv" = true.

(** ** [app.py]: [cache_embeddings] *)

(** The data of [embeddings_found] as the page sends it: a text or a
    dictionary with string keys. *)
Inductive FoundJson : Type :=
  | FoundJsonText (s : string)
  | FoundJsonDict (d : JsonEmbeddings).

(** The [helpers] folder: [os.listdir("helpers")] and, for a path, what
    [open] and [json.load] give. *)
Record Folder : Type := {
  listdir : result (list string);
  json_load : string → result JsonEmbeddings
}.

(** The cache returned: its keys are numbers once [json_to_dict] went over
    it and strings while it is as the page sent it. *)
Inductive Cache : Type :=
  | CacheJson (d : JsonEmbeddings)
  | CacheDict (d : PyDict Z Chains).

Inductive CacheKey : Type :=
  | KeyStr (s : string)
  | KeyInt (z : Z).

Definition cache_keys (c : Cache) : list CacheKey :=
  match c with
  | CacheJson d => KeyStr <$> dict_keys d
  | CacheDict d => KeyInt <$> dict_keys d
  end.

(** The name under which the embeddings of [qpu_name] are filed. *)
Definition embeddings_qpu (qpu_name : string) : string :=
  if String.eqb qpu_name "Diffusion [Classical]" then "Advantage_system6.4"
  else qpu_name.

(** One round of the loop over [list(embeddings_cached.keys())]: the
    embedding of [length] is dropped when it is no longer valid.
    [is_valid_embedding] is the library's, on the embedding, the graph of
    the ring model and the edges of the QPU. *)
Definition validate_embedding (w : World)
  (is_valid_embedding : Chains → BinaryQuadraticModel → list (Z * Z) → result bool)
  (_qpu_name : string) (embeddings_cached : PyDict Z Chains) (length : Z)
  : result (PyDict Z Chains) :=
  source_graph ← create_bqm length (-14 # 10)%Q;
  target_graph ← match qpus w !! _qpu_name with
                 | Some edges => Return edges
                 | None => Raise KeyError
                 end;
  emb ← dict_getitem length embeddings_cached;
  valid ← is_valid_embedding emb source_graph target_graph;
  if negb valid then dict_delitem length embeddings_cached
  else Return embeddings_cached.

Definition validate_embeddings (w : World)
  (is_valid_embedding : Chains → BinaryQuadraticModel → list (Z * Z) → result bool)
  (_qpu_name : string) (embeddings_cached : PyDict Z Chains)
  : result (PyDict Z Chains) :=
  for_each (validate_embedding w is_valid_embedding _qpu_name)
    (dict_keys embeddings_cached) embeddings_cached.

(** One round of the loop over the embedding files of the folder: a file
    whose name contains the name of the QPU replaces the cache. *)
Definition load_embeddings (int : string → result Z) (folder : Folder)
  (w : World)
  (is_valid_embedding : Chains → BinaryQuadraticModel → list (Z * Z) → result bool)
  (qpu_name : string) (embeddings_cached : PyDict Z Chains) (filename : string)
  : result (PyDict Z Chains) :=
  let _qpu_name := embeddings_qpu qpu_name in
  if contains filename _qpu_name then
    loaded ← json_load folder ("helpers/" +:+ filename);
    embeddings_cached ← json_to_dict int loaded;
    validate_embeddings w is_valid_embedding _qpu_name embeddings_cached
  else Return embeddings_cached.

(** [cache_embeddings(qpu_name, embeddings_found, embeddings_cached)].  The
    two tests of [ctx.triggered_id] exclude each other. *)
Definition cache_embeddings (int : string → result Z) (folder : Folder)
  (w : World)
  (is_valid_embedding : Chains → BinaryQuadraticModel → list (Z * Z) → result bool)
  (triggered_id : option string) (qpu_name : string)
  (embeddings_found : FoundJson) (embeddings_cached : JsonEmbeddings)
  : result (Cache * list CacheKey) :=
  embeddings_cached ←
    (if triggered_is triggered_id "qpu_selection" then
       files ← listdir folder;
       embeddings_cached ←
         for_each (load_embeddings int folder w is_valid_embedding qpu_name)
           (filter (fun file => contains file ".json" && contains file "emb_" = true)
              files)
           [];
       Return (CacheDict embeddings_cached)
     else if triggered_is triggered_id "embeddings_found" then
       match embeddings_found with
       | FoundJsonText _ => Raise PreventUpdate
       | FoundJsonDict found =>
           embeddings_cached ← json_to_dict int embeddings_cached;
           embeddings_found ← json_to_dict int found;
           new_embedding ← match dict_keys embeddings_found !! 0%nat with
                           | Some key => Return key
                           | None => Raise IndexError
                           end;
           embedding ← dict_getitem new_embedding embeddings_found;
           Return (CacheDict (dict_setitem new_embedding embedding embeddings_cached))
       end
     else Return (CacheJson embeddings_cached));
  Return (embeddings_cached, cache_keys embeddings_cached).

(** An embedding that [is_valid_embedding] accepts for the ring of
    [length] spins on the QPU filed under [name]. *)
Definition validated (w : World)
  (is_valid_embedding : Chains → BinaryQuadraticModel → list (Z * Z) → result bool)
  (name : string) (length : Z) (emb : Chains) : Prop :=
  ∃ bqm edges,
    create_bqm length (-14 # 10)%Q = Return bqm
    ∧ qpus w !! name = Some edges
    ∧ is_valid_embedding emb bqm edges = Return true.

(** ** [app.py]: [submit_job] *)

(** The calls of [submit_job] into the embedding library and the samplers,
    in the order the code makes them: [embed_bqm] on the adjacency of the
    classical sampler, its [sample] serialized by [json.dumps]; [embed_bqm]
    on the adjacency of the QPU, [calclambda_], and [sample_bqm] followed by
    [wait_id]. *)
Record Submission : Type := {
  embed_classical : BinaryQuadraticModel → Chains → result BinaryQuadraticModel;
  sample_classical : BinaryQuadraticModel → float → result string;
  embed_qpu : string → BinaryQuadraticModel → Chains → result BinaryQuadraticModel;
  calclambda_ : Q → string → result float;
  sample_bqm : string → BinaryQuadraticModel → float → string → result string
}.

(** [submit_job]: the values of [job_id.children], [initial_warning.data]
    and [warning-modal.is_open].  [is_kz_nm] is the outcome of the test
    [problem_type is ProblemType.KZ_NM.value]. *)
Definition submit_job (int : string → result Z) (qpus : gmap string Sampler)
  (calls : Submission) (job_submit_time qpu_name : string) (spins : Z) (J : Q)
  (ta_ns : float) (embeddings_cached : JsonEmbeddings) (is_kz_nm : bool)
  (filename : string) (initial_warning : bool) : result (string * bool * bool) :=
  solver ← match qpus !! qpu_name with
           | Some sampler => Return sampler
           | None => Raise KeyError
           end;
  bqm ← create_bqm spins J;
  embeddings_cached ← json_to_dict int embeddings_cached;
  embedding ← dict_getitem spins embeddings_cached;
  let annealing_time := (ta_ns / 1000)%float in
  if String.eqb qpu_name "Diffusion [Classical]" then
    bqm_embedded ← embed_classical calls bqm embedding;
    serialized ← sample_classical calls bqm_embedded annealing_time;
    Return (serialized, true, negb initial_warning)
  else
    bqm_embedded ← embed_qpu calls qpu_name bqm embedding;
    ta_multiplier ← (if is_kz_nm then calclambda_ calls J filename
                     else Return 1%float);
    job ← sample_bqm calls qpu_name bqm_embedded
            (annealing_time * ta_multiplier)%float (job_label job_submit_time);
    Return (job, false, false).

(** ** The extrapolation fit on data of its own form *)

(** The determinant of the normal equations of a line through the
    abscissae [u]: [n * sum(u^2) - sum(u)^2]. *)
Definition normal_determinant (u : list Q) : Q :=
  (inject_Z (Z.of_nat (length u)) * sumQ (zip_with Qmult u u) - sumQ u * sumQ u)%Q.

(** ** Inputs of further worked instances *)

(** A reading of decimal numerals, for [int]. *)
Definition decimal_int (s : string) : result Z :=
  match NilZero.int_of_string s with
  | Some d => Return (Z.of_int d)
  | None => Raise ValueError
  end.

Definition decimal_value (s : string) : Z :=
  match decimal_int s with
  | Return z => z
  | Raise _ => 0
  end.

Definition cached_four : JsonEmbeddings :=
  [("4", [("0", [10]); ("1", [11]); ("2", [12]); ("3", [13])])].

(** A source whose every job holds [two_samples], already unembedded. *)
Definition sample_source : SampleSource :=
  {| from_serializable := fun _ => Return two_samples;
     retrieve_answer := fun _ => Return two_samples;
     unembed_sampleset := fun sampleset _ _ => Return sampleset |}.


(** A listing of the [helpers] folder, and the folder with one embedding
    file. *)
Definition helpers_listing : list string :=
  ["kz_calcs.py";
   "09-1273A-E_Advantage_system4.3_fast_annealing_schedule.csv";
   "emb_Advantage_system4.3.json";
   "09-1263A-B_Advantage_system4.1_fast_annealing_schedule.csv";
   "FALLBACK_SCHEDULE.csv"].

Definition helpers_folder : Folder :=
  {| listdir := Return helpers_listing;
     json_load := fun path =>
       if String.eqb path "helpers/emb_Advantage_system4.3.json"
       then Return cached_four
       else Raise (OtherException "FileNotFoundError") |}.

Definition four_chains : Chains := [(0, [10]); (1, [11]); (2, [12]); (3, [13])].

Definition found_eight : JsonEmbeddings :=
  [("8", [("0", [20]); ("1", [21])])].

(** Samplers that are out of reach, and the registry of a start-up that
    found one QPU and the classical sampler. *)
Definition unreachable : Submission :=
  {| embed_classical := fun _ _ => Raise (OtherException "ConnectionError");
     sample_classical := fun _ _ => Raise (OtherException "ConnectionError");
     embed_qpu := fun _ _ _ => Raise (OtherException "ConnectionError");
     calclambda_ := fun _ _ => Raise (OtherException "ConnectionError");
     sample_bqm := fun _ _ _ _ => Raise (OtherException "ConnectionError") |}.

Definition one_qpu_registry : gmap string Sampler :=
  registry (startup (Return ()) (Return ["Advantage_system4.3"]) true).

(** * Properties *)

Lemma for_each_app {S A} (body : S -> A -> result S) (xs ys : list A) (s : S) :
  for_each body (xs ++ ys) s = (s' ← for_each body xs s; for_each body ys s').
Proof.
  revert s. induction xs as [|x xs IH]; intros s; simpl; [done|].
  destruct (body s x); simpl; auto.
Qed.

(** ** The spin ring *)

Section Ring.

Variable N : Z.
Variable J : Q.
Hypothesis ring_size : 3 ≤ N.

Abbreviation ring_edge := (ring_edge N).
Abbreviation ring_variables := (ring_variables N).
Abbreviation ring_prefix := (ring_prefix N J).
Abbreviation ring_step := (fun bqm spin => add_quadratic bqm spin ((spin + 1) mod N) J).

Lemma succ_mod_cases (i : Z) :
  0 ≤ i < N →
  (i < N - 1 ∧ (i + 1) mod N = i + 1) ∨ (i = N - 1 ∧ (i + 1) mod N = 0).
Proof using ring_size.
  intros Hi. destruct (decide (i = N - 1)) as [->|Hne].
  - right. split; [done|]. replace (N - 1 + 1) with N by lia.
    apply Z_mod_same_full.
  - left. split; [lia|]. apply Z.mod_small. lia.
Qed.

Lemma ring_edge_inj (i k : Z) :
  0 ≤ i < N → 0 ≤ k < N → ring_edge i = ring_edge k → i = k.
Proof using ring_size.
  unfold ring_edge, edge_key. intros Hi Hk.
  destruct (succ_mod_cases i Hi) as [[? ->]|[? ->]],
           (succ_mod_cases k Hk) as [[? ->]|[? ->]];
    repeat case_match; intros [=]; lia.
Qed.

Lemma ring_prefix_empty : ring_prefix 0 empty_bqm.
Proof.
  split; simpl; [done|done|lia|].
  intros key [x Hx]. by rewrite lookup_empty in Hx.
Qed.

Lemma add_variable_old (v : Z) (vs : list Z) :
  v ∈ vs → add_variable v vs = vs.
Proof. intros H. unfold add_variable. by rewrite bool_decide_eq_true_2. Qed.

Lemma add_variable_new (v : Z) (vs : list Z) :
  v ∉ vs → add_variable v vs = vs ++ [v].
Proof. intros H. unfold add_variable. by rewrite bool_decide_eq_false_2. Qed.

Lemma ring_variables_step (k : nat) :
  Z.of_nat k < N →
  add_variable ((Z.of_nat k + 1) mod N) (add_variable (Z.of_nat k) (ring_variables k))
  = ring_variables (S k).
Proof using ring_size.
  intros Hk. destruct k as [|k].
  - cbn [ring_variables]. rewrite Z.mod_small by lia.
    rewrite (add_variable_new (Z.of_nat 0) []) by apply not_elem_of_nil.
    rewrite add_variable_new by (simpl; by intros ?%list_elem_of_singleton).
    by rewrite Z.min_l by lia.
  - cbn [ring_variables].
    rewrite (add_variable_old (Z.of_nat (S k))) by (apply elem_of_seqZ; lia).
    destruct (succ_mod_cases (Z.of_nat (S k))) as [[Hlt ->]|[Heq ->]]; [lia| |].
    + rewrite add_variable_new by (rewrite elem_of_seqZ; lia).
      rewrite !Z.min_l by lia.
      replace (Z.of_nat (S (S k)) + 1) with (Z.of_nat (S (S (S k)))) by lia.
      replace (Z.of_nat (S k) + 1) with (Z.of_nat (S (S k))) by lia.
      by rewrite (seqZ_S 0 (S (S k))).
    + rewrite add_variable_old by (apply elem_of_seqZ; lia).
      by rewrite !Z.min_r by lia.
Qed.

Lemma ring_prefix_step (k : nat) (bqm : BinaryQuadraticModel) :
  Z.of_nat k < N →
  ring_prefix k bqm →
  ∃ bqm', add_quadratic bqm (Z.of_nat k) ((Z.of_nat k + 1) mod N) J = Return bqm'
         ∧ ring_prefix (S k) bqm'.
Proof using ring_size.
  intros Hk [Hvars Hsize Hbias Honly].
  assert (Hfresh : quadratic bqm !! ring_edge (Z.of_nat k) = None).
  { destruct (quadratic bqm !! ring_edge (Z.of_nat k)) eqn:E; [|done].
    destruct (Honly (ring_edge (Z.of_nat k))) as (i & Hi & Heq); [by eexists|].
    apply ring_edge_inj in Heq; lia. }
  unfold add_quadratic.
  assert (Hloop : Z.of_nat k ≠ (Z.of_nat k + 1) mod N).
  { destruct (succ_mod_cases (Z.of_nat k)) as [[? ->]|[? ->]]; lia. }
  apply Z.eqb_neq in Hloop. rewrite Hloop.
  fold (ring_edge (Z.of_nat k)). rewrite Hfresh.
  eexists. split; [done|]. split; cbn [variables quadratic].
  - rewrite Hvars. by apply ring_variables_step.
  - rewrite map_size_insert_None by done. by rewrite Hsize.
  - intros i Hi. destruct (decide (i = Z.of_nat k)) as [->|Hne].
    + by rewrite lookup_insert_eq.
    + rewrite lookup_insert_ne.
      * apply Hbias. lia.
      * intros Heq. apply ring_edge_inj in Heq; lia.
  - intros key Hkey. apply lookup_insert_is_Some in Hkey as [<-|[_ Hkey]].
    + exists (Z.of_nat k). split; [lia|done].
    + destruct (Honly key Hkey) as (i & Hi & ->). exists i. split; [lia|done].
Qed.

Lemma ring_prefix_loop (k : nat) :
  Z.of_nat k ≤ N →
  ∃ bqm, for_each ring_step (seqZ 0 (Z.of_nat k)) empty_bqm = Return bqm
         ∧ ring_prefix k bqm.
Proof using ring_size.
  induction k as [|k IH]; intros Hk.
  - exists empty_bqm. split; [done|apply ring_prefix_empty].
  - destruct IH as (bqm & Hrun & Hinv); [lia|].
    destruct (ring_prefix_step k bqm) as (bqm' & Hstep & Hinv'); [lia|done|].
    exists bqm'. split; [|done].
    rewrite seqZ_S, for_each_app, Hrun. simpl.
    rewrite Z.add_0_l, Hstep. done.
Qed.

End Ring.

(** C10 (as amended, rings of three or more spins): [create_bqm N J] returns
    a model whose variables are [0 .. N-1], with exactly [N] couplings, one
    on every cyclic edge [(i, (i+1) mod N)] and none elsewhere, each of
    strength exactly [J]. *)
Theorem create_bqm_ring (N : Z) (J : Q) :
  3 ≤ N →
  ∃ bqm, create_bqm N J = Return bqm
         ∧ variables bqm = seqZ 0 N
         ∧ num_variables bqm = Z.to_nat N
         ∧ num_interactions bqm = Z.to_nat N
         ∧ (∀ i, 0 ≤ i < N → get_quadratic bqm i ((i + 1) mod N) = Some J)
         ∧ (∀ u v, is_Some (get_quadratic bqm u v) →
                   ∃ i, 0 ≤ i < N ∧ edge_key u v = edge_key i ((i + 1) mod N)).
Proof.
  intros HN.
  destruct (ring_prefix_loop N J HN (Z.to_nat N)) as (bqm & Hrun & Hinv); [lia|].
  rewrite Z2Nat.id in Hrun by lia.
  destruct Hinv as [Hvars Hsize Hbias Honly].
  assert (Hvars' : variables bqm = seqZ 0 N).
  { rewrite Hvars. unfold ring_variables.
    destruct (Z.to_nat N) eqn:E; [lia|]. rewrite <- E, Z2Nat.id by lia.
    by rewrite Z.min_r by lia. }
  exists bqm. split_and!.
  - exact Hrun.
  - exact Hvars'.
  - unfold num_variables. by rewrite Hvars', length_seqZ.
  - exact Hsize.
  - intros i Hi. apply Hbias. lia.
  - intros u v Huv. destruct (Honly _ Huv) as (i & Hi & Heq).
    exists i. split; [lia|exact Heq].
Qed.

Lemma create_bqm_ring_witness :
  ∃ bqm, create_bqm 4 (-1) = Return bqm
         ∧ variables bqm = seqZ 0 4
         ∧ num_variables bqm = Z.to_nat 4
         ∧ num_interactions bqm = Z.to_nat 4
         ∧ (∀ i, 0 ≤ i < 4 → get_quadratic bqm i ((i + 1) mod 4) = Some (-1)%Q)
         ∧ (∀ u v, is_Some (get_quadratic bqm u v) →
                   ∃ i, 0 ≤ i < 4 ∧ edge_key u v = edge_key i ((i + 1) mod 4)).
Proof. apply (create_bqm_ring 4 (-1)). lia. Defined.

(** The scenario of the specification: four spins, strength [-1]. *)
Example create_bqm_4 :
  create_bqm 4 (-1) =
  Return {| variables := [0; 1; 2; 3];
            quadratic := <[(0,3) := (-1)%Q]> (<[(2,3) := (-1)%Q]>
                          (<[(1,2) := (-1)%Q]> (<[(0,1) := (-1)%Q]> ∅))) |}.
Proof. vm_compute. reflexivity. Qed.

(** C10 as stated fails at [N = 2]: the two turns of the loop address the
    same pair, so the model has one coupling, of strength [J + J]. *)
Lemma create_bqm_two_spins :
  ∃ bqm, create_bqm 2 (-1) = Return bqm
         ∧ num_variables bqm = 2%nat
         ∧ num_interactions bqm = 1%nat
         ∧ get_quadratic bqm 0 1 = Some (-1 + -1)%Q
         ∧ get_quadratic bqm 1 0 = Some (-1 + -1)%Q.
Proof. eexists. split; [vm_compute; reflexivity|]. vm_compute. done. Qed.

(** A ring of one spin is a self-loop, which the model refuses. *)
Example create_bqm_one_spin : create_bqm 1 (-1) = Raise ValueError.
Proof. reflexivity. Qed.

(** ** Kink statistics *)

Lemma List_last_lookup (row : list Z) (d : Z) :
  row ≠ [] → row !! (length row - 1)%nat = Some (List.last row d).
Proof.
  induction row as [|x [|y row] IH]; intros Hne; [done|done|].
  specialize (IH ltac:(done)).
  change (List.last (x :: y :: row) d) with (List.last (y :: row) d).
  rewrite <- IH. simpl. by rewrite Nat.sub_0_r.
Qed.

Lemma cyclic_predecessor_0 (N : nat) :
  (0 < N)%nat → cyclic_predecessor N 0 = (N - 1)%nat.
Proof.
  intros HN. unfold cyclic_predecessor. rewrite Nat.add_0_l.
  apply Nat.mod_small. lia.
Qed.

Lemma cyclic_predecessor_S (N i : nat) :
  (S i < N)%nat → cyclic_predecessor N (S i) = i.
Proof.
  intros Hi. unfold cyclic_predecessor.
  replace (S i + N - 1)%nat with (i + 1 * N)%nat by lia.
  rewrite Nat.Div0.mod_add. apply Nat.mod_small. lia.
Qed.

(** The code's difference, the row extended on the left by its last entry,
    is the cyclic first difference of the claim. *)
Lemma np_diff_cyclic (row : list Z) :
  np_diff (List.last row 0 :: row) = cyclic_first_difference row.
Proof.
  apply list_eq. intros i. unfold np_diff, cyclic_first_difference.
  rewrite lookup_zip_with, list_lookup_imap. cbn [tail].
  destruct (row !! i) as [x|] eqn:Hx; cbn.
  - assert (Hi : (i < length row)%nat) by (by eapply lookup_lt_Some).
    destruct i as [|i].
    + change ((List.last row 0 :: row) !! 0%nat) with (Some (List.last row 0)).
      rewrite cyclic_predecessor_0 by lia.
      erewrite (nth_lookup_Some row (length row - 1)); [done|].
      apply List_last_lookup. by intros ->.
    + change ((List.last row 0 :: row) !! S i) with (row !! i).
      rewrite cyclic_predecessor_S by lia.
      destruct (lookup_lt_is_Some_2 row i) as [y Hy]; [lia|].
      rewrite Hy. by erewrite nth_lookup_Some.
  - by destruct ((List.last row 0 :: row) !! i).
Qed.

Lemma np_diff_prepend_cyclic (a : list (list Z)) :
  np_diff_prepend ((fun row => List.last row 0) <$> a) a
  = cyclic_first_difference <$> a.
Proof.
  unfold np_diff_prepend. induction a as [|row a IH]; [done|].
  rewrite !fmap_cons. cbn [zip_with]. by rewrite np_diff_cyclic, IH.
Qed.

Lemma Qltb_lt (x y : Q) : Qltb x y = true ↔ (x < y)%Q.
Proof.
  unfold Qltb. rewrite negb_true_iff, <- not_true_iff_false, Qle_bool_iff.
  split; [apply Qnot_le_lt | apply Qlt_not_le].
Qed.

Lemma sumQ_scaled (w : Q) (v : list Z) :
  (sumQ ((fun c => inject_Z c / w) <$> v) == inject_Z (sumZ v) / w)%Q.
Proof.
  induction v as [|c v IH].
  - cbn. unfold Qdiv. by rewrite Qmult_0_l.
  - change (sumQ ((fun c => inject_Z c / w) <$> c :: v))%Q
      with (inject_Z c / w + sumQ ((fun c => inject_Z c / w) <$> v))%Q.
    change (sumZ (c :: v)) with (c + sumZ v).
    rewrite IH, inject_Z_plus. unfold Qdiv. ring.
Qed.

(** Mean of the counts over the width is the average of count over width. *)
Lemma mean_over_width (w : Q) (v : list Z) :
  (inject_Z (sumZ v) / inject_Z (Z.of_nat (length v)) / w
   == average ((fun c => inject_Z c / w) <$> v))%Q.
Proof.
  unfold average. rewrite sumQ_scaled, length_fmap.
  unfold Qdiv. ring.
Qed.

Lemma sumZ_zero (v : list Z) : Forall (fun c => c = 0) v → sumZ v = 0.
Proof.
  induction 1 as [|c v -> _ IH]; [done|].
  change (sumZ (0 :: v)) with (0 + sumZ v). by rewrite IH.
Qed.

Lemma elem_of_cyclic_first_difference (row : list Z) (d : Z) :
  d ∈ cyclic_first_difference row →
  ∃ i, (i < length row)%nat
       ∧ d = nth i row 0 - nth (cyclic_predecessor (length row) i) row 0.
Proof.
  intros [i Hi]%list_elem_of_lookup. unfold cyclic_first_difference in Hi.
  rewrite list_lookup_imap in Hi.
  destruct (row !! i) as [x|] eqn:Hx; [|done]. cbn in Hi.
  exists i. split; [by eapply lookup_lt_Some|].
  erewrite (nth_lookup_Some row i) by done. congruence.
Qed.

Lemma filter_none {A} (P : A → Prop) `{!∀ x, Decision (P x)} (l : list A) :
  Forall (fun x => ¬ P x) l → filter P l = [].
Proof.
  induction 1 as [|x l Hx _ IH]; [done|]. by rewrite filter_cons_False.
Qed.

Lemma count_nonzero_constant (row : list Z) :
  constant row → count_nonzero (cyclic_first_difference row) = 0.
Proof.
  intros [s Hs]. unfold count_nonzero.
  replace (filter (fun d => d ≠ 0) (cyclic_first_difference row)) with (@nil Z);
    [done|].
  symmetry. apply filter_none, Forall_forall.
  intros d (i & Hi & ->)%elem_of_cyclic_first_difference Hd. apply Hd.
  assert (Hall : ∀ j, (j < length row)%nat → nth j row 0 = s).
  { intros j Hj. rewrite Hs. apply nth_lookup_Some.
    rewrite lookup_replicate. done. }
  rewrite (Hall i Hi), Hall; [lia|].
  unfold cyclic_predecessor. apply Nat.mod_upper_bound. lia.
Qed.

Lemma kinks_of_row_fmap (J : Q) (a : list (list Z)) :
  (if Qltb J 0 then count_nonzero <$> (cyclic_first_difference <$> a)
   else count_zero <$> (cyclic_first_difference <$> a))
  = kinks_of_row J <$> a.
Proof.
  unfold kinks_of_row. rewrite <- !list_fmap_compose.
  destruct (Qltb J 0); by apply list_fmap_ext.
Qed.

Lemma np_mean_nonempty (v : list Z) :
  v ≠ [] →
  np_mean v = Some (inject_Z (sumZ v) / inject_Z (Z.of_nat (length v)))%Q.
Proof. by destruct v. Qed.

Lemma zero_density (v : list Z) (w : Q) :
  Forall (fun c => c = 0) v →
  (inject_Z (sumZ v) / inject_Z (Z.of_nat (length v)) / w == 0)%Q.
Proof. intros Hv. rewrite sumZ_zero by done. unfold Qdiv. ring. Qed.

Lemma count_nonzero_entries (v : list Z) : count_nonzero v = nonzero_entries v.
Proof.
  unfold count_nonzero. induction v as [|d v IH]; [done|].
  cbn [nonzero_entries]. rewrite <- IH. destruct (Z.eqb_spec d 0) as [->|Hd].
  - by rewrite filter_cons_False by (intros H; by apply H).
  - rewrite filter_cons_True by done. cbn [length]. lia.
Qed.

Lemma count_zero_entries (v : list Z) : count_zero v = zero_entries v.
Proof.
  unfold count_zero. induction v as [|d v IH]; [done|].
  cbn [zero_entries]. rewrite <- IH. destruct (Z.eqb_spec d 0) as [->|Hd].
  - rewrite filter_cons_True by done. cbn [length]. lia.
  - by rewrite filter_cons_False by done.
Qed.

Lemma alternating_cons (x y : Z) (row : list Z) :
  alternating (x :: y :: row) → is_spin x ∧ y = - x ∧ alternating (y :: row).
Proof.
  intros [Hspin Halt]. inversion Hspin as [|? ? Hx Hrest]; subst.
  split_and!; [done| |split; [done|]].
  - apply (Halt 0%nat). cbn. lia.
  - intros i Hi. apply (Halt (S i)). cbn in *. lia.
Qed.

(** Along an alternating line no two neighbours are equal, and the last
    spin is the first one or its opposite with the parity of the length. *)
Lemma alternating_line (x : Z) (row : list Z) :
  alternating (x :: row) →
  zero_entries (np_diff (x :: row)) = 0
  ∧ List.last (x :: row) 0 = (if Nat.even (length row) then x else - x).
Proof.
  revert x. induction row as [|y row IH]; intros x Halt.
  { done. }
  apply alternating_cons in Halt as (Hx & -> & Halt).
  destruct (IH _ Halt) as [Hzero Hlast].
  split.
  - change (np_diff (x :: - x :: row)) with ((- x - x) :: np_diff (- x :: row)).
    cbn [zero_entries]. rewrite Hzero.
    by destruct Hx as [-> | ->].
  - change (List.last (x :: - x :: row) 0) with (List.last (- x :: row) 0).
    rewrite Hlast. cbn [length]. rewrite Nat.even_succ, <- Nat.negb_even.
    destruct (Nat.even (length row)); cbn [negb]; lia.
Qed.

(** On the ring the first spin of an alternating row meets the last: they
    differ when the length is even and are equal when it is odd. *)
Lemma zero_entries_alternating (row : list Z) :
  alternating row → row ≠ [] →
  zero_entries (cyclic_first_difference row)
  = (if Nat.even (length row) then 0 else 1).
Proof.
  intros Halt Hne. rewrite <- np_diff_cyclic.
  destruct row as [|x row]; [done|].
  destruct (alternating_line x row Halt) as [Hzero Hlast].
  change (np_diff (List.last (x :: row) 0 :: x :: row))
    with ((x - List.last (x :: row) 0) :: np_diff (x :: row)).
  cbn [zero_entries]. rewrite Hzero, Hlast. cbn [length].
  rewrite Nat.even_succ, <- Nat.negb_even.
  destruct Halt as [Hspin _]. inversion Hspin as [|? ? Hx _]; subst.
  destruct (Nat.even (length row)); cbn [negb];
    destruct Hx as [-> | ->]; done.
Qed.

Lemma sumZ_ones (v : list Z) : Forall (fun c => c = 1) v → sumZ v = Z.of_nat (length v).
Proof.
  induction 1 as [|c v -> _ IH]; [done|].
  change (sumZ (1 :: v)) with (1 + sumZ v). rewrite IH. cbn [length]. lia.
Qed.

Lemma unit_density (v : list Z) (w : Q) :
  v ≠ [] → ¬ (w == 0)%Q → Forall (fun c => c = 1) v →
  (inject_Z (sumZ v) / inject_Z (Z.of_nat (length v)) / w == 1 / w)%Q.
Proof.
  intros Hne Hw Hv. rewrite sumZ_ones by done. field. split; [done|].
  change 0%Q with (inject_Z 0). rewrite inject_Z_injective.
  destruct v; [done|]. cbn [length]. lia.
Qed.

(** C1 (as amended): on a sample set over a ring of [N] spins,
    [kink_stats] returns, per row, the number of nonzero entries of the
    row's cyclic first difference when [J < 0] and the number of zero
    entries when [J >= 0], and the mean kink density is the average over
    the rows of count over [N].  It is zero for constant rows when
    [J < 0]; for alternating rows when [J >= 0] it is zero on a ring of
    even length and [1 / N] on a ring of odd length, where the first and
    the last spin are neighbours and equal. *)
Theorem kink_stats_spec (sampleset : SampleArray) (J : Q) :
  well_shaped sampleset →
  (0 < shape1 sampleset)%nat →
  rows sampleset ≠ [] →
  ∃ counts density,
    kink_stats sampleset J = Return (counts, Some density)
    ∧ ((J < 0)%Q →
       counts = (fun row => nonzero_entries (cyclic_first_difference row))
                  <$> rows sampleset)
    ∧ ((0 <= J)%Q →
       counts = (fun row => zero_entries (cyclic_first_difference row))
                  <$> rows sampleset)
    ∧ (density ==
       average ((fun c => inject_Z c / inject_Z (Z.of_nat (shape1 sampleset)))
                  <$> counts))%Q
    ∧ ((J < 0)%Q → Forall constant (rows sampleset) → (density == 0)%Q)
    ∧ ((0 <= J)%Q → Forall alternating (rows sampleset) →
       (density == if Nat.even (shape1 sampleset) then 0
                   else 1 / inject_Z (Z.of_nat (shape1 sampleset)))%Q).
Proof.
  intros Hshape Hwidth Hrows.
  exists (kinks_of_row J <$> rows sampleset).
  exists (inject_Z (sumZ (kinks_of_row J <$> rows sampleset))
          / inject_Z (Z.of_nat (length (kinks_of_row J <$> rows sampleset)))
          / inject_Z (Z.of_nat (shape1 sampleset)))%Q.
  assert (Hne : kinks_of_row J <$> rows sampleset ≠ []).
  { intros Hnil. by apply fmap_nil_inv in Hnil. }
  assert (Hneg : (J < 0)%Q → Qltb J 0 = true) by apply Qltb_lt.
  assert (Hpos : (0 <= J)%Q → Qltb J 0 = false).
  { intros HJ. apply not_true_iff_false. intros E%Qltb_lt.
    by apply Qlt_not_le in E. }
  split_and!.
  - unfold kink_stats, last_column.
    destruct (shape1 sampleset) as [|n] eqn:Hn; [lia|]. cbn [mbind result_bind].
    rewrite np_diff_prepend_cyclic.
    pose proof (kinks_of_row_fmap J (rows sampleset)) as Hk.
    destruct (Qltb J 0); rewrite Hk, np_mean_nonempty by done; done.
  - intros HJ. apply list_fmap_ext. intros _ row _.
    unfold kinks_of_row. rewrite (Hneg HJ). apply count_nonzero_entries.
  - intros HJ. apply list_fmap_ext. intros _ row _.
    unfold kinks_of_row. rewrite (Hpos HJ). apply count_zero_entries.
  - apply mean_over_width.
  - intros HJ Hconst. apply zero_density, Forall_fmap.
    eapply Forall_impl; [exact Hconst|]. intros row Hrow. cbn.
    unfold kinks_of_row. rewrite (Hneg HJ). by apply count_nonzero_constant.
  - intros HJ Halt.
    assert (Hcounts : Forall (fun row =>
              kinks_of_row J row
              = if Nat.even (shape1 sampleset) then 0 else 1) (rows sampleset)).
    { unfold well_shaped in Hshape.
      rewrite Forall_forall in Hshape, Halt. apply Forall_forall. intros row Hrow.
      specialize (Hshape row Hrow). specialize (Halt row Hrow). cbn in Hshape.
      unfold kinks_of_row. rewrite (Hpos HJ), count_zero_entries.
      rewrite zero_entries_alternating, Hshape; [done|done|].
      intros ->. cbn in Hshape. lia. }
    destruct (Nat.even (shape1 sampleset)).
    + by apply zero_density, Forall_fmap.
    + apply unit_density; [done| |by apply Forall_fmap].
      change 0%Q with (inject_Z 0). rewrite inject_Z_injective. lia.
Qed.

Lemma kink_stats_spec_witness :
  (∃ density,
     kink_stats two_samples 1 = Return ([0; 2], Some density)
     ∧ (density == 1 # 4)%Q)
  ∧ (∃ density,
       kink_stats two_samples (-1) = Return ([4; 2], Some density)
       ∧ (density == 3 # 4)%Q)
  ∧ (∃ counts density,
       kink_stats constant_samples (-1) = Return (counts, Some density)
       ∧ (density == 0)%Q)
  ∧ (∃ counts density,
       kink_stats alternating_samples 1 = Return (counts, Some density)
       ∧ (density == 0)%Q)
  ∧ (∃ counts density,
       kink_stats odd_ring_samples 1 = Return (counts, Some density)
       ∧ (density == 1 # 3)%Q).
Proof.
  split_and!.
  - destruct (kink_stats_spec two_samples 1)
      as (counts & density & Hrun & _ & Hpos & Havg & _);
      [repeat constructor|simpl; lia|discriminate|].
    rewrite (Hpos ltac:(discriminate)) in Hrun, Havg.
    exists density. split; [exact Hrun|]. rewrite Havg. reflexivity.
  - destruct (kink_stats_spec two_samples (-1))
      as (counts & density & Hrun & Hneg & _ & Havg & _);
      [repeat constructor|simpl; lia|discriminate|].
    rewrite (Hneg ltac:(reflexivity)) in Hrun, Havg.
    exists density. split; [exact Hrun|]. rewrite Havg. reflexivity.
  - destruct (kink_stats_spec constant_samples (-1))
      as (counts & density & Hrun & _ & _ & _ & Hconst & _);
      [repeat constructor|simpl; lia|discriminate|].
    exists counts, density. split; [exact Hrun|]. apply Hconst; [reflexivity|].
    repeat constructor; [by exists 1|by exists (-1)].
  - destruct (kink_stats_spec alternating_samples 1)
      as (counts & density & Hrun & _ & _ & _ & _ & Halt);
      [repeat constructor|simpl; lia|discriminate|].
    exists counts, density. split; [exact Hrun|].
    apply (Halt ltac:(discriminate)).
    repeat constructor; try (by left); try (by right);
      intros [|[|[|[|i]]]] Hi; cbn in *; done || lia.
  - destruct (kink_stats_spec odd_ring_samples 1)
      as (counts & density & Hrun & _ & _ & _ & _ & Halt);
      [repeat constructor|simpl; lia|discriminate|].
    exists counts, density. split; [exact Hrun|].
    apply (Halt ltac:(discriminate)).
    repeat constructor; try (by left); try (by right);
      intros [|[|[|i]]] Hi; cbn in *; done || lia.
Defined.

(** The code evaluated on small rings. *)
Example kink_stats_antiferromagnetic :
  kink_stats {| shape1 := 4; rows := [[1; -1; 1; -1]; [-1; 1; -1; 1]] |} 1
  = Return ([0; 0], Some (0 # 8)).
Proof. reflexivity. Qed.

Example kink_stats_ferromagnetic :
  kink_stats {| shape1 := 4; rows := [[1; 1; 1; 1]; [-1; -1; -1; -1]] |} (-1)
  = Return ([0; 0], Some (0 # 8)).
Proof. reflexivity. Qed.

Example alternating_4 : alternating [1; -1; 1; -1].
Proof.
  split; [repeat constructor; (by left) || (by right)|].
  intros [|[|[|[|i]]]] Hi; cbn in *; done || lia.
Qed.

(** C1 as stated fails on a ring of odd length: the first and the last
    spin of an alternating row are neighbours and equal, so that the row
    has one kink for [J >= 0] and the density is not zero. *)
Lemma kink_stats_alternating_odd_ring :
  alternating [1; -1; 1]
  ∧ kink_stats {| shape1 := 3; rows := [[1; -1; 1]] |} 1 = Return ([1], Some (1 # 3))
  ∧ ¬ (1 # 3 == 0)%Q.
Proof.
  split_and!.
  - split; [repeat constructor; (by left) || (by right)|].
    intros [|[|[|i]]] Hi; cbn in *; done || lia.
  - reflexivity.
  - discriminate.
Qed.

(** ** Start-up *)

(** C9 (what the code does): whatever the cloud client answers and whether
    or not the classical sampler is configured, the initial job status is
    ["READY"], the client is truthy, and [alert_no_solver] never opens the
    modal. *)
Theorem startup_never_reports_no_solver
  (from_config : result ()) (get_solvers : result (list string))
  (USE_CLASSICAL : bool) (triggered_id : option string) :
  let s := startup from_config get_solvers USE_CLASSICAL in
  init_job_status s = "READY"
  ∧ client_truthy (client s) = true
  ∧ alert_no_solver triggered_id (client s) = false.
Proof.
  assert (Htruthy : client_truthy
                      (client (startup from_config get_solvers USE_CLASSICAL)) = true).
  { unfold startup.
    destruct from_config as [e|[]]; cbn; [done|].
    destruct get_solvers as [e|names]; cbn; [done|].
    by case_bool_decide. }
  cbn zeta. split_and!.
  - unfold startup. by repeat case_match.
  - done.
  - unfold alert_no_solver. rewrite Htruthy. apply andb_false_r.
Qed.

(** No client can be configured and no classical sampler is set up: the
    registry is empty, yet the status is ["READY"] and a press on the
    submit button does not open the modal. *)
Example startup_without_any_sampler :
  let s := startup (Raise (OtherException "ConfigFileError")) (Return []) false in
  registry s = ∅
  ∧ client s = DummyClient
  ∧ init_job_status s = "READY"
  ∧ alert_no_solver (Some "btn_simulate") (client s) = false.
Proof. done. Qed.

(** The client is configured but no QPU matches the query. *)
Example startup_without_matching_qpu :
  let s := startup (Return ()) (Return []) false in
  registry s = ∅
  ∧ init_job_status s = "READY"
  ∧ alert_no_solver (Some "btn_simulate") (client s) = false.
Proof. done. Qed.

(** ** The [simulate] callback: a submit request *)

(** C3 (as amended): on a press of the submit button, from any state, a
    QPU whose cache holds the ring size goes to SUBMITTED with the clock
    reading as timestamp; the classical sampler goes to SUBMITTED with the
    fixed marker ["SA"]; otherwise the state is EMBEDDING, the signal is
    ["needed"], the timestamp is not updated and the clock is not read. *)
Theorem simulate_submit_request (w : World) (client : Client)
  (job_id job_submit_state job_submit_time : string)
  (cached_embedding_lengths : list Z) (spins : Z) (qpu_name : string)
  (embeddings_found : FoundData) :
  let r := simulate w client (Some "btn_simulate") job_id job_submit_state
             job_submit_time cached_embedding_lengths spins qpu_name
             embeddings_found in
  (qpu_name ≠ classical → spins ∈ cached_embedding_lengths →
     outcome r = Return (submitted_with (clock w)) ∧ calls r = [CallNow])
  ∧ (qpu_name = classical →
     outcome r = Return (submitted_with "SA") ∧ calls r = [CallNow])
  ∧ (qpu_name ≠ classical → spins ∉ cached_embedding_lengths →
     outcome r = Return embedding_needed ∧ calls r = []).
Proof.
  cbn zeta. unfold simulate. cbn [triggered_is]. rewrite String.eqb_refl.
  split_and!.
  - intros Hq%String.eqb_neq Hin. fold classical. rewrite Hq.
    by rewrite bool_decide_eq_true_2.
  - intros ->. unfold classical. rewrite String.eqb_refl, orb_true_r. done.
  - intros Hq%String.eqb_neq Hin. fold classical. rewrite Hq.
    by rewrite bool_decide_eq_false_2.
Qed.

Lemma simulate_submit_request_witness :
  outcome (simulate (world_at tuesday_1338 "" PENDING) QpuClient
             (Some "btn_simulate") "" "READY" "" [512; 1024] 512
             "Advantage_system4.3" (FoundText ""))
  = Return (submitted_with tuesday_1338).
Proof.
  apply (simulate_submit_request (world_at tuesday_1338 "" PENDING) QpuClient
           "" "READY" "" [512; 1024] 512 "Advantage_system4.3" (FoundText "")).
  - discriminate.
  - set_solver.
Defined.

(** C3 as stated fails for the classical sampler: the recorded timestamp is
    the marker ["SA"], the same at two different moments, not a reading of
    the clock. *)
Lemma simulate_submit_classical_not_fresh :
  outcome (simulate (world_at tuesday_1338 "" PENDING) DummyClient
             (Some "btn_simulate") "" "READY" "" [] 512 classical (FoundText ""))
  = Return (submitted_with "SA")
  ∧ outcome (simulate (world_at tuesday_1339 "" PENDING) DummyClient
               (Some "btn_simulate") "" "COMPLETED" "SA" [] 512 classical
               (FoundText ""))
    = Return (submitted_with "SA")
  ∧ submitted_with "SA" ≠ submitted_with tuesday_1338
  ∧ submitted_with "SA" ≠ submitted_with tuesday_1339.
Proof. done. Qed.

(** A tick on a page in EMBEDDING whose signal is not ["needed"]: the
    embedding was found on the tick before. *)
Lemma tick_embedding_found (w : World) (client : Client) (i : Inputs) (p : Page) :
  state p = "EMBEDDING" →
  is_needed (found p) = false →
  tick w client i p
  = MkIO [CallNow] (Return (running_page (PyFloat 200) "SUBMITTED" (clock w) (found p))).
Proof.
  intros Hst Hfound. unfold tick, fire, simulate. rewrite Hst, Hfound. done.
Qed.

(** A tick on a page in a terminal state makes no call and changes only
    the controls. *)
Lemma tick_terminal (w : World) (client : Client) (i : Inputs) (p : Page) :
  state p ∈ ["COMPLETED"; "CANCELLED"; "FAILED"] →
  tick w client i p
  = MkIO [] (Return (idle_page (state p) (submit_time p) (found p))).
Proof.
  intros Hst. destruct p as [b wd iv n st t f]. cbn [state submit_time found] in *.
  repeat (apply elem_of_cons in Hst as [->|Hst]); [done..|].
  by apply elem_of_nil in Hst.
Qed.

Lemma run_ticks_terminal (client : Client) (moments : list (World * Inputs))
  (p : Page) :
  state p ∈ ["COMPLETED"; "CANCELLED"; "FAILED"] →
  run_ticks client moments p
  = ([], match moments with
         | [] => p
         | _ :: _ => idle_page (state p) (submit_time p) (found p)
         end).
Proof.
  revert p. induction moments as [|[w i] rest IH]; intros p Hst; [done|].
  cbn [run_ticks]. rewrite tick_terminal by done. cbn [settle outcome calls].
  rewrite IH by done. by destruct rest.
Qed.

(** C4: a polling tick in EMBEDDING with the signal ["needed"] runs the
    search.  A non-empty embedding is published and the state stays
    EMBEDDING; the next tick, whatever the world then, goes to SUBMITTED
    with the clock reading as timestamp and searches no more.  An empty
    result or any exception gives FAILED with ["not found"]; from there no
    run of ticks makes any call, so the search is never retried, and the
    first such tick stops the timer. *)
Theorem tick_embedding_needed (w : World) (client : Client) (i : Inputs) (p : Page) :
  state p = "EMBEDDING" →
  found p = FoundText "needed" →
  let search := embedding_search w (spins_value i) (qpu_selection i) in
  (∀ emb, outcome search = Return emb → emb ≠ ∅ →
     let p1 := running_page (PyFloat 200) "EMBEDDING" (submit_time p)
                 (FoundEmbedding (spins_value i) emb) in
     tick w client i p = MkIO (calls search) (Return p1)
     ∧ ∀ w' i',
         tick w' client i' p1
         = MkIO [CallNow]
             (Return (running_page (PyFloat 200) "SUBMITTED" (clock w')
                        (FoundEmbedding (spins_value i) emb))))
  ∧ (outcome search = Return ∅ ∨ (∃ e, outcome search = Raise e) →
     let pF := running_page (PyFloat 200) "FAILED" (submit_time p)
                 (FoundText "not found") in
     tick w client i p = MkIO (calls search) (Return pF)
     ∧ ∀ moments, ∃ pend,
         run_ticks client moments pF = ([], pend)
         ∧ state pend = "FAILED"
         ∧ found pend = FoundText "not found"
         ∧ submit_time pend = submit_time p
         ∧ (moments ≠ [] → wd_disabled pend = true ∧ btn_disabled pend = false)).
Proof.
  intros Hst Hfound search.
  assert (Htick : tick w client i p =
    MkIO (calls search)
      (Return
         match outcome search with
         | Return emb =>
             if bool_decide (emb = ∅)
             then running_page (PyFloat 200) "FAILED" (submit_time p)
                    (FoundText "not found")
             else running_page (PyFloat 200) "EMBEDDING" (submit_time p)
                    (FoundEmbedding (spins_value i) emb)
         | Raise _ => running_page (PyFloat 200) "FAILED" (submit_time p)
                        (FoundText "not found")
         end)).
  { unfold tick, fire, simulate. rewrite Hst, Hfound.
    cbn [triggered_is String.eqb Ascii.eqb Bool.eqb is_needed].
    fold search. unfold io_bind at 3, try_except.
    destruct search as [cs [e|emb]]; cbn.
    - by rewrite !app_nil_r.
    - case_bool_decide; cbn; by rewrite !app_nil_r. }
  split.
  - intros emb Hemb Hne p1. split.
    + rewrite Htick, Hemb. by rewrite bool_decide_eq_false_2.
    + intros w' i'. by rewrite tick_embedding_found.
  - intros Hfail pF. split.
    + rewrite Htick. destruct Hfail as [Hf|[e Hf]]; rewrite Hf; [|done].
      by rewrite bool_decide_eq_true_2.
    + intros moments. eexists. split.
      { apply run_ticks_terminal. cbn. rewrite !elem_of_cons. auto. }
      destruct moments; by split_and!.
Qed.

Lemma tick_embedding_needed_witness :
  outcome (tick (world_at tuesday_1338 "" PENDING) QpuClient three_spins
             (running_page (PyFloat 500) "EMBEDDING" "" (FoundText "needed")))
  = Return (running_page (PyFloat 200) "EMBEDDING" "" (FoundEmbedding 3 triangle)).
Proof.
  pose proof (tick_embedding_needed (world_at tuesday_1338 "" PENDING) QpuClient
                three_spins
                (running_page (PyFloat 500) "EMBEDDING" "" (FoundText "needed"))
                eq_refl eq_refl) as [Hfound _].
  destruct (Hfound triangle) as [Htick _].
  - vm_compute. reflexivity.
  - intros Hempty. apply (f_equal (fun m : Embedding => m !! 0)) in Hempty.
    vm_compute in Hempty. discriminate.
  - rewrite Htick. reflexivity.
Defined.

(** ** The [simulate] callback: a polling tick while a job is under way *)

Lemma status_value_truthy (s : ProblemStatus) : falsy (Some (status_value s)) = false.
Proof. by destruct s. Qed.

(** What the status poll yields with a configured client. *)
Lemma get_job_status_outcome (w : World) (job_id job_submit_time : string) :
  get_job_status w QpuClient job_id job_submit_time
  = MkIO [CallGetProblemStatus job_id]
      match get_problem_status w job_id with
      | Raise ResourceNotFoundError => Return None
      | Raise e => Raise e
      | Return reply =>
          match label reply with
          | None => Raise AttributeError
          | Some l =>
              match split l "submitted: " !! 1%nat with
              | None => Raise IndexError
              | Some t =>
                  Return (if String.eqb t job_submit_time
                          then Some (status_value (status reply))
                          else None)
              end
          end
      end.
Proof.
  unfold get_job_status, try_except, io_bind, external. cbn.
  destruct (get_problem_status w job_id) as [e|reply]; cbn.
  - by destruct e.
  - destruct (label reply) as [l|]; cbn; [|done].
    destruct (split l "submitted: " !! 1%nat) as [t|]; cbn; [|done].
    by destruct (String.eqb t job_submit_time).
Qed.

(** C5: a polling tick in SUBMITTED, PENDING or IN_PROGRESS asks the status
    endpoint once.  When the lookup raises not-found, or the label's submit
    time differs from the stored timestamp, the tick ends normally in
    SUBMITTED with the 200 ms interval; when the label matches, the state is
    the reported status and the interval is 1000 ms.  In every case the
    submit control stays disabled, the timer enabled, and timestamp and
    embedding signal are left alone. *)
Theorem tick_polling (w : World) (i : Inputs) (p : Page) :
  state p ∈ ["SUBMITTED"; "PENDING"; "IN_PROGRESS"] →
  let poll := get_problem_status w (job_id i) in
  let waiting :=
    MkIO [CallGetProblemStatus (job_id i)]
      (Return (running_page (PyFloat 200) "SUBMITTED" (submit_time p) (found p))) in
  (poll = Raise ResourceNotFoundError → tick w QpuClient i p = waiting)
  ∧ (∀ reply l t,
       poll = Return reply → label reply = Some l →
       split l "submitted: " !! 1%nat = Some t → t ≠ submit_time p →
       tick w QpuClient i p = waiting)
  ∧ (∀ reply l,
       poll = Return reply → label reply = Some l →
       split l "submitted: " !! 1%nat = Some (submit_time p) →
       tick w QpuClient i p
       = MkIO [CallGetProblemStatus (job_id i)]
           (Return (running_page (PyInt 1000) (status_value (status reply))
                      (submit_time p) (found p)))).
Proof.
  intros Hst poll waiting.
  assert (Htick : tick w QpuClient i p =
    io_bind (get_job_status w QpuClient (job_id i) (submit_time p))
      (fun polled =>
         io_ret (if falsy polled
                 then running_page (PyFloat 200) "SUBMITTED" (submit_time p) (found p)
                 else running_page (PyInt 1000) (default "" polled)
                        (submit_time p) (found p)))).
  { destruct p as [b wd iv n st t f]. cbn [state submit_time found] in *.
    unfold tick, fire, simulate. cbn [triggered_is].
    repeat (apply elem_of_cons in Hst as [->|Hst]);
      [| | |by apply elem_of_nil in Hst];
      cbn -[get_job_status];
      unfold io_bind;
      (destruct (get_job_status _ _ _ _) as [cs [e|polled]];
       cbn; [done|]; destruct (falsy polled); cbn; by rewrite !app_nil_r). }
  rewrite Htick, get_job_status_outcome. fold poll. unfold io_bind, waiting.
  split_and!.
  - intros ->. done.
  - intros reply l t -> -> -> Hne%String.eqb_neq. rewrite Hne. done.
  - intros reply l -> -> ->. rewrite String.eqb_refl. cbn.
    pose proof (status_value_truthy (status reply)) as Htruthy.
    cbn [falsy] in Htruthy. by rewrite Htruthy.
Qed.

Lemma tick_polling_witness :
  tick (world_at tuesday_1339 tuesday_1338 PENDING) QpuClient job_two
    (running_page (PyFloat 200) "SUBMITTED" tuesday_1338 (FoundText ""))
  = MkIO [CallGetProblemStatus "2"]
      (Return (running_page (PyInt 1000) "PENDING" tuesday_1338 (FoundText ""))).
Proof.
  refine (proj2 (proj2 (tick_polling (world_at tuesday_1339 tuesday_1338 PENDING)
                          job_two
                          (running_page (PyFloat 200) "SUBMITTED" tuesday_1338
                             (FoundText "")) _))
            {| label := Some (kz_label tuesday_1338); status := PENDING |}
            (kz_label tuesday_1338) _ _ _).
  - cbn. rewrite !elem_of_cons. auto.
  - reflexivity.
  - reflexivity.
  - vm_compute. reflexivity.
Defined.

(** A stale job: the label carries another submit time than the page. *)
Example tick_polling_stale_job :
  tick (world_at tuesday_1339 tuesday_1338 COMPLETED) QpuClient job_two
    (running_page (PyInt 1000) "PENDING" tuesday_1339 (FoundText ""))
  = MkIO [CallGetProblemStatus "2"]
      (Return (running_page (PyFloat 200) "SUBMITTED" tuesday_1339 (FoundText ""))).
Proof. vm_compute. reflexivity. Qed.

(** With the placeholder client the status cannot be asked for at all. *)
Example tick_polling_dummy_client :
  tick (world_at tuesday_1339 "SA" COMPLETED) DummyClient job_two
    (running_page (PyFloat 500) "SUBMITTED" "SA" (FoundText ""))
  = MkIO [] (Raise AttributeError).
Proof. vm_compute. reflexivity. Qed.

(** ** The [simulate] callback: completion and the terminal states *)

Lemma fire_button (w : World) (client : Client) (i : Inputs) (p : Page) :
  ∃ p', outcome (fire w client (Some "btn_simulate") i p) = Return p'
        ∧ state p' ∈ ["SUBMITTED"; "EMBEDDING"]
        ∧ btn_disabled p' = true
        ∧ wd_disabled p' = false.
Proof.
  unfold fire, simulate. cbn [triggered_is]. rewrite String.eqb_refl.
  destruct (bool_decide _ || _); eexists; (split; [reflexivity|]);
    cbn; rewrite !elem_of_cons; auto.
Qed.

(** C6 (as amended): the tick in IN_PROGRESS that learns of COMPLETED sets
    the state to COMPLETED and leaves the submit control disabled and the
    timer running, at 1000 ms; it is the next tick, in COMPLETED, that
    enables the submit control and stops the timer.  A tick in COMPLETED,
    CANCELLED or FAILED makes no call and leaves state, timestamp and
    embedding signal as they are; a submit request from there starts
    again, in SUBMITTED or EMBEDDING. *)
Theorem polling_completes_then_idles :
  (∀ (w : World) (i : Inputs) (p : Page) (reply : StatusReply) (l : string),
     state p = "IN_PROGRESS" →
     get_problem_status w (job_id i) = Return reply →
     label reply = Some l →
     split l "submitted: " !! 1%nat = Some (submit_time p) →
     status reply = COMPLETED →
     let p1 := running_page (PyInt 1000) "COMPLETED" (submit_time p) (found p) in
     tick w QpuClient i p = MkIO [CallGetProblemStatus (job_id i)] (Return p1)
     ∧ btn_disabled p1 = true ∧ wd_disabled p1 = false
     ∧ ∀ w' client' i',
         tick w' client' i' p1
         = MkIO [] (Return (idle_page "COMPLETED" (submit_time p) (found p))))
  ∧ (∀ (w : World) (client : Client) (i : Inputs) (p : Page),
       state p ∈ ["COMPLETED"; "CANCELLED"; "FAILED"] →
       let p' := idle_page (state p) (submit_time p) (found p) in
       tick w client i p = MkIO [] (Return p')
       ∧ btn_disabled p' = false ∧ wd_disabled p' = true
       ∧ ∃ p'', outcome (fire w client (Some "btn_simulate") i p') = Return p''
                ∧ state p'' ∈ ["SUBMITTED"; "EMBEDDING"]
                ∧ btn_disabled p'' = true
                ∧ wd_disabled p'' = false).
Proof.
  split.
  - intros w i p reply l Hst Hpoll Hlabel Hsplit Hstatus p1.
    split_and!; [|done|done|].
    + destruct p as [b wd iv n st t f]. cbn [state submit_time found] in *.
      subst st. unfold tick, fire, simulate. cbn -[get_job_status].
      rewrite get_job_status_outcome, Hpoll, Hlabel, Hsplit, String.eqb_refl, Hstatus.
      done.
    + intros w' client' i'. apply (tick_terminal w' client' i' p1).
      cbn. rewrite !elem_of_cons. auto.
  - intros w client i p Hst p'. split_and!; [by apply tick_terminal|done|done|].
    apply fire_button.
Qed.

Lemma polling_completes_then_idles_witness :
  tick (world_at tuesday_1339 tuesday_1338 COMPLETED) QpuClient job_two
    (running_page (PyInt 1000) "IN_PROGRESS" tuesday_1338 (FoundText ""))
  = MkIO [CallGetProblemStatus "2"]
      (Return (running_page (PyInt 1000) "COMPLETED" tuesday_1338 (FoundText ""))).
Proof.
  refine (proj1 (proj1 polling_completes_then_idles
                   (world_at tuesday_1339 tuesday_1338 COMPLETED) job_two
                   (running_page (PyInt 1000) "IN_PROGRESS" tuesday_1338
                      (FoundText ""))
                   {| label := Some (kz_label tuesday_1338); status := COMPLETED |}
                   (kz_label tuesday_1338) _ _ _ _ _)).
  - reflexivity.
  - reflexivity.
  - reflexivity.
  - vm_compute. reflexivity.
  - reflexivity.
Defined.

(** C6 as stated fails on the tick that observes COMPLETED: its outputs
    keep the submit control disabled and the timer enabled. *)
Lemma tick_completed_keeps_controls :
  ∃ out,
    outcome (simulate (world_at tuesday_1339 tuesday_1338 COMPLETED) QpuClient
               (Some "wd_job") "2" "IN_PROGRESS" tuesday_1338 [512; 1024] 512
               "Advantage_system4.3" (FoundText ""))
    = Return out
    ∧ job_submit_state out = update "COMPLETED"
    ∧ btn_simulate_disabled out = true
    ∧ wd_job_disabled out = false.
Proof. eexists. split; [vm_compute; reflexivity|]. done. Qed.

(** ** The extrapolation fit *)

Lemma sumQ_replicate (k : nat) (a : Q) :
  (sumQ (replicate k a) == inject_Z (Z.of_nat k) * a)%Q.
Proof.
  induction k as [|k IH].
  - cbn. ring.
  - change (sumQ (replicate (S k) a)) with (a + sumQ (replicate k a))%Q.
    rewrite IH, Nat2Z.inj_succ. unfold Z.succ. rewrite inject_Z_plus. ring.
Qed.

Lemma zip_with_replicate_same {A B} (f : A → A → B) (k : nat) (a : A) :
  zip_with f (replicate k a) (replicate k a) = replicate k (f a a).
Proof. induction k as [|k IH]; [done|]. cbn. by rewrite IH. Qed.

(** The least-squares model on abscissae that are all equal: rank
    deficient, the line is the constant mean. *)
Lemma lstsq_line_degenerate (a : Q) (n : nat) (y : list Q) :
  length y = S n →
  lstsq_line (replicate (S n) a) y 1
  = Return [(sumQ y / inject_Z (Z.of_nat (S n)))%Q; 0%Q].
Proof.
  intros Hy. unfold lstsq_line.
  change (replicate (S n) a) with (a :: replicate n a) at 1.
  rewrite length_replicate, Hy, Nat.eqb_refl. cbn [negb].
  rewrite zip_with_replicate_same.
  assert (Hdet : Qeq_bool
                   (inject_Z (Z.of_nat (S n)) * sumQ (replicate (S n) (a * a))
                    - sumQ (replicate (S n) a) * sumQ (replicate (S n) a))%Q 0
                 = true).
  { apply Qeq_bool_iff. rewrite !sumQ_replicate. ring. }
  by rewrite Hdet.
Qed.

(** C7 (as amended): [fitted_function] checks nothing itself.  Over any
    least-squares routine it raises exactly when the routine raises, and it
    returns the closure over the routine's coefficients otherwise.  Over
    the least-squares model, observations that share one [x] value (fewer
    than two distinct) give no error but a callable: the constant curve at
    the mean of the [y] values. *)
Theorem fitted_function_unguarded :
  (∀ (fit : list Q → list Q → nat → result (list Q)) (xdata ydata : list Q),
     (∀ e, fitted_function fit xdata ydata = Raise e
           ↔ fit ((fun x => x * x)%Q <$> xdata) ydata 1%nat = Raise e)
     ∧ (∀ coeffs, fit ((fun x => x * x)%Q <$> xdata) ydata 1%nat = Return coeffs →
          ∃ y_func_x, fitted_function fit xdata ydata = Return y_func_x
                      ∧ ∀ x, y_func_x x = polyval (x * x)%Q coeffs))
  ∧ (∀ (x0 : Q) (n : nat) (ydata : list Q),
       length ydata = S n →
       ∃ y_func_x,
         fitted_function lstsq_line (replicate (S n) x0) ydata = Return y_func_x
         ∧ ∀ x, (y_func_x x == average ydata)%Q).
Proof.
  split.
  - intros fit xdata ydata. unfold fitted_function. split.
    + intros e. destruct (fit _ ydata 1%nat) as [e'|coeffs]; cbn.
      * split; intros [= ->]; done.
      * split; discriminate.
    + intros coeffs ->. cbn. by eexists.
  - intros x0 n ydata Hy. unfold fitted_function.
    rewrite fmap_replicate, lstsq_line_degenerate by done. cbn.
    eexists. split; [done|]. intros x. cbn.
    unfold average. rewrite Hy. ring.
Qed.

Lemma fitted_function_unguarded_witness :
  ∃ y_func_x,
    fitted_function lstsq_line (replicate 2 1%Q) [0%Q; 2%Q] = Return y_func_x
    ∧ ∀ x, (y_func_x x == average [0%Q; 2%Q])%Q.
Proof. apply (proj2 fitted_function_unguarded 1%Q 1%nat [0%Q; 2%Q]). reflexivity. Defined.

(** C7 as stated fails: two observations with the same [x] and different
    [y] get a callable, the constant 1, not an error. *)
Lemma fitted_function_identical_x :
  ∃ y_func_x,
    fitted_function lstsq_line [1%Q; 1%Q] [0%Q; 2%Q] = Return y_func_x
    ∧ (y_func_x 1 == 1)%Q
    ∧ (y_func_x 5 == 1)%Q
    ∧ ¬ ∃ e, fitted_function lstsq_line [1%Q; 1%Q] [0%Q; 2%Q] = Raise e.
Proof.
  eexists. split_and!; [reflexivity|reflexivity|reflexivity|].
  intros [e He]. discriminate.
Qed.

(** A single observation is fitted too, by the constant through it. *)
Example fitted_function_one_point :
  ∃ y_func_x,
    fitted_function lstsq_line [3%Q] [7%Q] = Return y_func_x
    ∧ (y_func_x 0 == 7)%Q.
Proof. eexists. split; reflexivity. Qed.

(** Full rank: the line through exactly quadratic data reproduces it. *)
Example fitted_function_quadratic :
  ∃ y_func_x,
    fitted_function lstsq_line [1%Q; 2%Q; 3%Q] [3%Q; 9%Q; 19%Q] = Return y_func_x
    ∧ (y_func_x 1 == 3)%Q ∧ (y_func_x 2 == 9)%Q ∧ (y_func_x 3 == 19)%Q.
Proof. eexists. split_and!; reflexivity. Qed.

(** ** Order on binary64 values *)

Ltac sf_cases :=
  repeat match goal with
  | f : spec_float |- _ => destruct f as [[]|[]| |[] ? ?]
  end;
  cbn in *; try done;
  repeat match goal with
  | |- context [Z.compare ?a ?b] =>
      destruct (Z.compare_spec a b); cbn in *; try done; try lia
  | H : context [Z.compare ?a ?b] |- _ =>
      destruct (Z.compare_spec a b); cbn in *; try done; try lia
  | |- context [Pos.compare_cont Eq ?a ?b] =>
      change (Pos.compare_cont Eq a b) with (Pos.compare a b);
      destruct (Pos.compare_spec a b); cbn in *; try done; try lia
  | H : context [Pos.compare_cont Eq ?a ?b] |- _ =>
      change (Pos.compare_cont Eq a b) with (Pos.compare a b) in H;
      destruct (Pos.compare_spec a b); cbn in *; try done; try lia
  end.

Lemma SFeqb_refl (a : spec_float) : SFeqb a a = negb (sf_is_nan a).
Proof. unfold SFeqb, SFcompare. sf_cases. Qed.

Lemma SFleb_refl (a : spec_float) : sf_is_nan a = false → SFleb a a = true.
Proof. unfold SFleb, SFcompare. sf_cases. Qed.

Lemma SFltb_leb (a b : spec_float) : SFltb a b = true → SFleb a b = true.
Proof. unfold SFltb, SFleb. by destruct (SFcompare a b) as [[]|]. Qed.

Lemma SFleb_total (a b : spec_float) :
  sf_is_nan a = false → sf_is_nan b = false →
  SFltb a b = false → SFleb b a = true.
Proof. unfold SFltb, SFleb, SFcompare. sf_cases. Qed.

Lemma SFleb_trans (a b c : spec_float) :
  SFleb a b = true → SFleb b c = true → SFleb a c = true.
Proof. unfold SFleb, SFcompare. sf_cases. Qed.

Lemma SFltb_leb_trans (a b c : spec_float) :
  SFltb a b = true → SFleb b c = true → SFltb a c = true.
Proof. unfold SFltb, SFleb, SFcompare. sf_cases. Qed.

Section FloatOrder.

Local Open Scope float_scope.

Lemma is_nan_spec (x : float) : is_nan x = sf_is_nan (Prim2SF x).
Proof.
  unfold is_nan. rewrite FloatAxioms.eqb_spec, SFeqb_refl. apply negb_involutive.
Qed.

Lemma leb_refl (x : float) : is_nan x = false → (x <=? x) = true.
Proof. rewrite is_nan_spec, FloatAxioms.leb_spec. apply SFleb_refl. Qed.

Lemma ltb_leb (x y : float) : (x <? y) = true → (x <=? y) = true.
Proof. rewrite FloatAxioms.ltb_spec, FloatAxioms.leb_spec. apply SFltb_leb. Qed.

Lemma leb_total (x y : float) :
  is_nan x = false → is_nan y = false → (x <? y) = false → (y <=? x) = true.
Proof. rewrite !is_nan_spec, FloatAxioms.ltb_spec, FloatAxioms.leb_spec. apply SFleb_total. Qed.

Lemma leb_trans (x y z : float) :
  (x <=? y) = true → (y <=? z) = true → (x <=? z) = true.
Proof. rewrite !FloatAxioms.leb_spec. apply SFleb_trans. Qed.

Lemma ltb_leb_trans (x y z : float) :
  (x <? y) = true → (y <=? z) = true → (x <? z) = true.
Proof. rewrite !FloatAxioms.ltb_spec, FloatAxioms.leb_spec. apply SFltb_leb_trans. Qed.

End FloatOrder.

(** ** The theoretical kink density *)

Section Idxmin.

Local Open Scope float_scope.

Lemma idxmin_from_spec (x : list float) (i : nat) (best : option (nat * float)) :
  best_ok best →
  match idxmin_from i best x with
  | None => best = None ∧ Forall (fun v => is_nan v = true) x
  | Some (k, m) =>
      is_nan m = false
      ∧ (∀ v, v ∈ x → is_nan v = false → (m <=? v) = true)
      ∧ (∀ bi bm, best = Some (bi, bm) → (m <=? bm) = true)
      ∧ (best = Some (k, m)
         ∨ ∃ j, k = (i + j)%nat
                ∧ x !! j = Some m
                ∧ (∀ bi bm, best = Some (bi, bm) → (m <? bm) = true)
                ∧ (∀ j' v, (j' < j)%nat → x !! j' = Some v →
                           is_nan v = false → (m <? v) = true))
  end.
Proof.
  revert i best. induction x as [|v x IH]; intros i best Hbest.
  - cbn. destruct best as [[k m]|]; [|done].
    split_and!; [by eapply Hbest|by intros v ?%elem_of_nil| |by left].
    intros bi bm [= <- <-]. apply leb_refl. by eapply Hbest.
  - cbn [idxmin_from]. destruct (is_nan v) eqn:Hv.
    + specialize (IH (S i) best Hbest).
      destruct (idxmin_from (S i) best x) as [[k m]|].
      * destruct IH as (Hm & Hmin & Hle & Hwhere). split_and!; [done| |done|].
        -- intros u [->|Hu]%elem_of_cons Hnan; [congruence|by apply Hmin].
        -- destruct Hwhere as [->|(j & -> & Hj & Hlt & Hfirst)]; [by left|right].
           exists (S j). split_and!; [lia|done|done|].
           intros [|j'] u Hj' Hu Hnan; cbn in Hu; [congruence|].
           eapply Hfirst; [|done..]. lia.
      * destruct IH as [-> Hall]. split; [done|by constructor].
    + destruct best as [[bi bm]|].
      * assert (Hbm : is_nan bm = false) by (by eapply Hbest).
        destruct (v <? bm) eqn:Hlt.
        -- assert (Hok : best_ok (Some (i, v))) by (by intros ? ? [= <- <-]).
           specialize (IH (S i) _ Hok).
           destruct (idxmin_from (S i) (Some (i, v)) x) as [[k m]|]; [|by destruct IH].
           destruct IH as (Hm & Hmin & Hle & Hwhere).
           assert (Hmv : (m <=? v) = true) by (by eapply Hle).
           split_and!; [done| | |].
           ++ intros u [->|Hu]%elem_of_cons Hnan; [done|by apply Hmin].
           ++ intros ? ? [= <- <-]. eapply leb_trans; [done|by apply ltb_leb].
           ++ right. destruct Hwhere as [[= <- <-]|(j & -> & Hj & Hstrict & Hfirst)].
              ** exists 0%nat. split_and!; [lia|done| |intros; lia].
                 by intros ? ? [= <- <-].
              ** assert (Hmv' : (m <? v) = true) by (by eapply Hstrict).
                 exists (S j). split_and!; [lia|done| |].
                 --- intros ? ? [= <- <-]. eapply ltb_leb_trans; [done|by apply ltb_leb].
                 --- intros [|j'] u Hj' Hu Hnan; cbn in Hu; [by injection Hu as <-|].
                     eapply Hfirst; [|done..]. lia.
        -- specialize (IH (S i) _ Hbest).
           destruct (idxmin_from (S i) (Some (bi, bm)) x) as [[k m]|]; [|by destruct IH].
           destruct IH as (Hm & Hmin & Hle & Hwhere).
           assert (Hmb : (m <=? bm) = true) by (by eapply Hle).
           assert (Hbv : (bm <=? v) = true) by (by apply leb_total).
           split_and!; [done| |done|].
           ++ intros u [->|Hu]%elem_of_cons Hnan; [by eapply leb_trans|by apply Hmin].
           ++ destruct Hwhere as [Heq|(j & -> & Hj & Hstrict & Hfirst)]; [by left|right].
              exists (S j). split_and!; [lia|done|done|].
              intros [|j'] u Hj' Hu Hnan; cbn in Hu.
              ** injection Hu as <-. eapply ltb_leb_trans; [by eapply Hstrict|done].
              ** eapply Hfirst; [|done..]. lia.
      * assert (Hok : best_ok (Some (i, v))) by (by intros ? ? [= <- <-]).
        specialize (IH (S i) _ Hok).
        destruct (idxmin_from (S i) (Some (i, v)) x) as [[k m]|]; [|by destruct IH].
        destruct IH as (Hm & Hmin & Hle & Hwhere).
        assert (Hmv : (m <=? v) = true) by (by eapply Hle).
        split_and!; [done| |done|].
        -- intros u [->|Hu]%elem_of_cons Hnan; [done|by apply Hmin].
        -- right. destruct Hwhere as [[= <- <-]|(j & -> & Hj & Hstrict & Hfirst)].
           ++ exists 0%nat. split_and!; [lia|done|done|intros; lia].
           ++ assert (Hmv' : (m <? v) = true) by (by eapply Hstrict).
              exists (S j). split_and!; [lia|done|done|].
              intros [|j'] u Hj' Hu Hnan; cbn in Hu; [by injection Hu as <-|].
              eapply Hfirst; [|done..]. lia.
Qed.

(** [idxmin] returns the place of the first least entry that is not NaN,
    and raises exactly when there is no such entry. *)
Lemma idxmin_spec (x : list float) :
  match idxmin x with
  | Raise e => e = ValueError ∧ Forall (fun v => is_nan v = true) x
  | Return k =>
      ∃ m, x !! k = Some m
           ∧ is_nan m = false
           ∧ (∀ v, v ∈ x → is_nan v = false → (m <=? v) = true)
           ∧ (∀ j v, (j < k)%nat → x !! j = Some v →
                     is_nan v = false → (m <? v) = true)
  end.
Proof.
  unfold idxmin.
  pose proof (idxmin_from_spec x 0 None ltac:(done)) as H.
  destruct (idxmin_from 0 None x) as [[k m]|].
  - destruct H as (Hm & Hmin & _ & [?|(j & -> & Hj & _ & Hfirst)]); [done|].
    exists m. by split_and!.
  - by destruct H.
Qed.

End Idxmin.

Section Schedule.

Local Open Scope float_scope.

Variable np_power : float → float → float.

Lemma critical_gap_series (J : float) (schedule : list ScheduleRow) :
  zip_with (fun a b => abs (a - b * abs J)) (A_GHz <$> schedule) (B_GHz <$> schedule)
  = critical_gap J <$> schedule.
Proof. induction schedule as [|row schedule IH]; [done|]. cbn. by rewrite IH. Qed.

Lemma at_index_column (column : ScheduleRow → float)
  (schedule : list ScheduleRow) (i : nat) (row : ScheduleRow) :
  schedule !! i = Some row → at_index (column <$> schedule) i = column row.
Proof.
  intros Hi. unfold at_index. apply nth_lookup_Some.
  by rewrite list_lookup_fmap, Hi.
Qed.

Lemma series_diff_lookup_S (x : list float) (k : nat) (prev cur : float) :
  x !! k = Some prev → x !! S k = Some cur →
  series_diff x !! S k = Some (cur - prev).
Proof.
  intros Hprev Hcur. destruct x as [|x0 rest]; [done|].
  cbn [series_diff]. change ((nan :: ?l) !! S k) with (l !! k).
  rewrite lookup_zip_with, Hprev. cbn.
  change ((x0 :: rest) !! S k) with (rest !! k) in Hcur. by rewrite Hcur.
Qed.

(** The code's [A_tag] and [B_tag] at a row are the discrete derivative of
    the claim. *)
Lemma derivative_at_index (column : ScheduleRow → float)
  (schedule : list ScheduleRow) (i : nat) (row : ScheduleRow) :
  schedule !! i = Some row →
  at_index (series_div (series_diff (column <$> schedule))
                       (series_diff (C_normalized <$> schedule))) i
  = discrete_derivative column schedule i.
Proof.
  intros Hi. unfold at_index, series_div. apply nth_lookup_Some.
  rewrite lookup_zip_with. destruct i as [|k].
  - destruct schedule as [|row0 rest]; [done|]. done.
  - destruct (lookup_lt_is_Some_2 schedule k) as [before Hk].
    { apply lookup_lt_Some in Hi. lia. }
    rewrite (series_diff_lookup_S (column <$> schedule) k
               (column before) (column row)),
            (series_diff_lookup_S (C_normalized <$> schedule) k
               (C_normalized before) (C_normalized row));
      rewrite ?list_lookup_fmap, ?Hk, ?Hi; try done.
    cbn [discrete_derivative]. by rewrite Hk, Hi.
Qed.

(** C2 (as amended): whenever some row of the schedule has a gap
    [|A - B |J||] that is not NaN, [theoretical_kink_density] returns.  The
    row [sc] it works at is the first one whose gap is least; the rate
    constant is [b = 1e9 π A(sc) / (B'(sc)/B(sc) - A'(sc)/A(sc))] with the
    derivatives the differences to the row before over those of the
    [C (normalized)] column, not of the normalized time; and the result
    holds, for every anneal time [t] in nanoseconds, the value
    [(1e-9 t)^(-1/2) / (2 π sqrt (2 b))]. *)
Theorem theoretical_kink_density_spec (annealing_times_ns : list float)
  (J : float) (schedule : list ScheduleRow) :
  (∃ row, row ∈ schedule ∧ is_nan (critical_gap J row) = false) →
  ∃ sc at_sc,
    schedule !! sc = Some at_sc
    ∧ is_nan (critical_gap J at_sc) = false
    ∧ (∀ row, row ∈ schedule → is_nan (critical_gap J row) = false →
              (critical_gap J at_sc <=? critical_gap J row) = true)
    ∧ (∀ j row, (j < sc)%nat → schedule !! j = Some row →
                is_nan (critical_gap J row) = false →
                (critical_gap J at_sc <? critical_gap J row) = true)
    ∧ theoretical_kink_density np_power annealing_times_ns J schedule
      = Return ((fun t => np_power (1e-9 * t) (-0.5)
                          / (2 * np_pi * sqrt (2 * rate_constant schedule sc at_sc)))
                  <$> annealing_times_ns).
Proof.
  intros (row0 & Hrow0 & Hgap0).
  unfold theoretical_kink_density. rewrite critical_gap_series.
  pose proof (idxmin_spec (critical_gap J <$> schedule)) as Hmin.
  destruct (idxmin (critical_gap J <$> schedule)) as [e|sc].
  - destruct Hmin as [_ Hall]. rewrite Forall_fmap, Forall_forall in Hall.
    specialize (Hall row0 Hrow0). unfold compose in Hall. congruence.
  - destruct Hmin as (m & Hsc & Hm & Hleast & Hfirst).
    rewrite list_lookup_fmap in Hsc.
    destruct (schedule !! sc) as [at_sc|] eqn:Hat; [|done].
    injection Hsc as <-.
    exists sc, at_sc. split_and!; [done|done| | |].
    + intros row Hrow Hnan. apply Hleast; [|done]. by apply list_elem_of_fmap_2.
    + intros j row Hj Hrow Hnan. apply (Hfirst j); [done| |done].
      by rewrite list_lookup_fmap, Hrow.
    + cbn [mbind result_bind]. unfold rate_constant, rate_denominator.
      by rewrite !(at_index_column _ _ _ _ Hat), !(derivative_at_index _ _ _ _ Hat).
Qed.

(** *** Degenerate schedules *)

Lemma is_nan_eq (x : float) : is_nan x = true → x = nan.
Proof.
  rewrite is_nan_spec. intros Hx. apply Prim2SF_inj.
  change (Prim2SF nan) with S754_nan. by destruct (Prim2SF x).
Qed.

Lemma div_nan_r (x : float) : x / nan = nan.
Proof.
  apply Prim2SF_inj. rewrite div_spec. change (Prim2SF nan) with S754_nan.
  unfold SF64div, SFdiv. by destruct (Prim2SF x).
Qed.

Lemma mul_nan_r (x : float) : x * nan = nan.
Proof.
  apply Prim2SF_inj. rewrite mul_spec. change (Prim2SF nan) with S754_nan.
  unfold SF64mul, SFmul. by destruct (Prim2SF x).
Qed.

(** With a NaN rate constant every returned value is NaN. *)
Lemma kink_density_of_nan (t : float) :
  np_power (1e-9 * t) (-0.5) / (2 * np_pi * sqrt (2 * nan)) = nan.
Proof.
  rewrite (mul_nan_r 2). change (sqrt nan) with nan.
  rewrite (mul_nan_r (2 * np_pi)). apply div_nan_r.
Qed.

Lemma rate_denominator_first_row (schedule : list ScheduleRow) (row : ScheduleRow) :
  rate_denominator schedule 0 row = nan.
Proof.
  unfold rate_denominator. cbn [discrete_derivative].
  apply Prim2SF_inj. rewrite sub_spec, !div_spec.
  change (Prim2SF nan) with S754_nan.
  unfold SF64sub, SFsub, SF64div, SFdiv.
  by destruct (Prim2SF (B_GHz row)), (Prim2SF (A_GHz row)).
Qed.

(** C8 (as amended): [theoretical_kink_density] raises, with [ValueError],
    exactly when no row of the schedule has a gap that is not NaN.  In
    every other case it returns one value per anneal time and signals
    nothing, whatever the denominator: when the denominator is NaN, as it
    is whenever the critical row is the first of the table, every returned
    value is NaN. *)
Theorem theoretical_kink_density_unguarded (annealing_times_ns : list float)
  (J : float) (schedule : list ScheduleRow) :
  ((∃ e, theoretical_kink_density np_power annealing_times_ns J schedule = Raise e)
   ↔ Forall (fun row => is_nan (critical_gap J row) = true) schedule)
  ∧ (∀ e, theoretical_kink_density np_power annealing_times_ns J schedule = Raise e →
          e = ValueError)
  ∧ (∀ sc at_sc,
       idxmin (critical_gap J <$> schedule) = Return sc →
       schedule !! sc = Some at_sc →
       (∃ values,
          theoretical_kink_density np_power annealing_times_ns J schedule
          = Return values
          ∧ length values = length annealing_times_ns)
       ∧ (is_nan (rate_denominator schedule sc at_sc) = true →
          theoretical_kink_density np_power annealing_times_ns J schedule
          = Return (replicate (length annealing_times_ns) nan))
       ∧ (sc = 0%nat → is_nan (rate_denominator schedule sc at_sc) = true)).
Proof.
  unfold theoretical_kink_density. rewrite critical_gap_series.
  pose proof (idxmin_spec (critical_gap J <$> schedule)) as Hmin.
  destruct (idxmin (critical_gap J <$> schedule)) as [e|sc0];
    cbn [mbind result_bind].
  - destruct Hmin as [-> Hall]. rewrite Forall_fmap in Hall.
    split_and!; [|by intros ? [= <-]|done].
    split; [done|by eexists].
  - destruct Hmin as (m & Hsc & Hm & _). split_and!.
    + split; [by intros [? ?]|]. intros Hall.
      rewrite list_lookup_fmap in Hsc.
      destruct (schedule !! sc0) as [row|] eqn:Hrow; [|done].
      injection Hsc as <-. rewrite Forall_forall in Hall.
      rewrite Hall in Hm; [done|]. by eapply list_elem_of_lookup_2.
    + done.
    + intros sc at_sc [= <-] Hat. split_and!.
      * eexists. split; [done|]. by rewrite length_fmap.
      * intros Hden%is_nan_eq. f_equal.
        rewrite !(at_index_column _ _ _ _ Hat), !(derivative_at_index _ _ _ _ Hat).
        fold (rate_denominator schedule sc0 at_sc). rewrite Hden, div_nan_r.
        clear. induction annealing_times_ns as [|t ts IH]; [done|].
        cbn [fmap list_fmap length replicate]. f_equal; [|exact IH].
        apply kink_density_of_nan.
      * intros ->. by rewrite rate_denominator_first_row.
Qed.

End Schedule.

Lemma theoretical_kink_density_spec_witness :
  ∃ sc at_sc,
    crossing_schedule !! sc = Some at_sc
    ∧ is_nan (critical_gap 1 at_sc) = false
    ∧ (∀ row, row ∈ crossing_schedule → is_nan (critical_gap 1 row) = false →
              (critical_gap 1 at_sc <=? critical_gap 1 row)%float = true)
    ∧ (∀ j row, (j < sc)%nat → crossing_schedule !! j = Some row →
                is_nan (critical_gap 1 row) = false →
                (critical_gap 1 at_sc <? critical_gap 1 row)%float = true)
    ∧ theoretical_kink_density pow_by_sqrt [5; 10]%float 1 crossing_schedule
      = Return ((fun t => pow_by_sqrt (1e-9 * t) (-0.5)
                          / (2 * np_pi
                             * sqrt (2 * rate_constant crossing_schedule sc at_sc)))%float
                  <$> [5; 10]%float).
Proof.
  apply (theoretical_kink_density_spec pow_by_sqrt [5; 10]%float 1 crossing_schedule).
  eexists. split; [apply list_elem_of_here|]. reflexivity.
Defined.

(** The same instance evaluated: the critical row is the second, the rate
    constant is finite, and so are the densities. *)
Example theoretical_kink_density_crossing :
  idxmin (critical_gap 1 <$> crossing_schedule) = Return 1%nat
  ∧ theoretical_kink_density pow_by_sqrt [5; 10]%float 1 crossing_schedule
    = Return [0.026561293562743494; 0.018781670795302515]%float.
Proof. split; vm_compute; reflexivity. Qed.

(** C2 as stated fails where the [C (normalized)] column is not the
    normalized time: on [skewed_table] the critical row is the second, the
    function returns the densities of the first list, and the derivatives
    over the normalized time give those of the second. *)
Lemma theoretical_kink_density_not_over_time :
  idxmin (critical_gap 1 <$> (coefficients <$> skewed_table)) = Return 1%nat
  ∧ theoretical_kink_density pow_by_sqrt [5; 10]%float 1
      (coefficients <$> skewed_table)
    = Return [0.03756334159060503; 0.026561293562743494]%float
  ∧ (fun t => pow_by_sqrt (1e-9 * t) (-0.5)
              / (2 * np_pi
                 * sqrt (2 * rate_constant_over_time skewed_table 1
                               (Build_ScheduleRow 4 2 0.25))))%float
      <$> [5; 10]%float
    = [0.026561293562743494; 0.018781670795302515]%float
  ∧ (0.03756334159060503 =? 0.026561293562743494)%float = false.
Proof. split_and!; vm_compute; reflexivity. Qed.

Lemma theoretical_kink_density_unguarded_witness :
  theoretical_kink_density pow_by_sqrt [5; 10]%float 1 constant_schedule
  = Return (replicate 2 nan).
Proof.
  destruct (proj2 (proj2 (theoretical_kink_density_unguarded pow_by_sqrt
                            [5; 10]%float 1 constant_schedule))
              0%nat (Build_ScheduleRow 1 1 0))
    as (_ & Hnan & Hfirst).
  - vm_compute. reflexivity.
  - reflexivity.
  - apply Hnan, Hfirst. reflexivity.
Defined.

(** C8 as stated fails: on constant [A] and [B] columns the function
    raises nothing and returns NaN for every anneal time; on a schedule
    whose denominator at the critical row is zero it returns zeros. *)
Lemma theoretical_kink_density_silent :
  theoretical_kink_density pow_by_sqrt [5; 10]%float 1 constant_schedule
  = Return [nan; nan]
  ∧ rate_denominator parallel_schedule 1 (Build_ScheduleRow 2 1 1) = 0%float
  ∧ theoretical_kink_density pow_by_sqrt [5; 10]%float 1 parallel_schedule
    = Return [0; 0]%float.
Proof. split_and!; vm_compute; reflexivity. Qed.

(** * Further properties *)

(** ** The label of a job and its status *)

(** A text without the separator is one piece. *)
Lemma split_aux_one_piece (sep acc t : string) :
  contains t sep = false →
  split_aux sep 0 acc t = [String.rev_app acc t].
Proof.
  revert acc. induction t as [|c t IH]; intros acc Ht; [done|].
  cbn [contains] in Ht. apply orb_false_elim in Ht as [Hhere Hrest].
  cbn [split_aux]. by rewrite Hhere, IH.
Qed.

Lemma split_job_label (t : string) :
  contains t "submitted: " = false →
  split (job_label t) "submitted: "
  = ["Examples - Kibble-Zurek Simulation, "; t].
Proof.
  intros Ht. unfold split, job_label.
  cbv -[split_aux String.prefix]. cbn.
  replace (String.prefix "" t) with true by (by destruct t).
  by rewrite split_aux_one_piece.
Qed.

(** ** What every firing of [simulate] keeps *)

Ltac simulate_cases w client trig st qpu found :=
  unfold simulate;
  destruct (triggered_is trig "btn_simulate") eqn:?;
  [ destruct (bool_decide _ || _) eqn:?
  | destruct (String.eqb st "EMBEDDING") eqn:?;
    [ destruct (is_needed found) eqn:?;
      [ unfold embedding_search, find_one_to_one_embedding, try_except,
          io_bind, external, raise, io_ret; cbn;
        destruct (qpus w !! qpu); cbn;
        [ destruct (find_subgraph w _ _ _); cbn; [|case_bool_decide; cbn] | ]
      | ]
    | destruct (elem_ofb st ["SUBMITTED"; "PENDING"; "IN_PROGRESS"]) eqn:?;
      [ destruct client;
        [ | | rewrite get_job_status_outcome;
              unfold io_bind; cbn;
              destruct (get_problem_status w _) as [[]|reply]; cbn;
              [..|destruct (label reply) as [l|]; cbn;
                  [destruct (split l "submitted: " !! 1%nat) as [lt|]; cbn;
                   [destruct (String.eqb lt _); cbn;
                    [destruct (status reply); cbn|]|]|]] ]
      | destruct (elem_ofb st ["COMPLETED"; "CANCELLED"; "FAILED"]) eqn:? ] ] ];
  cbn.

Lemma elem_ofb_elem (s : string) (l : list string) :
  elem_ofb s l = true ↔ s ∈ l.
Proof.
  unfold elem_ofb. rewrite existsb_exists. split.
  - intros (x & Hx%list_elem_of_In & ->%String.eqb_eq). done.
  - intros Hs. exists s. split; [by apply list_elem_of_In|apply String.eqb_refl].
Qed.

Lemma elem_ofb_not_elem (s : string) (l : list string) :
  elem_ofb s l = false ↔ s ∉ l.
Proof.
  rewrite <- elem_ofb_elem. by destruct (elem_ofb s l).
Qed.

(** X1: whenever [simulate] returns, the submit control is disabled exactly
    when the timer is enabled, and the timer's tick count is set back to
    zero. *)
Theorem simulate_controls_opposed (w : World) (client : Client)
  (triggered_id : option string)
  (job_id job_submit_state job_submit_time : string)
  (cached_embedding_lengths : list Z) (spins : Z) (qpu_name : string)
  (embeddings_found : FoundData) (out : SimulateReturn) :
  outcome (simulate w client triggered_id job_id job_submit_state job_submit_time
             cached_embedding_lengths spins qpu_name embeddings_found)
  = Return out →
  btn_simulate_disabled out = negb (wd_job_disabled out)
  ∧ wd_job_n_intervals out = 0.
Proof.
  simulate_cases w client triggered_id job_submit_state qpu_name embeddings_found;
    intros [= <-]; done.
Qed.

Lemma simulate_controls_opposed_witness :
  btn_simulate_disabled embedding_needed = negb (wd_job_disabled embedding_needed)
  ∧ wd_job_n_intervals embedding_needed = 0.
Proof.
  apply (simulate_controls_opposed (world_at tuesday_1338 "" PENDING) QpuClient
           (Some "btn_simulate") "" "READY" "" [512; 1024] 2048
           "Advantage_system4.3" (FoundText "")).
  vm_compute. reflexivity.
Defined.

(** X2: a firing that updates the timestamp also sets the state to
    SUBMITTED, and the timestamp is the clock reading or the marker
    ["SA"]; a firing that updates the embedding signal sets the state to
    EMBEDDING or FAILED, with ["needed"], a non-empty embedding for the
    requested ring size, or ["not found"]. *)
Theorem simulate_writes_together (w : World) (client : Client)
  (triggered_id : option string)
  (job current_state stored_time : string)
  (cached_embedding_lengths : list Z) (spins : Z) (qpu_name : string)
  (signal : FoundData) (out : SimulateReturn) :
  outcome (simulate w client triggered_id job current_state stored_time
             cached_embedding_lengths spins qpu_name signal)
  = Return out →
  (∀ t, job_submit_time out = update t →
        job_submit_state out = update "SUBMITTED" ∧ (t = clock w ∨ t = "SA"))
  ∧ (∀ f, embeddings_found out = update f →
          (f = FoundText "needed" ∧ job_submit_state out = update "EMBEDDING")
          ∨ (f = FoundText "not found" ∧ job_submit_state out = update "FAILED")
          ∨ (∃ emb, f = FoundEmbedding spins emb ∧ emb ≠ ∅
                    ∧ job_submit_state out = update "EMBEDDING")).
Proof.
  simulate_cases w client triggered_id current_state qpu_name signal;
    intros [= <-]; cbn; (split; [intros ? [= <-]|intros ? [= <-]]); eauto.
  - destruct (String.eqb qpu_name "Diffusion [Classical]"); eauto.
  - right. right. eexists. by split_and!.
Qed.

Lemma simulate_writes_together_witness :
  (∀ t, job_submit_time (submitted_with tuesday_1338) = update t →
        job_submit_state (submitted_with tuesday_1338) = update "SUBMITTED"
        ∧ (t = tuesday_1338 ∨ t = "SA"))
  ∧ (∀ f, embeddings_found (submitted_with tuesday_1338) = update f →
          (f = FoundText "needed"
           ∧ job_submit_state (submitted_with tuesday_1338) = update "EMBEDDING")
          ∨ (f = FoundText "not found"
             ∧ job_submit_state (submitted_with tuesday_1338) = update "FAILED")
          ∨ (∃ emb, f = FoundEmbedding 512 emb ∧ emb ≠ ∅
                    ∧ job_submit_state (submitted_with tuesday_1338)
                      = update "EMBEDDING")).
Proof.
  apply (simulate_writes_together (world_at tuesday_1338 "" PENDING) QpuClient
           (Some "btn_simulate") "" "READY" "" [512; 1024] 512
           "Advantage_system4.3" (FoundText "")).
  vm_compute. reflexivity.
Defined.

Lemma fire_returns (w : World) (client : Client) (triggered_id : option string)
  (i : Inputs) (p p' : Page) :
  outcome (fire w client triggered_id i p) = Return p' →
  ∃ out,
    outcome (simulate w client triggered_id (job_id i) (state p) (submit_time p)
               (embedding_is_cached i) (spins_value i) (qpu_selection i) (found p))
    = Return out
    ∧ p' = render out p.
Proof.
  unfold fire, io_bind.
  destruct (outcome (simulate _ _ _ _ _ _ _ _ _ _)) as [e|out]; cbn; [done|].
  intros [= <-]. by exists out.
Qed.

Lemma fire_state_cases (w : World) (client : Client)
  (triggered_id : option string) (i : Inputs) (p p' : Page) :
  outcome (fire w client triggered_id i p) = Return p' →
  state p' ∈ lifecycle_states.
Proof.
  intros (out & Hout & ->)%fire_returns. revert Hout.
  destruct p as [b wd iv n st t f]. cbn [state submit_time found].
  simulate_cases w client triggered_id st (qpu_selection i) f;
    intros [= <-]; cbn;
    try (unfold lifecycle_states, known_states; cbn;
         rewrite !elem_of_cons; by auto 10).
  match goal with
  | H : elem_ofb st _ = true |- _ =>
      apply elem_ofb_elem in H;
      repeat (apply elem_of_cons in H as [H|H]);
      [rewrite H..|by apply elem_of_nil in H]
  end;
    unfold lifecycle_states, known_states; cbn;
    rewrite !elem_of_cons; by auto 10.
Qed.

(** X3: after any firing that returns, by the button or by the timer, from
    any page whatever, the state is one of EMBEDDING, SUBMITTED, PENDING,
    IN_PROGRESS, COMPLETED, CANCELLED, FAILED and ERROR; and ERROR is
    written only by a timer tick on a page whose state is none of the
    first seven. *)
Theorem fire_state_in_lifecycle (w : World) (client : Client)
  (triggered_id : option string) (i : Inputs) (p p' : Page) :
  outcome (fire w client triggered_id i p) = Return p' →
  state p' ∈ lifecycle_states
  ∧ (state p' = "ERROR" →
     triggered_is triggered_id "btn_simulate" = false
     ∧ state p ∉ known_states).
Proof.
  intros Hfire. split; [by eapply fire_state_cases|].
  apply fire_returns in Hfire as (out & Hout & ->). revert Hout.
  destruct p as [b wd iv n st t f]. cbn [state submit_time found].
  simulate_cases w client triggered_id st (qpu_selection i) f;
    intros [= <-]; cbn; try discriminate.
  - match goal with
    | H : elem_ofb st _ = true |- _ =>
        apply elem_ofb_elem in H;
        repeat (apply elem_of_cons in H as [H|H]);
        [rewrite H; discriminate..|by apply elem_of_nil in H]
    end.
  - intros _. split; [done|].
    match goal with
    | H1 : String.eqb st _ = false,
      H2 : elem_ofb st ["SUBMITTED"; _; _] = false,
      H3 : elem_ofb st ["COMPLETED"; _; _] = false |- _ =>
        apply String.eqb_neq in H1;
        rewrite elem_ofb_not_elem, !not_elem_of_cons in H2, H3;
        unfold known_states; rewrite !not_elem_of_cons; tauto
    end.
Qed.

Lemma fire_state_in_lifecycle_witness :
  state (running_page (PyFloat 200) "SUBMITTED" tuesday_1338 (FoundText ""))
  ∈ lifecycle_states.
Proof.
  apply (fire_state_in_lifecycle (world_at tuesday_1339 tuesday_1339 PENDING)
           QpuClient (Some "wd_job") job_two
           (running_page (PyInt 1000) "PENDING" tuesday_1338 (FoundText ""))).
  vm_compute. reflexivity.
Defined.

Lemma is_needed_eq (signal : FoundData) :
  is_needed signal = true → signal = FoundText "needed".
Proof. destruct signal as [s|]; cbn; [|done]. by intros ->%String.eqb_eq. Qed.

(** X4: one firing of [simulate] makes at most one external call.  The
    subgraph search is called only on a timer tick in EMBEDDING with the
    signal ["needed"], with a timeout of 60; the status endpoint is asked
    only on a timer tick in SUBMITTED, PENDING or IN_PROGRESS, with a
    configured client and for the job id of the page. *)
Theorem simulate_calls_at_most_one (w : World) (client : Client)
  (triggered_id : option string) (job current_state stored_time : string)
  (cached_embedding_lengths : list Z) (spins : Z) (qpu_name : string)
  (signal : FoundData) :
  let r := simulate w client triggered_id job current_state stored_time
             cached_embedding_lengths spins qpu_name signal in
  (length (calls r) ≤ 1)%nat
  ∧ (∀ ring timeout, CallFindSubgraph ring timeout ∈ calls r →
       triggered_is triggered_id "btn_simulate" = false
       ∧ current_state = "EMBEDDING"
       ∧ signal = FoundText "needed"
       ∧ timeout = 60)
  ∧ (∀ j, CallGetProblemStatus j ∈ calls r →
       triggered_is triggered_id "btn_simulate" = false
       ∧ j = job
       ∧ current_state ∈ ["SUBMITTED"; "PENDING"; "IN_PROGRESS"]
       ∧ client = QpuClient).
Proof.
  cbn zeta.
  simulate_cases w client triggered_id current_state qpu_name signal;
    (split_and!;
     [ cbn; lia
     | intros ring timeout Hin;
       first
         [ by apply elem_of_nil in Hin
         | apply list_elem_of_singleton in Hin;
           first
             [ discriminate Hin
             | injection Hin as -> ->;
               split_and!;
               [done|by apply String.eqb_eq|by apply is_needed_eq|done] ] ]
     | intros j Hin;
       first
         [ by apply elem_of_nil in Hin
         | apply list_elem_of_singleton in Hin;
           first
             [ discriminate Hin
             | injection Hin as ->;
               split_and!; [done|done|by apply elem_ofb_elem|done] ] ] ]).
Qed.

(** ** States [simulate] does not know *)

Lemma tick_unknown_state (w : World) (client : Client) (i : Inputs) (p : Page) :
  state p ∉ known_states →
  tick w client i p = MkIO [] (Return (error_page (submit_time p) (found p))).
Proof.
  intros Hst. destruct p as [b wd iv n st t f]. cbn [state submit_time found] in *.
  unfold known_states in Hst. rewrite !not_elem_of_cons in Hst.
  destruct Hst as (H1 & H2 & H3 & H4 & H5 & H6 & H7 & _).
  unfold tick, fire, simulate.
  change (triggered_is (Some "wd_job") "btn_simulate") with false.
  cbn [state submit_time found].
  apply String.eqb_neq in H1, H2, H3, H4, H5, H6, H7.
  unfold elem_ofb. cbn [existsb].
  by rewrite H1, H2, H3, H4, H5, H6, H7.
Qed.

(** X5: a timer tick on a page whose state is none of the seven that
    [simulate] tests for, such as READY, NO SOLVER or ERROR itself, makes
    no call and writes ERROR, with the submit control enabled and the timer
    stopped; any run of ticks from there stays in ERROR and leaves
    timestamp and embedding signal alone. *)
Theorem ticks_from_unknown_state (client : Client)
  (moments : list (World * Inputs)) (p : Page) :
  state p ∉ known_states →
  moments ≠ [] →
  run_ticks client moments p = ([], error_page (submit_time p) (found p)).
Proof.
  revert p. induction moments as [|[w i] rest IH]; intros p Hst Hne; [done|].
  cbn [run_ticks]. rewrite tick_unknown_state by done. cbn [settle outcome calls].
  destruct rest as [|m rest]; [done|].
  rewrite IH; [done| |done].
  cbn. unfold known_states. rewrite !not_elem_of_cons.
  split_and!; try discriminate. apply not_elem_of_nil.
Qed.

Lemma ticks_from_unknown_state_witness :
  run_ticks QpuClient
    [(world_at tuesday_1338 "" PENDING, job_two);
     (world_at tuesday_1339 "" PENDING, job_two)]
    (idle_page "READY" "" (FoundText ""))
  = ([], error_page "" (FoundText "")).
Proof.
  apply (ticks_from_unknown_state QpuClient
           [(world_at tuesday_1338 "" PENDING, job_two);
            (world_at tuesday_1339 "" PENDING, job_two)]
           (idle_page "READY" "" (FoundText ""))).
  - cbn. unfold known_states. rewrite !not_elem_of_cons.
    split_and!; try discriminate. apply not_elem_of_nil.
  - discriminate.
Defined.

(** ** The status of a job *)

(** X6: [get_job_status] reads back the label [submit_job] writes.  For a
    problem labelled with a submit time that does not itself contain
    ["submitted: "], the status is returned when that time is the stored
    timestamp and [None] is returned when it is any other: a job of an
    earlier submission is not taken for the current one. *)
Theorem get_job_status_reads_job_label (w : World)
  (job submitted stored : string) (st : ProblemStatus) :
  contains submitted "submitted: " = false →
  get_problem_status w job
  = Return {| label := Some (job_label submitted); status := st |} →
  (stored = submitted →
   get_job_status w QpuClient job stored
   = MkIO [CallGetProblemStatus job] (Return (Some (status_value st))))
  ∧ (stored ≠ submitted →
     get_job_status w QpuClient job stored
     = MkIO [CallGetProblemStatus job] (Return None)).
Proof.
  intros Hclean Hreply. rewrite get_job_status_outcome, Hreply. cbn [label status].
  rewrite split_job_label by done. cbn [lookup list_lookup].
  split.
  - intros ->. by rewrite String.eqb_refl.
  - intros Hne. apply not_eq_sym, String.eqb_neq in Hne. by rewrite Hne.
Qed.

Lemma get_job_status_reads_job_label_witness :
  get_job_status (world_at tuesday_1339 tuesday_1338 IN_PROGRESS) QpuClient "2"
    tuesday_1338
  = MkIO [CallGetProblemStatus "2"] (Return (Some "IN_PROGRESS")).
Proof.
  apply (get_job_status_reads_job_label
           (world_at tuesday_1339 tuesday_1338 IN_PROGRESS)
           "2" tuesday_1338 tuesday_1338 IN_PROGRESS).
  - vm_compute. reflexivity.
  - reflexivity.
  - reflexivity.
Defined.

Lemma tick_polling_unfold (w : World) (client : Client) (i : Inputs) (p : Page) :
  state p ∈ ["SUBMITTED"; "PENDING"; "IN_PROGRESS"] →
  tick w client i p =
  io_bind (get_job_status w client (job_id i) (submit_time p))
    (fun polled =>
       io_ret (if falsy polled
               then running_page (PyFloat 200) "SUBMITTED" (submit_time p) (found p)
               else running_page (PyInt 1000) (default "" polled)
                      (submit_time p) (found p))).
Proof.
  intros Hst. destruct p as [b wd iv n st t f]. cbn [state submit_time found] in *.
  unfold tick, fire, simulate. cbn [triggered_is].
  repeat (apply elem_of_cons in Hst as [->|Hst]);
    [| | |by apply elem_of_nil in Hst];
    cbn -[get_job_status];
    unfold io_bind;
    (destruct (get_job_status _ _ _ _) as [cs [e|polled]];
     cbn; [done|]; destruct (falsy polled); cbn; by rewrite !app_nil_r).
Qed.

(** X7: only [ResourceNotFoundError] is absorbed by [get_job_status].  On a
    polling tick in SUBMITTED, PENDING or IN_PROGRESS with a configured
    client, any other exception of the status endpoint leaves [simulate]
    unhandled; so does a reply without label ([AttributeError]) and a reply
    whose label lacks ["submitted: "] ([IndexError]). *)
Theorem tick_polling_raises (w : World) (i : Inputs) (p : Page) :
  state p ∈ ["SUBMITTED"; "PENDING"; "IN_PROGRESS"] →
  let poll := get_problem_status w (job_id i) in
  let raises e := tick w QpuClient i p
                  = MkIO [CallGetProblemStatus (job_id i)] (Raise e) in
  (∀ e, e ≠ ResourceNotFoundError → poll = Raise e → raises e)
  ∧ (∀ reply, poll = Return reply → label reply = None → raises AttributeError)
  ∧ (∀ reply l, poll = Return reply → label reply = Some l →
       contains l "submitted: " = false → raises IndexError).
Proof.
  intros Hst poll raises.
  unfold raises. rewrite tick_polling_unfold, get_job_status_outcome by done.
  fold poll. unfold io_bind. split_and!.
  - intros e He ->. by destruct e.
  - intros reply -> ->. done.
  - intros reply l -> -> Hl. unfold split.
    by rewrite split_aux_one_piece.
Qed.

Lemma tick_polling_raises_witness :
  tick (world_with_reply tuesday_1339
          (Return {| label := Some "Benchmark run"; status := COMPLETED |}))
    QpuClient job_two
    (running_page (PyInt 1000) "PENDING" tuesday_1338 (FoundText ""))
  = MkIO [CallGetProblemStatus "2"] (Raise IndexError).
Proof.
  refine (proj2 (proj2 (tick_polling_raises
                          (world_with_reply tuesday_1339
                             (Return {| label := Some "Benchmark run";
                                        status := COMPLETED |}))
                          job_two
                          (running_page (PyInt 1000) "PENDING" tuesday_1338
                             (FoundText "")) _))
            {| label := Some "Benchmark run"; status := COMPLETED |}
            "Benchmark run" _ _ _).
  - cbn. rewrite !elem_of_cons. auto.
  - reflexivity.
  - reflexivity.
  - vm_compute. reflexivity.
Defined.

(** X8: without a configured client the status cannot be asked for.  When
    start-up could not configure a cloud client, or found no QPU, the
    client is the placeholder; a submission to the classical sampler then
    goes to SUBMITTED with the marker ["SA"], and every later polling tick
    raises [AttributeError] before any call is made, so that no run of
    ticks changes the page: the job never leaves SUBMITTED. *)
Theorem classical_job_without_client_stays_submitted
  (from_config : result ()) (get_solvers : result (list string))
  (USE_CLASSICAL : bool) (w : World) (i : Inputs) (p : Page)
  (moments : list (World * Inputs)) :
  (∃ e, from_config = Raise e) ∨ (∃ e, get_solvers = Raise e)
  ∨ get_solvers = Return [] →
  qpu_selection i = classical →
  let c := client (startup from_config get_solvers USE_CLASSICAL) in
  let p1 := settle (fire w c (Some "btn_simulate") i p) p in
  c = DummyClient
  ∧ p1 = running_page (PyFloat 500) "SUBMITTED" "SA" (found p)
  ∧ run_ticks c moments p1 = ([], p1).
Proof.
  intros Hfail Hq c p1.
  assert (Hc : c = DummyClient).
  { unfold c, startup.
    destruct Hfail as [[e ->]|[[e ->]| ->]]; [done| |];
      by destruct from_config as [?|[]]. }
  assert (Hp1 : p1 = running_page (PyFloat 500) "SUBMITTED" "SA" (found p)).
  { unfold p1, fire, simulate. cbn [triggered_is]. rewrite String.eqb_refl, Hq.
    unfold classical. rewrite String.eqb_refl, orb_true_r. done. }
  split_and!; [done|done|].
  rewrite Hp1, Hc. clear.
  induction moments as [|[w i] rest IH]; [done|].
  cbn [run_ticks]. rewrite tick_polling_unfold
    by (cbn; rewrite !elem_of_cons; auto).
  cbn. by rewrite IH.
Qed.

Lemma classical_job_without_client_stays_submitted_witness :
  run_ticks DummyClient
    [(world_at tuesday_1338 "" PENDING, job_two);
     (world_at tuesday_1339 "" PENDING, job_two)]
    (running_page (PyFloat 500) "SUBMITTED" "SA" (FoundText ""))
  = ([], running_page (PyFloat 500) "SUBMITTED" "SA" (FoundText "")).
Proof.
  apply (classical_job_without_client_stays_submitted
           (Raise (OtherException "ConfigFileError")) (Return []) true
           (world_at tuesday_1338 "" PENDING)
           {| job_id := ""; embedding_is_cached := []; spins_value := 512;
              qpu_selection := classical |}
           (idle_page "READY" "" (FoundText ""))
           [(world_at tuesday_1338 "" PENDING, job_two);
            (world_at tuesday_1339 "" PENDING, job_two)]).
  - left. by eexists.
  - reflexivity.
Defined.

(** ** The inputs of the page while a job runs *)

(** X9: [disable_buttons] locks the anneal duration, the coupling strength,
    the QPU selection and every option of the spins dropdown exactly in the
    four running states, releases them in the three terminal states, and
    raises [PreventUpdate] in any other state.  The options keep their
    number and every entry other than ["disabled"]. *)
Theorem disable_buttons_follows_state (job_submit_state : string)
  (spins_options : list (gmap string OptionValue)) :
  let locked b opts :=
    disable_buttons job_submit_state spins_options = Return (b, b, opts, b)
    ∧ length opts = length spins_options
    ∧ (∀ k option, opts !! k = Some option →
         option !! "disabled" = Some (OBool b)
         ∧ ∃ before, spins_options !! k = Some before
                     ∧ ∀ key, key ≠ "disabled" → option !! key = before !! key) in
  (job_submit_state ∈ running_states → ∃ opts, locked true opts)
  ∧ (job_submit_state ∈ done_states → ∃ opts, locked false opts)
  ∧ (job_submit_state ∉ running_states ++ done_states →
     disable_buttons job_submit_state spins_options = Raise PreventUpdate).
Proof.
  intros locked.
  assert (Hshape : ∀ b,
    let opts := (fun option => <["disabled" := OBool b]> option) <$> spins_options in
    length opts = length spins_options
    ∧ (∀ k option, opts !! k = Some option →
         option !! "disabled" = Some (OBool b)
         ∧ ∃ before, spins_options !! k = Some before
                     ∧ ∀ key, key ≠ "disabled" → option !! key = before !! key)).
  { intros b opts. split; [apply length_fmap|].
    intros k option Hk. unfold opts in Hk. rewrite list_lookup_fmap in Hk.
    destruct (spins_options !! k) as [before|]; [|done].
    injection Hk as <-. split; [apply lookup_insert_eq|].
    exists before. split; [done|]. intros key Hkey.
    by rewrite lookup_insert_ne. }
  unfold locked, disable_buttons. split_and!.
  - intros Hrun. eexists.
    assert (Hall : elem_ofb job_submit_state (running_states ++ done_states) = true).
    { apply elem_ofb_elem, elem_of_app. by left. }
    apply elem_ofb_elem in Hrun. rewrite Hall, Hrun. cbn [negb].
    split; [done|apply Hshape].
  - intros Hdone. eexists.
    assert (Hall : elem_ofb job_submit_state (running_states ++ done_states) = true).
    { apply elem_ofb_elem, elem_of_app. by right. }
    assert (Hrun : elem_ofb job_submit_state running_states = false).
    { apply elem_ofb_not_elem. intros Hrun.
      unfold running_states, done_states in *.
      repeat (apply elem_of_cons in Hdone as [->|Hdone]);
        try (by apply elem_of_nil in Hdone);
        repeat (apply elem_of_cons in Hrun as [Hrun|Hrun]);
        try discriminate; by apply elem_of_nil in Hrun. }
    rewrite Hall, Hrun. cbn [negb]. split; [done|apply Hshape].
  - intros Hnone%elem_ofb_not_elem. by rewrite Hnone.
Qed.

Lemma disable_buttons_follows_state_witness :
  ∃ opts,
    disable_buttons "SUBMITTED"
      [ {[ "label" := OStr "512"; "value" := OInt 512 ]};
        {[ "label" := OStr "1024"; "value" := OInt 1024 ]} ]
    = Return (true, true, opts, true)
    ∧ length opts = 2%nat.
Proof.
  destruct (proj1 (disable_buttons_follows_state "SUBMITTED"
                     [ {[ "label" := OStr "512"; "value" := OInt 512 ]};
                       {[ "label" := OStr "1024"; "value" := OInt 1024 ]} ]))
    as (opts & Hrun & Hlen & _).
  - unfold running_states. rewrite !elem_of_cons. auto.
  - exists opts. split; [exact Hrun|exact Hlen].
Defined.

(** X10: after any firing of [simulate] that returns, [disable_buttons] on
    the new state raises [PreventUpdate] only for ERROR; otherwise it
    returns, and the inputs are locked exactly when the new state is one
    of EMBEDDING, SUBMITTED, PENDING and IN_PROGRESS. *)
Theorem disable_buttons_after_fire (w : World) (client : Client)
  (triggered_id : option string) (i : Inputs) (p p' : Page)
  (spins_options : list (gmap string OptionValue)) :
  outcome (fire w client triggered_id i p) = Return p' →
  (state p' = "ERROR"
   ∧ disable_buttons (state p') spins_options = Raise PreventUpdate)
  ∨ (∃ opts,
       disable_buttons (state p') spins_options
       = Return (elem_ofb (state p') running_states,
                 elem_ofb (state p') running_states,
                 opts,
                 elem_ofb (state p') running_states)).
Proof.
  intros Hin%fire_state_cases.
  unfold lifecycle_states, known_states in Hin. cbn in Hin.
  repeat (apply elem_of_cons in Hin as [->|Hin]);
    [right; by eexists..|left; done|by apply elem_of_nil in Hin].
Qed.

Lemma disable_buttons_after_fire_witness :
  (state (running_page (PyFloat 200) "SUBMITTED" tuesday_1338 (FoundText ""))
   = "ERROR"
   ∧ disable_buttons
       (state (running_page (PyFloat 200) "SUBMITTED" tuesday_1338 (FoundText "")))
       [ {[ "label" := OStr "512"; "value" := OInt 512 ]} ]
     = Raise PreventUpdate)
  ∨ (∃ opts,
       disable_buttons
         (state (running_page (PyFloat 200) "SUBMITTED" tuesday_1338
                   (FoundText "")))
         [ {[ "label" := OStr "512"; "value" := OInt 512 ]} ]
       = Return (true, true, opts, true)).
Proof.
  apply (disable_buttons_after_fire
           (world_at tuesday_1339 tuesday_1339 PENDING)
           QpuClient (Some "wd_job") job_two
           (running_page (PyInt 1000) "PENDING" tuesday_1338 (FoundText ""))
           (running_page (PyFloat 200) "SUBMITTED" tuesday_1338 (FoundText ""))
           [ {[ "label" := OStr "512"; "value" := OInt 512 ]} ]).
  vm_compute. reflexivity.
Defined.

(** ** Further properties of the kink statistics *)

Lemma np_diff_cons (p x : Z) (row : list Z) :
  np_diff (p :: x :: row) = (x - p) :: np_diff (x :: row).
Proof. reflexivity. Qed.

Lemma length_np_diff_cons (p : Z) (row : list Z) :
  length (np_diff (p :: row)) = length row.
Proof.
  revert p. induction row as [|x row IH]; intros p; [done|].
  rewrite np_diff_cons. cbn [length]. by rewrite IH.
Qed.

Lemma count_nonzero_cons (d : Z) (v : list Z) :
  count_nonzero (d :: v) = (if decide (d = 0) then 0 else 1) + count_nonzero v.
Proof.
  unfold count_nonzero. destruct (decide (d = 0)) as [->|Hd].
  - by rewrite filter_cons_False by (intros H; by apply H).
  - rewrite filter_cons_True by done. cbn [length]. lia.
Qed.

Lemma count_zero_cons (d : Z) (v : list Z) :
  count_zero (d :: v) = (if decide (d = 0) then 1 else 0) + count_zero v.
Proof.
  unfold count_zero. destruct (decide (d = 0)) as [->|Hd].
  - rewrite filter_cons_True by done. cbn [length]. lia.
  - by rewrite filter_cons_False by done.
Qed.

Lemma count_complement (v : list Z) :
  count_nonzero v + count_zero v = Z.of_nat (length v).
Proof.
  induction v as [|d v IH]; [done|].
  rewrite count_nonzero_cons, count_zero_cons. cbn [length].
  destruct (decide (d = 0)); lia.
Qed.

Lemma count_nonzero_bounds (v : list Z) : 0 ≤ count_nonzero v ≤ Z.of_nat (length v).
Proof.
  pose proof (count_complement v). unfold count_nonzero, count_zero in *. lia.
Qed.

Lemma count_zero_bounds (v : list Z) : 0 ≤ count_zero v ≤ Z.of_nat (length v).
Proof.
  pose proof (count_complement v). unfold count_nonzero, count_zero in *. lia.
Qed.

(** What [kink_stats] returns when the array has columns. *)
Lemma kink_stats_unfold (sampleset : SampleArray) (J : Q) :
  (0 < shape1 sampleset)%nat →
  kink_stats sampleset J =
  let diffs := (fun row => np_diff (List.last row 0 :: row)) <$> rows sampleset in
  let counts := (if Qltb J 0 then count_nonzero else count_zero) <$> diffs in
  Return (counts,
          (fun m => m / inject_Z (Z.of_nat (shape1 sampleset)))%Q <$> np_mean counts).
Proof.
  intros Hwidth. unfold kink_stats, last_column.
  destruct (shape1 sampleset) as [|n]; [lia|]. cbn [mbind result_bind].
  assert (Hdiffs : np_diff_prepend ((fun row => List.last row 0) <$> rows sampleset)
                     (rows sampleset)
                   = (fun row => np_diff (List.last row 0 :: row)) <$> rows sampleset).
  { unfold np_diff_prepend. induction (rows sampleset) as [|row a IH]; [done|].
    rewrite !fmap_cons. cbn [zip_with]. by rewrite IH. }
  rewrite Hdiffs. by destruct (Qltb J 0).
Qed.

Lemma sumZ_app_pointwise (f g : list Z → Z) (a : list (list Z)) :
  sumZ (f <$> a) + sumZ (g <$> a) = sumZ ((fun v => f v + g v) <$> a).
Proof.
  induction a as [|v a IH]; [done|].
  rewrite !fmap_cons.
  change (sumZ (?x :: ?l)) with (x + sumZ l). lia.
Qed.

Lemma sumZ_constant (f : list Z → Z) (c : Z) (a : list (list Z)) :
  Forall (fun v => f v = c) a → sumZ (f <$> a) = Z.of_nat (length a) * c.
Proof.
  induction 1 as [|v a Hv _ IH]; [done|].
  rewrite fmap_cons. change (sumZ (?x :: ?l)) with (x + sumZ l).
  rewrite IH, Hv. cbn [length]. lia.
Qed.

Lemma density_sum (a b : Z) (r n : Q) :
  ¬ (r == 0)%Q → ¬ (n == 0)%Q →
  (inject_Z a / r / n + inject_Z b / r / n == inject_Z (a + b) / r / n)%Q.
Proof. intros Hr Hn. rewrite inject_Z_plus. field. by split. Qed.

(** X11: on the same samples of a ring of [N] spins, the count [kink_stats]
    returns for a negative coupling and the count it returns for a
    non-negative coupling add up to [N] in every sample; both lie between
    [0] and [N]; and the two mean kink densities add up to one. *)
Theorem kink_stats_complementary (sampleset : SampleArray) (Jn Jp : Q) :
  well_shaped sampleset →
  (0 < shape1 sampleset)%nat →
  rows sampleset ≠ [] →
  (Jn < 0)%Q →
  (0 <= Jp)%Q →
  ∃ cn dn cp dp,
    kink_stats sampleset Jn = Return (cn, Some dn)
    ∧ kink_stats sampleset Jp = Return (cp, Some dp)
    ∧ zip_with Z.add cn cp
      = replicate (length (rows sampleset)) (Z.of_nat (shape1 sampleset))
    ∧ Forall (fun c => 0 ≤ c ≤ Z.of_nat (shape1 sampleset)) cn
    ∧ Forall (fun c => 0 ≤ c ≤ Z.of_nat (shape1 sampleset)) cp
    ∧ (dn + dp == 1)%Q.
Proof.
  intros Hshape Hwidth Hrows HJn HJp.
  assert (Hn : Qltb Jn 0 = true) by (by apply Qltb_lt).
  assert (Hp : Qltb Jp 0 = false).
  { apply not_true_iff_false. intros E%Qltb_lt. by apply Qlt_not_le in E. }
  set (diff := fun row => np_diff (List.last row 0 :: row)).
  set (N := shape1 sampleset) in *.
  assert (Hlen : Forall (fun row => length (diff row) = N) (rows sampleset)).
  { eapply Forall_impl; [exact Hshape|]. intros row Hrow. cbn in Hrow.
    unfold diff. by rewrite length_np_diff_cons. }
  exists (count_nonzero <$> (diff <$> rows sampleset)),
    (inject_Z (sumZ (count_nonzero <$> (diff <$> rows sampleset)))
     / inject_Z (Z.of_nat (length (count_nonzero <$> (diff <$> rows sampleset))))
     / inject_Z (Z.of_nat N))%Q,
    (count_zero <$> (diff <$> rows sampleset)),
    (inject_Z (sumZ (count_zero <$> (diff <$> rows sampleset)))
     / inject_Z (Z.of_nat (length (count_zero <$> (diff <$> rows sampleset))))
     / inject_Z (Z.of_nat N))%Q.
  split_and!.
  - rewrite kink_stats_unfold by done. cbn zeta. rewrite Hn.
    rewrite np_mean_nonempty; [done|].
    intros H%fmap_nil_inv%fmap_nil_inv. done.
  - rewrite kink_stats_unfold by done. cbn zeta. rewrite Hp.
    rewrite np_mean_nonempty; [done|].
    intros H%fmap_nil_inv%fmap_nil_inv. done.
  - clear -Hlen. induction Hlen as [|row a Hrow _ IH]; [done|].
    rewrite !fmap_cons. cbn [zip_with length replicate]. rewrite IH. f_equal.
    rewrite count_complement. by rewrite Hrow.
  - rewrite <- list_fmap_compose. apply Forall_fmap.
    eapply Forall_impl; [exact Hlen|]. intros row Hrow. unfold compose.
    pose proof (count_nonzero_bounds (diff row)) as Hb. rewrite Hrow in Hb. lia.
  - rewrite <- list_fmap_compose. apply Forall_fmap.
    eapply Forall_impl; [exact Hlen|]. intros row Hrow. unfold compose.
    pose proof (count_zero_bounds (diff row)) as Hb. rewrite Hrow in Hb. lia.
  - rewrite !length_fmap.
    assert (Hsum : sumZ (count_nonzero <$> (diff <$> rows sampleset))
                   + sumZ (count_zero <$> (diff <$> rows sampleset))
                   = Z.of_nat (length (rows sampleset)) * Z.of_nat N).
    { rewrite <- !list_fmap_compose, sumZ_app_pointwise.
      apply (sumZ_constant (fun v => (count_nonzero ∘ diff) v + (count_zero ∘ diff) v)).
      eapply Forall_impl; [exact Hlen|]. intros row Hrow. unfold compose.
      by rewrite count_complement, Hrow. }
    assert (HR : ¬ (inject_Z (Z.of_nat (length (rows sampleset))) == 0)%Q).
    { destruct (rows sampleset); [done|]. cbn [length].
      intros H. unfold Qeq in H. cbn in H. lia. }
    assert (HN : ¬ (inject_Z (Z.of_nat N) == 0)%Q).
    { intros H. unfold Qeq in H. cbn in H. lia. }
    rewrite density_sum by done.
    rewrite Hsum, inject_Z_mult. field. by split.
Qed.

Lemma kink_stats_complementary_witness :
  ∃ cn dn cp dp,
    kink_stats two_samples (-1) = Return (cn, Some dn)
    ∧ kink_stats two_samples 1 = Return (cp, Some dp)
    ∧ zip_with Z.add cn cp
      = replicate (length (rows two_samples)) (Z.of_nat (shape1 two_samples))
    ∧ Forall (fun c => 0 ≤ c ≤ Z.of_nat (shape1 two_samples)) cn
    ∧ Forall (fun c => 0 ≤ c ≤ Z.of_nat (shape1 two_samples)) cp
    ∧ (dn + dp == 1)%Q.
Proof.
  apply (kink_stats_complementary two_samples (-1) 1).
  - repeat constructor.
  - cbn. lia.
  - discriminate.
  - reflexivity.
  - discriminate.
Defined.

Lemma List_last_cons (x d : Z) (l : list Z) :
  List.last (x :: l) d = List.last l x.
Proof.
  revert x d. induction l as [|y l IH]; intros x d; [done|].
  change (List.last (x :: y :: l) d) with (List.last (y :: l) d).
  by rewrite !IH.
Qed.

Lemma List_last_spin (x : Z) (l : list Z) :
  is_spin x → Forall is_spin l → is_spin (List.last l x).
Proof.
  intros Hx Hl. revert x Hx. induction Hl as [|y l Hy _ IH]; intros x Hx; [done|].
  rewrite List_last_cons. by apply IH.
Qed.

(** Along a line of spins entered from [prev], the number of sign switches
    is even exactly when the line ends on [prev]'s sign. *)
Lemma switches_parity (prev : Z) (l : list Z) :
  is_spin prev → Forall is_spin l →
  Z.even (count_nonzero (np_diff (prev :: l))) = bool_decide (List.last l prev = prev).
Proof.
  intros Hprev Hl. revert prev Hprev.
  induction Hl as [|x l Hx Hl IH]; intros prev Hprev.
  - cbn. by rewrite bool_decide_eq_true_2.
  - rewrite np_diff_cons, count_nonzero_cons, List_last_cons.
    specialize (IH x Hx).
    pose proof (List_last_spin x l Hx Hl) as Hlast.
    destruct (decide (x - prev = 0)) as [Heq|Hne].
    + assert (x = prev) as -> by lia. by rewrite Z.add_0_l.
    + rewrite Z.even_add, IH. cbn.
      destruct Hx as [->| ->], Hprev as [->| ->], Hlast as [Hv|Hv];
        rewrite Hv; try done; lia.
Qed.

Lemma ring_switches_even (row : list Z) :
  Forall is_spin row → row ≠ [] →
  Z.even (count_nonzero (np_diff (List.last row 0 :: row))) = true.
Proof.
  intros Hspin Hne. destruct row as [|x row]; [done|].
  assert (Hlast : is_spin (List.last (x :: row) 0)).
  { rewrite List_last_cons. inversion Hspin; subst. by apply List_last_spin. }
  rewrite switches_parity by done.
  apply bool_decide_eq_true_2.
  by rewrite (List_last_cons x (List.last (x :: row) 0)), (List_last_cons x 0).
Qed.

Lemma kinks_of_row_spin (J : Q) (row : list Z) :
  Forall is_spin row → row ≠ [] →
  0 ≤ kinks_of_row J row ≤ Z.of_nat (length row)
  ∧ Z.even (kinks_of_row J row)
    = (if Qltb J 0 then true else Z.even (Z.of_nat (length row))).
Proof.
  intros Hspin Hne. unfold kinks_of_row. rewrite <- np_diff_cyclic.
  set (diff := np_diff (List.last row 0 :: row)).
  assert (Hlen : length diff = length row) by apply length_np_diff_cons.
  pose proof (count_complement diff) as Hc. rewrite Hlen in Hc.
  pose proof (count_nonzero_bounds diff) as Hb.
  pose proof (count_zero_bounds diff) as Hb'. rewrite Hlen in Hb, Hb'.
  pose proof (ring_switches_even row Hspin Hne) as Heven. fold diff in Heven.
  destruct (Qltb J 0); [done|]. split; [done|].
  replace (count_zero diff) with (Z.of_nat (length row) - count_nonzero diff) by lia.
  rewrite Z.even_sub, Heven. by destruct (Z.even (Z.of_nat (length row))).
Qed.

Lemma kink_stats_counts (sampleset : SampleArray) (J : Q) :
  (0 < shape1 sampleset)%nat →
  kink_stats sampleset J =
  Return (kinks_of_row J <$> rows sampleset,
          (fun m => m / inject_Z (Z.of_nat (shape1 sampleset)))%Q
            <$> np_mean (kinks_of_row J <$> rows sampleset)).
Proof.
  intros Hn. unfold kink_stats, last_column.
  destruct (shape1 sampleset) as [|n]; [lia|]. cbn [mbind result_bind].
  rewrite np_diff_prepend_cyclic. cbn zeta.
  rewrite <- kinks_of_row_fmap. by destruct (Qltb J 0).
Qed.

(** X12: on samples of spins on a ring, the count [kink_stats] returns for a
    negative coupling is even in every sample, and the count it returns
    for a non-negative coupling has the parity of the ring length. *)
Theorem kink_stats_parity (sampleset : SampleArray) (J : Q)
  (counts : list Z) (density : option Q) :
  well_shaped sampleset →
  spin_samples sampleset →
  kink_stats sampleset J = Return (counts, density) →
  ((J < 0)%Q → Forall (fun c => Z.even c = true) counts)
  ∧ ((0 <= J)%Q →
     Forall (fun c => Z.even c = Z.even (Z.of_nat (shape1 sampleset))) counts).
Proof.
  intros Hshape Hspin Hrun.
  destruct (shape1 sampleset) as [|n] eqn:Hn.
  { unfold kink_stats, last_column in Hrun. by rewrite Hn in Hrun. }
  rewrite kink_stats_counts in Hrun by lia. injection Hrun as <- _.
  assert (Hrows : Forall (fun row =>
            Z.even (kinks_of_row J row)
            = (if Qltb J 0 then true else Z.even (Z.of_nat (S n))))
            (rows sampleset)).
  { unfold well_shaped, spin_samples in *. rewrite Hn in Hshape.
    rewrite Forall_forall in Hshape, Hspin. apply Forall_forall. intros row Hrow.
    specialize (Hshape row Hrow). specialize (Hspin row Hrow). cbn in Hshape.
    destruct (kinks_of_row_spin J row Hspin) as [_ Hp]; [by intros ->|].
    by rewrite Hp, Hshape. }
  split.
  - intros HJ%Qltb_lt. rewrite HJ in Hrows. by apply Forall_fmap.
  - intros HJ.
    assert (Hp : Qltb J 0 = false).
    { apply not_true_iff_false. intros E%Qltb_lt. by apply Qlt_not_le in E. }
    rewrite Hp in Hrows. by apply Forall_fmap.
Qed.

Lemma kink_stats_parity_witness :
  ((1 < 0)%Q → Forall (fun c => Z.even c = true) [0; 2])
  ∧ ((0 <= 1)%Q →
     Forall (fun c => Z.even c = Z.even (Z.of_nat (shape1 two_samples))) [0; 2]).
Proof.
  apply (kink_stats_parity two_samples 1 [0; 2] (Some (2 # 8))).
  - repeat constructor.
  - unfold spin_samples, two_samples. cbn.
    repeat constructor; (by left) || (by right).
  - reflexivity.
Defined.

Lemma List_last_opp (row : list Z) :
  List.last (Z.opp <$> row) 0 = - List.last row 0.
Proof.
  induction row as [|x [|y row] IH]; [done|done|].
  change (List.last (Z.opp <$> x :: y :: row) 0)
    with (List.last (Z.opp <$> y :: row) 0).
  by rewrite IH.
Qed.

Lemma np_diff_opp (v : list Z) : np_diff (Z.opp <$> v) = Z.opp <$> np_diff v.
Proof.
  induction v as [|p [|x v] IH]; [done|done|].
  rewrite !fmap_cons, !np_diff_cons, fmap_cons. rewrite <- IH.
  rewrite fmap_cons. f_equal. lia.
Qed.

Lemma count_nonzero_opp (v : list Z) :
  count_nonzero (Z.opp <$> v) = count_nonzero v.
Proof.
  induction v as [|d v IH]; [done|].
  rewrite fmap_cons, !count_nonzero_cons, IH.
  destruct (decide (- d = 0)), (decide (d = 0)); lia.
Qed.

Lemma count_zero_opp (v : list Z) : count_zero (Z.opp <$> v) = count_zero v.
Proof.
  induction v as [|d v IH]; [done|].
  rewrite fmap_cons, !count_zero_cons, IH.
  destruct (decide (- d = 0)), (decide (d = 0)); lia.
Qed.

(** X13: [kink_stats] does not tell a sample set from the one with every
    spin turned over: counts and density are the same, for every coupling,
    and so is the [IndexError] on an array without columns. *)
Theorem kink_stats_flip (sampleset : SampleArray) (J : Q) :
  kink_stats (flip_spins sampleset) J = kink_stats sampleset J.
Proof.
  destruct (shape1 sampleset) as [|n] eqn:Hn.
  { unfold kink_stats, last_column, flip_spins. cbn [shape1]. by rewrite Hn. }
  rewrite !kink_stats_unfold by (cbn; lia). cbn zeta.
  cbn [flip_spins shape1 rows].
  assert (Hcounts : ∀ f, (f = count_nonzero ∨ f = count_zero) →
            f <$> ((fun row => np_diff (List.last row 0 :: row))
                     <$> ((fun row : list Z => Z.opp <$> row) <$> rows sampleset))
            = f <$> ((fun row => np_diff (List.last row 0 :: row)) <$> rows sampleset)).
  { intros f Hf. rewrite <- !list_fmap_compose. apply list_fmap_ext.
    intros k row _. unfold compose.
    rewrite List_last_opp, <- fmap_cons, np_diff_opp.
    destruct Hf as [-> | ->]; [apply count_nonzero_opp|apply count_zero_opp]. }
  destruct (Qltb J 0); by rewrite Hcounts by auto.
Qed.

(** X14: [kink_stats] on an array without columns raises [IndexError],
    whatever the coupling and even without rows; on an array with columns
    but without rows it returns no counts and NaN for the density. *)
Theorem kink_stats_empty (sampleset : SampleArray) (J : Q) :
  (shape1 sampleset = 0%nat → kink_stats sampleset J = Raise IndexError)
  ∧ ((0 < shape1 sampleset)%nat → rows sampleset = [] →
     kink_stats sampleset J = Return ([], None)).
Proof.
  split.
  - intros Hn. unfold kink_stats, last_column. by rewrite Hn.
  - intros Hn Hrows. rewrite kink_stats_unfold by done. cbn zeta.
    rewrite Hrows. by destruct (Qltb J 0).
Qed.

Lemma kink_stats_empty_witness :
  kink_stats {| shape1 := 0; rows := [[]; []] |} 1 = Raise IndexError.
Proof.
  apply (kink_stats_empty {| shape1 := 0; rows := [[]; []] |} 1). reflexivity.
Defined.

(** ** Rings of fewer than three spins *)

(** X15: for every coupling strength, [create_bqm] returns the empty model
    when [num_spins] is zero or negative, raises [ValueError] for one spin
    (the only edge is a self-loop), and for two spins returns two variables
    with a single coupling of twice the strength. *)
Theorem create_bqm_small_rings (J : Q) :
  (∀ N, N ≤ 0 → create_bqm N J = Return empty_bqm)
  ∧ create_bqm 1 J = Raise ValueError
  ∧ create_bqm 2 J
    = Return {| variables := [0; 1]; quadratic := {[ (0, 1) := (J + J)%Q ]} |}.
Proof.
  split_and!.
  - intros N HN. unfold create_bqm. by rewrite seqZ_nil.
  - reflexivity.
  - unfold create_bqm.
    change (seqZ 0 2) with [0; 1]. cbn [for_each mbind result_bind].
    unfold add_quadratic at 2.
    change (0 =? (0 + 1) mod 2) with false. cbn iota.
    change (edge_key 0 ((0 + 1) mod 2)) with (0, 1).
    cbn [quadratic variables empty_bqm]. rewrite lookup_empty.
    cbn [mbind result_bind]. unfold add_quadratic.
    change (1 =? (1 + 1) mod 2) with false. cbn iota.
    change (edge_key 1 ((1 + 1) mod 2)) with (0, 1).
    cbn [quadratic variables]. rewrite lookup_insert_eq, insert_insert_eq.
    by rewrite insert_empty.
Qed.

Lemma create_bqm_small_rings_witness : create_bqm (-3) 1 = Return empty_bqm.
Proof. apply (create_bqm_small_rings 1). lia. Defined.

(** ** The embedding search *)

Lemma elem_of_ring_edges (spins u v : Z) :
  (u, v) ∈ (list_to_set ((fun i => (i, (i + 1) mod spins)) <$> seqZ 0 spins)
            : gset (Z * Z))
  ↔ 0 ≤ u < spins ∧ v = (u + 1) mod spins.
Proof.
  rewrite elem_of_list_to_set, list_elem_of_fmap. split.
  - intros (i & [= -> ->] & Hi%elem_of_seqZ). split; [lia|done].
  - intros [Hu ->]. exists u. split; [done|]. apply elem_of_seqZ. lia.
Qed.

(** X16: [find_one_to_one_embedding] makes one call, to the subgraph search,
    with a timeout of 60 and the directed ring as source: an edge from
    every spin [u] of [0 .. spins-1] to [(u+1) mod spins] and nothing
    else.  It raises what the search raises; otherwise it returns, for
    exactly the spins the search mapped, the chain of length one holding
    the qubit found, and the result is empty only if the search's is. *)
Theorem find_one_to_one_embedding_chains (w : World) (spins : Z)
  (sampler_edgelist : list (Z * Z)) :
  ∃ ring : gset (Z * Z),
    (∀ u v, (u, v) ∈ ring ↔ 0 ≤ u < spins ∧ v = (u + 1) mod spins)
    ∧ calls (find_one_to_one_embedding w spins sampler_edgelist)
      = [CallFindSubgraph ring 60]
    ∧ match find_subgraph w ring sampler_edgelist 60 with
      | Raise e =>
          outcome (find_one_to_one_embedding w spins sampler_edgelist) = Raise e
      | Return mapping =>
          ∃ emb,
            outcome (find_one_to_one_embedding w spins sampler_edgelist)
            = Return emb
            ∧ (∀ spin, emb !! spin = (fun qubit => [qubit]) <$> mapping !! spin)
            ∧ (emb = ∅ ↔ mapping = ∅)
      end.
Proof.
  eexists. split_and!.
  - apply elem_of_ring_edges.
  - unfold find_one_to_one_embedding, io_bind, external. cbn.
    by destruct (find_subgraph w _ sampler_edgelist 60).
  - unfold find_one_to_one_embedding, io_bind, external. cbn.
    destruct (find_subgraph w _ sampler_edgelist 60) as [e|mapping]; cbn; [done|].
    eexists. split_and!; [done| |].
    + intros spin. apply lookup_fmap.
    + apply fmap_empty_iff.
Qed.

(** ** The sign of the coupling in the theoretical kink density *)

Lemma abs_opp (x : float) : abs (- x)%float = abs x.
Proof.
  apply Prim2SF_inj. rewrite !abs_spec, opp_spec.
  by destruct (Prim2SF x).
Qed.

(** X17: [theoretical_kink_density] does not depend on the sign of the
    coupling strength: result and exceptions are the same for [J] and
    [-J], whatever the annealing times and the schedule. *)
Theorem theoretical_kink_density_sign (np_power : float → float → float)
  (annealing_times_ns : list float) (J : float) (schedule : list ScheduleRow) :
  theoretical_kink_density np_power annealing_times_ns (- J)%float schedule
  = theoretical_kink_density np_power annealing_times_ns J schedule.
Proof. unfold theoretical_kink_density. by rewrite abs_opp. Qed.

(** ** Dictionaries in insertion order *)

Section PyDictFacts.

Context {K V : Type} `{EqDecision K}.

Lemma dict_setitem_fresh (k : K) (v : V) (d : PyDict K V) :
  k ∉ dict_keys d → dict_setitem k v d = d ++ [(k, v)].
Proof.
  unfold dict_keys. induction d as [|[k' v'] d IH]; [done|].
  cbn [fmap list_fmap fst]. rewrite not_elem_of_cons. intros [Hne Hk].
  cbn [dict_setitem]. rewrite decide_False by done. cbn. by rewrite IH.
Qed.

Lemma dict_lookup_setitem (k k' : K) (v : V) (d : PyDict K V) :
  dict_lookup k (dict_setitem k' v d)
  = if decide (k = k') then Some v else dict_lookup k d.
Proof.
  induction d as [|[k0 v0] d IH]; cbn [dict_setitem dict_lookup].
  - by destruct (decide (k = k')).
  - destruct (decide (k' = k0)) as [->|Hne]; cbn [dict_lookup].
    + by destruct (decide (k = k0)).
    + rewrite IH. destruct (decide (k = k0)) as [->|]; [|done].
      by rewrite decide_False.
Qed.

Lemma dict_keys_setitem (k : K) (v : V) (d : PyDict K V) :
  dict_keys (dict_setitem k v d)
  = if decide (k ∈ dict_keys d) then dict_keys d else dict_keys d ++ [k].
Proof.
  unfold dict_keys. induction d as [|[k0 v0] d IH]; [done|].
  cbn [dict_setitem]. destruct (decide (k = k0)) as [->|Hne].
  - cbn. rewrite decide_True; [done|]. by left.
  - cbn [fmap list_fmap fst]. rewrite IH.
    destruct (decide (k ∈ d.*1)) as [Hin|Hin].
    + rewrite decide_True; [done|]. by right.
    + rewrite decide_False; [done|]. rewrite not_elem_of_cons. done.
Qed.

Lemma dict_lookup_Some_keys (k : K) (v : V) (d : PyDict K V) :
  dict_lookup k d = Some v → k ∈ dict_keys d.
Proof.
  unfold dict_keys. induction d as [|[k0 v0] d IH]; [done|].
  cbn. destruct (decide (k = k0)) as [->|Hne]; [by left|].
  intros Hd. right. by apply IH.
Qed.

End PyDictFacts.

(** ** The keys of a cache that comes back from JSON *)

Section JsonToDictFacts.

Variable int : string → result Z.

Lemma with_int_keys_cons {V W : Type} (convert : V → result W)
  (key : string) (value : V) (items : PyDict string V) (acc : PyDict Z W) :
  for_each (fun acc '(key, value) =>
              k ← int key; w ← convert value; Return (dict_setitem k w acc))
    ((key, value) :: items) acc
  = k ← int key; w ← convert value;
    for_each (fun acc '(key, value) =>
                k ← int key; w ← convert value; Return (dict_setitem k w acc))
      items (dict_setitem k w acc).
Proof.
  cbn [for_each]. destruct (int key) as [e|k]; [done|]. cbn.
  by destruct (convert value).
Qed.

Lemma with_int_keys_returns {V W : Type} (convert : V → result W)
  (items : PyDict string V) (acc d : PyDict Z W) :
  for_each (fun acc '(key, value) =>
              k ← int key; w ← convert value; Return (dict_setitem k w acc))
    items acc = Return d →
  Forall (fun item => (∃ k, int item.1 = Return k)
                      ∧ ∃ w, convert item.2 = Return w) items.
Proof.
  revert acc. induction items as [|[key value] items IH]; intros acc; [done|].
  rewrite with_int_keys_cons.
  destruct (int key) as [|k] eqn:Hk; [done|]. cbn [mbind result_bind].
  destruct (convert value) as [|w] eqn:Hw; [done|]. cbn [mbind result_bind].
  intros Hrest. constructor; [|by eapply IH]. cbn. eauto.
Qed.

Lemma with_int_keys_distinct {V W : Type} (convert : V → result W)
  (n : string → Z) (c : V → W) (items : PyDict string V) (acc : PyDict Z W) :
  Forall (fun item => int item.1 = Return (n item.1)
                      ∧ convert item.2 = Return (c item.2)) items →
  NoDup (dict_keys acc ++ (n <$> dict_keys items)) →
  for_each (fun acc '(key, value) =>
              k ← int key; w ← convert value; Return (dict_setitem k w acc))
    items acc
  = Return (acc ++ ((fun item => (n item.1, c item.2)) <$> items)).
Proof.
  revert acc. induction items as [|[key value] items IH]; intros acc Hall Hnd.
  { cbn. by rewrite app_nil_r. }
  inversion Hall as [|? ? [Hk Hw] Hall']; subst. cbn [fst snd] in Hk, Hw.
  rewrite with_int_keys_cons, Hk, Hw. cbn [mbind result_bind].
  unfold dict_keys in Hnd. cbn [fmap list_fmap fst] in Hnd.
  assert (Hfresh : n key ∉ dict_keys acc).
  { apply NoDup_app in Hnd as (_ & Hdis & _). intros Hin.
    apply (Hdis _ Hin). by left. }
  rewrite dict_setitem_fresh by done.
  rewrite IH; [by rewrite <- app_assoc|done|].
  unfold dict_keys. rewrite fmap_app. cbn [fmap list_fmap fst].
  by rewrite <- app_assoc.
Qed.

(** X18: [json_to_dict] returns only if [int] accepts every key of the cache
    and of every embedding in it.  When [int] reads the keys as numbers
    that are distinct within each dictionary, the result is the cache with
    every key of both levels replaced by its number: the order of the
    items and the chains of qubits are kept. *)
Theorem json_to_dict_int_keys (emb_json : JsonEmbeddings) :
  (∀ d, json_to_dict int emb_json = Return d →
        Forall (fun key => ∃ k, int key = Return k) (json_keys emb_json))
  ∧ (∀ n : string → Z,
       Forall (fun key => int key = Return (n key)) (json_keys emb_json) →
       NoDup (n <$> dict_keys emb_json) →
       Forall (fun item => NoDup (n <$> dict_keys item.2)) emb_json →
       json_to_dict int emb_json = Return (rename_keys n emb_json)).
Proof.
  unfold json_to_dict, with_int_keys, json_keys. split.
  - intros d Hd%with_int_keys_returns.
    apply Forall_app. split.
    + unfold dict_keys. apply Forall_fmap.
      eapply Forall_impl; [exact Hd|]. by intros item [Hk _].
    + apply Forall_concat, Forall_fmap.
      eapply Forall_impl; [exact Hd|]. intros [key emb] [_ [w Hw]].
      cbn [snd] in *. apply with_int_keys_returns in Hw.
      unfold dict_keys. apply Forall_fmap.
      eapply Forall_impl; [exact Hw|]. by intros item [Hk _].
  - intros n Hkeys Hnd Hinner.
    apply Forall_app in Hkeys as [Houter Hin].
    rewrite (with_int_keys_distinct _ n (rename_chains n)); [done| |done].
    unfold dict_keys in Houter. rewrite Forall_fmap in Houter.
    rewrite Forall_concat, Forall_fmap in Hin.
    rewrite Forall_forall in Houter, Hin, Hinner. apply Forall_forall.
    intros [key emb] Hitem. split; [by apply (Houter _ Hitem)|]. cbn [snd].
    specialize (Hin _ Hitem). specialize (Hinner _ Hitem). cbn [snd compose] in *.
    rewrite (with_int_keys_distinct _ n (fun qubits => qubits)); [done| |done].
    unfold dict_keys in Hin. rewrite Forall_fmap in Hin.
    eapply Forall_impl; [exact Hin|]. by intros item Hk.
Qed.

End JsonToDictFacts.

Lemma json_to_dict_int_keys_witness :
  json_to_dict decimal_int cached_four
  = Return [(4, [(0, [10]); (1, [11]); (2, [12]); (3, [13])])].
Proof.
  apply (proj2 (json_to_dict_int_keys decimal_int cached_four) decimal_value).
  - vm_compute. repeat constructor.
  - vm_compute. repeat constructor. apply not_elem_of_nil.
  - vm_compute. repeat constructor; rewrite ?not_elem_of_cons;
      repeat split; try discriminate; apply not_elem_of_nil.
Defined.

(** ** The samples of a job *)

(** X19: [get_samples] raises [ValueError] for a ring of one spin before it
    looks for samples.  A job id that holds a serialized sample set is read
    from the id itself: the result does not depend on the client.  For any
    other job id and a client that is not configured, it raises
    [AttributeError] once the model of the ring is built. *)
Theorem get_samples_source (src : SampleSource) (client : Client) (job : string)
  (num_spins : Z) (J : Q) (embedding : Chains) :
  (num_spins = 1 → get_samples src client job num_spins J embedding = Raise ValueError)
  ∧ (contains job sampleset_marker = true →
     ∀ other : Client,
       get_samples src other job num_spins J embedding
       = get_samples src client job num_spins J embedding)
  ∧ (contains job sampleset_marker = false → client ≠ QpuClient →
     ∀ bqm, create_bqm num_spins J = Return bqm →
            get_samples src client job num_spins J embedding = Raise AttributeError).
Proof.
  unfold get_samples. split_and!.
  - by intros ->.
  - by intros ->.
  - intros -> Hclient bqm ->. by destruct client.
Qed.

Lemma get_samples_source_witness :
  get_samples sample_source DummyClient "2" 4 1 [] = Raise AttributeError.
Proof.
  refine (proj2 (proj2 (get_samples_source sample_source DummyClient "2" 4 1 []))
            _ _ _ _).
  - vm_compute. reflexivity.
  - discriminate.
  - reflexivity.
Defined.

(** ** The sample drawn on the ring *)

Lemma argmin_from_spec (v : list Q) (i bi : nat) (m : Q) :
  let r := argmin_from i (bi, Some m) (Some <$> v) in
  (r = bi ∧ ∀ y, y ∈ v → (m <= y)%Q)
  ∨ (∃ k y, r = (i + k)%nat ∧ v !! k = Some y ∧ (y < m)%Q
            ∧ ∀ j z, v !! j = Some z → (y <= z)%Q ∧ ((j < k)%nat → (y < z)%Q)).
Proof.
  revert i bi m. induction v as [|y v IH]; intros i bi m; cbn zeta.
  { left. split; [done|]. intros y Hy. by apply elem_of_nil in Hy. }
  cbn [fmap list_fmap argmin_from snd fst].
  destruct (Qltb y m) eqn:Hlt.
  - apply Qltb_lt in Hlt.
    destruct (IH (S i) i y) as [[-> Hall]|(k & y' & -> & Hk & Hy' & Hmin)].
    + right. exists 0%nat, y. split_and!; [lia|done|done|].
      intros [|j] z Hz; cbn in Hz.
      * injection Hz as <-. split; [lra|lia].
      * split; [|lia]. apply Hall. by eapply list_elem_of_lookup_2.
    + right. exists (S k), y'. split_and!; [lia|done|lra|].
      intros [|j] z Hz; cbn in Hz.
      * injection Hz as <-. split; [lra|intros _; lra].
      * destruct (Hmin j z Hz) as [H1 H2]. split; [done|]. intros Hj. apply H2. lia.
  - assert (Hge : (m <= y)%Q).
    { apply Qnot_lt_le. intros H%Qltb_lt. congruence. }
    destruct (IH (S i) bi m) as [[-> Hall]|(k & y' & -> & Hk & Hy' & Hmin)].
    + left. split; [done|]. intros z [->|Hz]%elem_of_cons; [done|by apply Hall].
    + right. exists (S k), y'. split_and!; [lia|done|done|].
      intros [|j] z Hz; cbn in Hz.
      * injection Hz as <-. split; [lra|intros _; lra].
      * destruct (Hmin j z Hz) as [H1 H2]. split; [done|]. intros Hj. apply H2. lia.
Qed.

Lemma np_argmin_spec (v : list Q) :
  v ≠ [] →
  ∃ r y, np_argmin (Some <$> v) = Return r ∧ v !! r = Some y
         ∧ ∀ j z, v !! j = Some z → (y <= z)%Q ∧ ((j < r)%nat → (y < z)%Q).
Proof.
  destruct v as [|x v]; [done|]. intros _. cbn [fmap list_fmap np_argmin].
  destruct (argmin_from_spec v 1 0 x) as [[Hr Hall]|(k & y & Hr & Hk & Hy & Hmin)];
    cbn zeta in Hr; rewrite Hr.
  - exists 0%nat, x. split_and!; [done|done|].
    intros [|j] z Hz; cbn in Hz.
    + injection Hz as <-. split; [lra|lia].
    + split; [|lia]. apply Hall. by eapply list_elem_of_lookup_2.
  - exists (S k), y. split_and!; [done|done|].
    intros [|j] z Hz; cbn in Hz.
    + injection Hz as <-. split; [lra|intros _; lra].
    + destruct (Hmin j z Hz) as [H1 H2]. split; [done|]. intros Hj. apply H2. lia.
Qed.

Lemma sumZ_upper (N : Z) (v : list Z) :
  Forall (fun c => c ≤ N) v → sumZ v ≤ Z.of_nat (length v) * N.
Proof.
  induction 1 as [|c v Hc _ IH]; [done|]. cbn [sumZ foldr length] in *.
  fold (sumZ v). lia.
Qed.

Lemma sumZ_lower (v : list Z) : Forall (fun c => 0 ≤ c) v → 0 ≤ sumZ v.
Proof.
  induction 1 as [|c v Hc _ IH]; [done|]. cbn [sumZ foldr] in *. fold (sumZ v). lia.
Qed.

Lemma sumZ_upper_elem (N c0 : Z) (v : list Z) :
  Forall (fun c => c ≤ N) v → c0 ∈ v →
  sumZ v ≤ (Z.of_nat (length v) - 1) * N + c0.
Proof.
  intros Hall Hin. induction Hall as [|c v Hc Hall IH]; [by apply elem_of_nil in Hin|].
  cbn [sumZ foldr length]. fold (sumZ v).
  apply elem_of_cons in Hin as [->|Hin].
  - pose proof (sumZ_upper N v Hall). lia.
  - specialize (IH Hin). lia.
Qed.

(** The mean kink density of counts between [0] and [N] lies between [0]
    and [1], and below [1] when some count is [0]. *)
Lemma density_bounds (N : Z) (v : list Z) :
  0 < N → v ≠ [] → Forall (fun c => 0 ≤ c ≤ N) v →
  let d := (inject_Z (sumZ v) / inject_Z (Z.of_nat (length v)) / inject_Z N)%Q in
  (0 <= d)%Q ∧ (d <= 1)%Q ∧ (0 ∈ v → (d < 1)%Q).
Proof.
  intros HN Hv Hall d.
  assert (Hn : 0 < Z.of_nat (length v)) by (destruct v; [done|cbn; lia]).
  assert (HnQ : (0 < inject_Z (Z.of_nat (length v)))%Q)
    by (rewrite <- (Zlt_Qlt 0); done).
  assert (HNQ : (0 < inject_Z N)%Q) by (rewrite <- (Zlt_Qlt 0); done).
  assert (Hlo : 0 ≤ sumZ v).
  { apply sumZ_lower. eapply Forall_impl; [exact Hall|]. cbn. lia. }
  assert (Hup : Forall (fun c => c ≤ N) v).
  { eapply Forall_impl; [exact Hall|]. cbn. lia. }
  unfold d. split_and!.
  - apply Qle_shift_div_l; [done|]. apply Qle_shift_div_l; [done|].
    rewrite !Qmult_0_l. by rewrite <- (Zle_Qle 0).
  - apply Qle_shift_div_r; [done|]. apply Qle_shift_div_r; [done|].
    rewrite Qmult_1_l, <- inject_Z_mult, <- Zle_Qle.
    pose proof (sumZ_upper N v Hup). lia.
  - intros H0.
    apply Qlt_shift_div_r; [done|]. apply Qlt_shift_div_r; [done|].
    rewrite Qmult_1_l, <- inject_Z_mult, <- Zlt_Qlt.
    pose proof (sumZ_upper_elem N 0 v Hup H0). nia.
Qed.

(** Among counts of one parity the distance to a density of at most one
    grows with the count. *)
Lemma deviation_monotone (d : Q) (c c' : Z) :
  (0 <= d)%Q → (d <= 1)%Q → (c = 0 → (d < 1)%Q) →
  0 ≤ c → c < c' → Z.even c = Z.even c' →
  (Qabs (inject_Z c - d) < Qabs (inject_Z c' - d))%Q.
Proof.
  intros Hd0 Hd1 Hstrict Hc Hlt Hpar.
  assert (Hstep : c + 2 ≤ c').
  { destruct (decide (c' = c + 1)) as [->|]; [|lia].
    rewrite Z.even_add in Hpar. by destruct (Z.even c). }
  assert (Hstep' : (inject_Z c + 2 <= inject_Z c')%Q).
  { change 2%Q with (inject_Z 2). rewrite <- inject_Z_plus. by rewrite <- Zle_Qle. }
  assert (Hc'd : (0 <= inject_Z c' - d)%Q).
  { assert (0 <= inject_Z c)%Q by (by rewrite <- (Zle_Qle 0)). lra. }
  rewrite (Qabs_pos (inject_Z c' - d)) by done.
  destruct (decide (c = 0)) as [->|Hne].
  - specialize (Hstrict eq_refl).
    rewrite Qabs_neg by (change (inject_Z 0) with 0%Q; lra).
    change (inject_Z 0) with 0%Q in *. lra.
  - assert (H1 : (1 <= inject_Z c)%Q).
    { change 1%Q with (inject_Z 1). rewrite <- Zle_Qle. lia. }
    rewrite Qabs_pos by lra. lra.
Qed.

Lemma first_least_count (counts : list Z) (N : Z) (p : bool) :
  0 < N → counts ≠ [] →
  Forall (fun c => 0 ≤ c ≤ N ∧ Z.even c = p) counts →
  ∃ r c,
    np_argmin (deviations counts
                 ((fun m => m / inject_Z N)%Q <$> np_mean counts)) = Return r
    ∧ counts !! r = Some c
    ∧ ∀ j c', counts !! j = Some c' → c ≤ c' ∧ ((j < r)%nat → c < c').
Proof.
  intros HN Hne Hall.
  rewrite np_mean_nonempty by done. cbn [fmap option_fmap option_map].
  set (d := (inject_Z (sumZ counts) / inject_Z (Z.of_nat (length counts))
             / inject_Z N)%Q).
  destruct (density_bounds N counts HN Hne) as (Hd0 & Hd1 & Hd).
  { eapply Forall_impl; [exact Hall|]. by intros c [? _]. }
  fold d in Hd0, Hd1, Hd.
  unfold deviations. cbn [fmap option_fmap option_map].
  set (f := fun c : Z => Qabs (inject_Z c - d)).
  replace ((fun kinks : Z => Some (Qabs (inject_Z kinks - d))) <$> counts)
    with (Some <$> (f <$> counts)) by (by rewrite <- list_fmap_compose).
  destruct (np_argmin_spec (f <$> counts)) as (r & y & Hr & Hy & Hmin).
  { by destruct counts. }
  rewrite list_lookup_fmap in Hy.
  destruct (counts !! r) as [c|] eqn:Hc; [|done]. injection Hy as <-.
  exists r, c. split_and!; [done|done|].
  intros j c' Hc'.
  assert (Hfc' : (f <$> counts) !! j = Some (f c'))
    by (by rewrite list_lookup_fmap, Hc').
  destruct (Hmin j (f c') Hfc') as [Hle Hlt].
  rewrite Forall_lookup in Hall.
  destruct (Hall r c Hc) as [Hcr Hcp]. destruct (Hall j c' Hc') as [Hcr' Hcp'].
  assert (Hcc : c ≤ c').
  { destruct (decide (c ≤ c')) as [|Hn]; [done|]. exfalso.
    assert (Hlt' : (f c' < f c)%Q).
    { apply deviation_monotone; [done|done| |lia|lia|congruence].
      intros ->. apply Hd. by eapply list_elem_of_lookup_2. }
    lra. }
  split; [done|]. intros Hj. specialize (Hlt Hj).
  destruct (decide (c = c')) as [->|]; [lra|lia].
Qed.

(** X20: when a job completes, [display_graphics_spin_ring] draws a sample of
    the job.  For samples of spins, one row per sample, it is the first of
    the samples with the fewest kinks: the distance of the kink count to
    the mean kink density, which is at most one, is least where the count
    is. *)
Theorem display_graphics_spin_ring_best_sample (int : string → result Z)
  (src : SampleSource) (client : Client) (spins : Z) (job : string) (J : Q)
  (embeddings_cached : JsonEmbeddings) (fig : Figure) :
  display_graphics_spin_ring int src client (Some "job_submit_state") spins
    "COMPLETED" job J embeddings_cached = Return fig →
  (∀ embedding samples,
     get_samples src client job spins J embedding = Return samples →
     well_shaped samples ∧ spin_samples samples) →
  ∃ cache embedding samples best row,
    json_to_dict int embeddings_cached = Return cache
    ∧ dict_getitem spins cache = Return embedding
    ∧ get_samples src client job spins J embedding = Return samples
    ∧ rows samples !! best = Some row
    ∧ fig = plot_spin_orientation spins (Some row)
    ∧ ∀ j other, rows samples !! j = Some other →
        kinks_of_row J row ≤ kinks_of_row J other
        ∧ ((j < best)%nat → kinks_of_row J row < kinks_of_row J other).
Proof.
  intros Hrun Hsamples. unfold display_graphics_spin_ring in Hrun.
  cbn [triggered_is] in Hrun.
  change (String.eqb "job_submit_state" "job_submit_state") with true in Hrun.
  change (String.eqb "COMPLETED" "COMPLETED") with true in Hrun.
  cbn [negb] in Hrun.
  destruct (json_to_dict int embeddings_cached) as [|cache] eqn:Hcache; [done|].
  cbn [mbind result_bind] in Hrun.
  destruct (dict_getitem spins cache) as [|embedding] eqn:Hemb; [done|].
  cbn [mbind result_bind] in Hrun.
  destruct (get_samples src client job spins J embedding) as [|samples] eqn:Hget;
    [done|].
  cbn [mbind result_bind] in Hrun.
  destruct (Hsamples embedding samples Hget) as [Hshape Hspin].
  destruct (shape1 samples) as [|n] eqn:Hn.
  { unfold kink_stats, last_column in Hrun. by rewrite Hn in Hrun. }
  rewrite kink_stats_counts in Hrun by lia. cbn [mbind result_bind] in Hrun.
  destruct (rows samples) as [|row0 rest] eqn:Hrows; [done|].
  rewrite <- Hrows in *.
  destruct (first_least_count (kinks_of_row J <$> rows samples)
              (Z.of_nat (shape1 samples))
              (if Qltb J 0 then true else Z.even (Z.of_nat (shape1 samples))))
    as (best & c & Hbest & Hc & Hmin).
  { lia. }
  { by rewrite Hrows. }
  { apply Forall_fmap. unfold well_shaped, spin_samples in *.
    rewrite Forall_forall in Hshape, Hspin. apply Forall_forall. intros row Hrow.
    specialize (Hshape row Hrow). specialize (Hspin row Hrow). cbn in Hshape.
    destruct (kinks_of_row_spin J row Hspin) as [Hb Hp].
    { intros ->. cbn in Hshape. lia. }
    cbn. by rewrite <- Hshape. }
  rewrite Hbest in Hrun. cbn [mbind result_bind] in Hrun.
  rewrite list_lookup_fmap in Hc.
  destruct (rows samples !! best) as [row|] eqn:Hrow; [|done].
  injection Hc as <-. cbn [mbind result_bind] in Hrun. injection Hrun as <-.
  exists cache, embedding, samples, best, row. split_and!; try done.
  intros j other Hother. apply Hmin. by rewrite list_lookup_fmap, Hother.
Qed.

Lemma display_graphics_spin_ring_best_sample_witness :
  ∃ cache embedding samples best row,
    json_to_dict decimal_int cached_four = Return cache
    ∧ dict_getitem 4 cache = Return embedding
    ∧ get_samples sample_source QpuClient "2" 4 (-1) embedding = Return samples
    ∧ rows samples !! best = Some row
    ∧ plot_spin_orientation 4 (Some [1; 1; -1; -1])
      = plot_spin_orientation 4 (Some row)
    ∧ ∀ j other, rows samples !! j = Some other →
        kinks_of_row (-1) row ≤ kinks_of_row (-1) other
        ∧ ((j < best)%nat → kinks_of_row (-1) row < kinks_of_row (-1) other).
Proof.
  apply (display_graphics_spin_ring_best_sample decimal_int sample_source
           QpuClient 4 "2" (-1) cached_four
           (plot_spin_orientation 4 (Some [1; 1; -1; -1]))).
  - vm_compute. reflexivity.
  - intros embedding samples Hget.
    assert (Hs : samples = two_samples).
    { unfold get_samples in Hget.
      replace (contains "2" sampleset_marker) with false in Hget
        by (vm_compute; reflexivity).
      destruct (create_bqm 4 (-1)); [done|]. cbn in Hget. congruence. }
    rewrite Hs. split.
    + repeat constructor.
    + unfold spin_samples, two_samples. cbn.
      repeat constructor; (by left) || (by right).
Defined.

(** ** The schedule file of the selected QPU *)

Lemma append_cons (c : Ascii.ascii) (a b : string) :
  String c a +:+ b = String c (a +:+ b).
Proof. reflexivity. Qed.

Lemma append_assoc (a b c : string) : (a +:+ b) +:+ c = a +:+ (b +:+ c).
Proof.
  induction a as [|x a IH]; [done|]. by rewrite !append_cons, IH.
Qed.

Lemma prefix_app (a s : string) :
  String.prefix a s = true ↔ ∃ b, s = a +:+ b.
Proof.
  revert s. induction a as [|c a IH]; intros s.
  - split; [intros _; by exists s|intros _; by destruct s].
  - destruct s as [|c' s]; cbn [String.prefix].
    + split; [done|]. by intros [b Hb].
    + destruct (Ascii.ascii_dec c c') as [->|Hne].
      * rewrite IH. split; intros [b Hb]; exists b.
        -- by rewrite Hb.
        -- rewrite append_cons in Hb. by injection Hb.
      * split; [done|]. intros [b Hb]. rewrite append_cons in Hb. by injection Hb.
Qed.

Lemma contains_app (s sub : string) :
  contains s sub = true ↔ ∃ a b, s = a +:+ sub +:+ b.
Proof.
  induction s as [|c s IH].
  - cbn [contains]. rewrite orb_false_r, prefix_app. split.
    + intros [b Hb]. by exists "", b.
    + intros ([|? a] & b & Hab); [by exists b|done].
  - cbn [contains]. rewrite orb_true_iff, prefix_app, IH. split.
    + intros [[b Hb]|(a & b & Hab)].
      * by exists "", b.
      * exists (String c a), b. by rewrite Hab.
    + intros ([|c' a] & b & Hab).
      * left. by exists b.
      * right. rewrite append_cons in Hab. injection Hab as -> ->. by exists a, b.
Qed.

Lemma contains_prefix_of (file q family rest : string) :
  q = family +:+ rest → contains file q = true → contains file family = true.
Proof.
  intros -> (a & b & ->)%contains_app. apply contains_app.
  exists a, (rest +:+ b). by rewrite append_assoc.
Qed.

Lemma split_aux_head (sep : string) (s acc : string) :
  sep ≠ "" →
  ∃ pre post pieces,
    s = pre +:+ post
    ∧ contains pre sep = false
    ∧ (post = "" ∨ String.prefix sep post = true)
    ∧ split_aux sep 0 acc s = String.rev_app acc pre :: pieces.
Proof.
  intros Hsep. revert acc. induction s as [|c s IH]; intros acc.
  - exists "", "", []. split_and!; [done|by destruct sep|by left|done].
  - cbn [split_aux]. destruct (String.prefix sep (String c s)) eqn:Hpre.
    + exists "", (String c s), (split_aux sep (String.length sep - 1) "" s).
      split_and!; [done|by destruct sep|by right|done].
    + destruct (IH (String c acc)) as (pre & post & pieces & -> & Hno & Hpost & Hsplit).
      exists (String c pre), post, pieces. split_and!; [done| |done|by rewrite Hsplit].
      cbn [contains]. rewrite Hno, orb_false_r.
      apply not_true_iff_false. intros [b Hb]%prefix_app.
      apply not_true_iff_false in Hpre. apply Hpre, prefix_app.
      exists (b +:+ post). by rewrite <- append_assoc, <- Hb.
Qed.

Lemma split_head (s sep : string) :
  sep ≠ "" →
  ∃ family rest,
    split s sep !! 0%nat = Some family
    ∧ s = family +:+ rest
    ∧ contains family sep = false
    ∧ (rest = "" ∨ String.prefix sep rest = true).
Proof.
  intros Hsep. unfold split.
  destruct (split_aux_head sep s "" Hsep) as (pre & post & pieces & Hs & ? & ? & ->).
  by exists pre, post.
Qed.

Lemma for_each_pure {S A : Type} (f : S → A → S) (xs : list A) (s : S) :
  for_each (fun s x => Return (f s x)) xs s = Return (foldl f s xs).
Proof. revert s. induction xs as [|x xs IH]; intros s; [done|]. cbn. apply IH. Qed.

(** The loop of [set_schedule] over the schedule files among [files]. *)
Lemma set_schedule_loop (family qpu_name : string) (files : list string) :
  (∀ file, contains file qpu_name = true → contains file family = true) →
  ∃ name style,
    foldl (fun '(schedule_filename, schedule_filename_style) filename =>
             if contains filename family then
               if contains filename qpu_name
               then (filename, {| color := "white"; fontSize := 12 |})
               else (filename, schedule_filename_style)
             else (schedule_filename, schedule_filename_style))
      ("FALLBACK_SCHEDULE.csv", {| color := "red"; fontSize := 12 |})
      (filter is_schedule_file files)
    = (name, style)
    ∧ (style = {| color := "white"; fontSize := 12 |}
       ∧ (∃ file, file ∈ files ∧ is_schedule_file file
                  ∧ contains file qpu_name = true)
       ∨ style = {| color := "red"; fontSize := 12 |}
         ∧ (∀ file, file ∈ files → is_schedule_file file →
                    contains file qpu_name = false))
    ∧ (name = "FALLBACK_SCHEDULE.csv"
       ∧ (∀ file, file ∈ files → is_schedule_file file →
                  contains file family = false)
       ∨ ∃ before after,
           files = before ++ name :: after
           ∧ is_schedule_file name
           ∧ contains name family = true
           ∧ ∀ file, file ∈ after → is_schedule_file file →
                     contains file family = false).
Proof.
  intros Hfamily. induction files as [|x files IH] using rev_ind.
  { eexists _, _. split; [done|]. split.
    - right. split; [done|]. intros file Hin. by apply elem_of_nil in Hin.
    - left. split; [done|]. intros file Hin. by apply elem_of_nil in Hin. }
  destruct IH as (name & style & Hfold & Hstyle & Hname).
  rewrite filter_app, foldl_app, Hfold.
  destruct (decide (is_schedule_file x)) as [Hx|Hx].
  - rewrite filter_cons_True by done. rewrite filter_nil. cbn [foldl].
    destruct (contains x family) eqn:Hfam.
    + (* the file is taken *)
      assert (Htaken : ∃ before after,
                (files ++ [x]) = before ++ x :: after
                ∧ is_schedule_file x ∧ contains x family = true
                ∧ ∀ file, file ∈ after → is_schedule_file file →
                          contains file family = false).
      { exists files, []. split_and!; [done|done|done|].
        intros file Hin. by apply elem_of_nil in Hin. }
      destruct (contains x qpu_name) eqn:Hq.
      * eexists _, _. split; [done|]. split; [|by right].
        left. split; [done|]. exists x. rewrite elem_of_app, list_elem_of_singleton.
        auto.
      * eexists _, _. split; [done|]. split; [|by right].
        destruct Hstyle as [[-> (file & Hin & Hs & Hc)]|[-> Hnone]].
        -- left. split; [done|]. exists file. rewrite elem_of_app. auto.
        -- right. split; [done|]. intros file [Hin| ->%list_elem_of_singleton]%elem_of_app;
             [by apply Hnone|done].
    + assert (Hq : contains x qpu_name = false).
      { apply not_true_iff_false. intros Hq%Hfamily. congruence. }
      eexists _, _. split; [done|]. split.
      * destruct Hstyle as [[-> (file & Hin & Hs & Hc)]|[-> Hnone]].
        -- left. split; [done|]. exists file. rewrite elem_of_app. auto.
        -- right. split; [done|]. intros file [Hin| ->%list_elem_of_singleton]%elem_of_app;
             [by apply Hnone|done].
      * destruct Hname as [[-> Hnone]|(before & after & -> & Hs & Hc & Hafter)].
        -- left. split; [done|]. intros file [Hin| ->%list_elem_of_singleton]%elem_of_app;
             [by apply Hnone|done].
        -- right. exists before, (after ++ [x]). split_and!; [|done|done|].
           ++ by rewrite <- app_assoc.
           ++ intros file [Hin| ->%list_elem_of_singleton]%elem_of_app;
                [by apply Hafter|done].
  - rewrite filter_cons_False by done. rewrite filter_nil. cbn [foldl].
    eexists _, _. split; [done|]. split.
    + destruct Hstyle as [[-> (file & Hin & Hs & Hc)]|[-> Hnone]].
      * left. split; [done|]. exists file. rewrite elem_of_app. auto.
      * right. split; [done|]. intros file [Hin| ->%list_elem_of_singleton]%elem_of_app;
          [by apply Hnone|done].
    + destruct Hname as [[-> Hnone]|(before & after & -> & Hs & Hc & Hafter)].
      * left. split; [done|]. intros file [Hin| ->%list_elem_of_singleton]%elem_of_app;
          [by apply Hnone|done].
      * right. exists before, (after ++ [x]). split_and!; [|done|done|].
        -- by rewrite <- app_assoc.
        -- intros file [Hin| ->%list_elem_of_singleton]%elem_of_app;
             [by apply Hafter|done].
Qed.

Lemma for_each_ext {S A : Type} (f g : S → A → result S) (xs : list A) (s : S) :
  (∀ s x, f s x = g s x) → for_each f xs s = for_each g xs s.
Proof.
  intros Hfg. revert s. induction xs as [|x xs IH]; intros s; [done|].
  cbn [for_each]. rewrite Hfg. destruct (g s x); [done|]. apply IH.
Qed.

Lemma set_schedule_unfold (files : list string) (triggered_id : option string)
  (qpu_name family : string) :
  truthy_id triggered_id = true →
  split qpu_name "." !! 0%nat = Some family →
  set_schedule (Return files) triggered_id qpu_name
  = Return
      (foldl (fun '(schedule_filename, schedule_filename_style) filename =>
                if contains filename family then
                  if contains filename qpu_name
                  then (filename, {| color := "white"; fontSize := 12 |})
                  else (filename, schedule_filename_style)
                else (schedule_filename, schedule_filename_style))
         ("FALLBACK_SCHEDULE.csv", {| color := "red"; fontSize := 12 |})
         (filter is_schedule_file files)).
Proof.
  intros Htrig Hfamily. unfold set_schedule. rewrite Htrig, Hfamily.
  cbn [mbind result_bind]. rewrite <- for_each_pure.
  apply for_each_ext. intros [name style] filename. cbn [mbind result_bind].
  by destruct (contains filename family), (contains filename qpu_name).
Qed.

(** X21: [set_schedule] without a trigger returns the fallback name in red,
    and raises what the listing of the folder raises.  Otherwise, with
    [family] the part of [qpu_name] before its first dot, and among the
    listed files whose lower-cased name contains ["schedule.csv"]: the
    name returned is the last one that contains [family], the fallback
    when there is none; the style is white when some such file contains
    [qpu_name] itself, whichever it is, and red when none does. *)
Theorem set_schedule_choice (listdir : result (list string))
  (triggered_id : option string) (qpu_name : string) :
  let fallback := "FALLBACK_SCHEDULE.csv" in
  let red := {| color := "red"; fontSize := 12 |} in
  let white := {| color := "white"; fontSize := 12 |} in
  (truthy_id triggered_id = false →
   set_schedule listdir triggered_id qpu_name = Return (fallback, red))
  ∧ (truthy_id triggered_id = true →
     ∀ e, listdir = Raise e →
          set_schedule listdir triggered_id qpu_name = Raise e)
  ∧ (truthy_id triggered_id = true →
     ∀ files, listdir = Return files →
     ∃ family rest name style,
       qpu_name = family +:+ rest
       ∧ contains family "." = false
       ∧ (rest = "" ∨ String.prefix "." rest = true)
       ∧ set_schedule listdir triggered_id qpu_name = Return (name, style)
       ∧ (style = white
          ∧ (∃ file, file ∈ files ∧ is_schedule_file file
                     ∧ contains file qpu_name = true)
          ∨ style = red
            ∧ (∀ file, file ∈ files → is_schedule_file file →
                       contains file qpu_name = false))
       ∧ (name = fallback
          ∧ (∀ file, file ∈ files → is_schedule_file file →
                     contains file family = false)
          ∨ ∃ before after,
              files = before ++ name :: after
              ∧ is_schedule_file name
              ∧ contains name family = true
              ∧ ∀ file, file ∈ after → is_schedule_file file →
                        contains file family = false)).
Proof.
  intros fallback red white. split_and!.
  - intros Htrig. unfold set_schedule. by rewrite Htrig.
  - intros Htrig e ->. unfold set_schedule. by rewrite Htrig.
  - intros Htrig files ->.
    destruct (split_head qpu_name ".") as (family & rest & Hsplit & Hq & Hno & Hrest);
      [done|].
    destruct (set_schedule_loop family qpu_name files)
      as (name & style & Hfold & Hstyle & Hname).
    { intros file. by apply contains_prefix_of with rest. }
    exists family, rest, name, style.
    rewrite (set_schedule_unfold files triggered_id qpu_name family) by done.
    rewrite Hfold. done.
Qed.

Lemma set_schedule_choice_witness :
  ∃ family rest name style,
    "Advantage_system4.3" = family +:+ rest
    ∧ contains family "." = false
    ∧ (rest = "" ∨ String.prefix "." rest = true)
    ∧ set_schedule (Return helpers_listing) (Some "qpu_selection")
        "Advantage_system4.3" = Return (name, style)
    ∧ (style = {| color := "white"; fontSize := 12 |}
       ∧ (∃ file, file ∈ helpers_listing ∧ is_schedule_file file
                  ∧ contains file "Advantage_system4.3" = true)
       ∨ style = {| color := "red"; fontSize := 12 |}
         ∧ (∀ file, file ∈ helpers_listing → is_schedule_file file →
                    contains file "Advantage_system4.3" = false))
    ∧ (name = "FALLBACK_SCHEDULE.csv"
       ∧ (∀ file, file ∈ helpers_listing → is_schedule_file file →
                  contains file family = false)
       ∨ ∃ before after,
           helpers_listing = before ++ name :: after
           ∧ is_schedule_file name
           ∧ contains name family = true
           ∧ ∀ file, file ∈ after → is_schedule_file file →
                     contains file family = false).
Proof.
  apply (proj2 (proj2 (set_schedule_choice (Return helpers_listing)
                         (Some "qpu_selection") "Advantage_system4.3"))).
  - reflexivity.
  - reflexivity.
Defined.

Lemma set_schedule_step_white (family qpu_name : string) (files : list string)
  (name : string) :
  ∃ name',
    foldl (fun '(schedule_filename, schedule_filename_style) filename =>
             if contains filename family then
               if contains filename qpu_name
               then (filename, {| color := "white"; fontSize := 12 |})
               else (filename, schedule_filename_style)
             else (schedule_filename, schedule_filename_style))
      (name, {| color := "white"; fontSize := 12 |}) files
    = (name', {| color := "white"; fontSize := 12 |}).
Proof.
  revert name. induction files as [|x files IH]; intros name; [by eexists|].
  cbn [foldl]. destruct (contains x family), (contains x qpu_name); apply IH.
Qed.

Lemma set_schedule_step_none (family qpu_name : string) (files : list string)
  (state : string * Style) :
  (∀ file, file ∈ files → contains file family = false) →
  foldl (fun '(schedule_filename, schedule_filename_style) filename =>
           if contains filename family then
             if contains filename qpu_name
             then (filename, {| color := "white"; fontSize := 12 |})
             else (filename, schedule_filename_style)
           else (schedule_filename, schedule_filename_style))
    state files
  = state.
Proof.
  revert state. induction files as [|x files IH]; intros [name style] Hnone; [done|].
  cbn [foldl]. rewrite Hnone by (by left). apply IH.
  intros file Hin. apply Hnone. by right.
Qed.

(** X22: the white style does not tell that the file returned is the one of
    the selected QPU.  When the folder lists a schedule file whose name
    contains [qpu_name] and, later, as last of the family, a schedule file
    whose name contains only the part of [qpu_name] before its first dot,
    [set_schedule] returns the later file, in white. *)
Theorem set_schedule_white_for_other_version (triggered_id : option string)
  (qpu_name family exact other : string) (before between after : list string) :
  truthy_id triggered_id = true →
  split qpu_name "." !! 0%nat = Some family →
  is_schedule_file exact → contains exact qpu_name = true →
  is_schedule_file other → contains other family = true →
  contains other qpu_name = false →
  (∀ file, file ∈ after → is_schedule_file file → contains file family = false) →
  set_schedule (Return (before ++ exact :: between ++ other :: after))
    triggered_id qpu_name
  = Return (other, {| color := "white"; fontSize := 12 |}).
Proof.
  intros Htrig Hsplit Hexact Hexactq Hother Hotherf Hotherq Hafter.
  rewrite (set_schedule_unfold _ triggered_id qpu_name family) by done.
  assert (Hexactf : contains exact family = true).
  { destruct (split_head qpu_name ".") as (f & rest & Hf & Hq & _); [done|].
    rewrite Hsplit in Hf. injection Hf as <-.
    by apply contains_prefix_of with qpu_name rest. }
  rewrite filter_app, foldl_app, filter_cons_True by done. cbn [foldl].
  destruct (foldl _ _ (filter is_schedule_file before)) as [name0 style0].
  rewrite Hexactf, Hexactq.
  rewrite filter_app, foldl_app.
  destruct (set_schedule_step_white family qpu_name
              (filter is_schedule_file between) exact) as [name1 ->].
  rewrite filter_cons_True by done. cbn [foldl]. rewrite Hotherf, Hotherq.
  rewrite set_schedule_step_none; [done|].
  intros file [Hs Hin]%list_elem_of_filter. by apply Hafter.
Qed.

Lemma set_schedule_white_for_other_version_witness :
  set_schedule (Return helpers_listing) (Some "qpu_selection") "Advantage_system4.3"
  = Return ("09-1263A-B_Advantage_system4.1_fast_annealing_schedule.csv",
            {| color := "white"; fontSize := 12 |}).
Proof.
  apply (set_schedule_white_for_other_version (Some "qpu_selection")
           "Advantage_system4.3" "Advantage_system4"
           "09-1273A-E_Advantage_system4.3_fast_annealing_schedule.csv"
           "09-1263A-B_Advantage_system4.1_fast_annealing_schedule.csv"
           ["kz_calcs.py"] ["emb_Advantage_system4.3.json"]
           ["FALLBACK_SCHEDULE.csv"]).
  - reflexivity.
  - vm_compute. reflexivity.
  - vm_compute. reflexivity.
  - vm_compute. reflexivity.
  - vm_compute. reflexivity.
  - vm_compute. reflexivity.
  - vm_compute. reflexivity.
  - intros file ->%list_elem_of_singleton _. vm_compute. reflexivity.
Defined.

(** ** The cache of embeddings *)

Section PyDictMore.

Context {K V : Type} `{EqDecision K}.

Lemma dict_setitem_NoDup (k : K) (v : V) (d : PyDict K V) :
  NoDup (dict_keys d) → NoDup (dict_keys (dict_setitem k v d)).
Proof.
  intros Hnd. rewrite dict_keys_setitem.
  destruct (decide (k ∈ dict_keys d)) as [Hin|Hin]; [done|].
  apply NoDup_app. split_and!; [done| |apply NoDup_singleton].
  intros x Hx ->%list_elem_of_singleton. done.
Qed.

Lemma dict_lookup_elem_of (k : K) (v : V) (d : PyDict K V) :
  NoDup (dict_keys d) → (k, v) ∈ d → dict_lookup k d = Some v.
Proof.
  unfold dict_keys. induction d as [|[k0 v0] d IH]; intros Hnd Hin.
  { by apply elem_of_nil in Hin. }
  cbn [fmap list_fmap fst] in Hnd. apply NoDup_cons in Hnd as [Hk0 Hnd].
  cbn [dict_lookup]. apply elem_of_cons in Hin as [[= -> ->]|Hin].
  - by rewrite decide_True.
  - rewrite decide_False; [by apply IH|].
    intros ->. apply Hk0. apply list_elem_of_fmap. by exists (k0, v).
Qed.

Lemma dict_delitem_spec (k : K) (d d' : PyDict K V) :
  dict_delitem k d = Return d' →
  d' ⊆ d
  ∧ (NoDup (dict_keys d) → NoDup (dict_keys d') ∧ k ∉ dict_keys d').
Proof.
  unfold dict_keys. revert d'. induction d as [|[k0 v0] d IH]; intros d'; [done|].
  cbn [dict_delitem]. destruct (decide (k = k0)) as [->|Hne].
  - intros [= <-]. split; [by apply list_subseteq_cons|].
    cbn [fmap list_fmap fst]. by intros [? ?]%NoDup_cons.
  - destruct (dict_delitem k d) as [|d1]; [done|]. cbn [mbind result_bind].
    intros [= <-]. destruct (IH d1 eq_refl) as [Hsub Hnd]. split.
    + intros x [->|Hx]%elem_of_cons; [by left|right; by apply Hsub].
    + cbn [fmap list_fmap fst]. intros [Hk0 Hd]%NoDup_cons.
      destruct (Hnd Hd) as [Hnd1 Hk]. split.
      * apply NoDup_cons. split; [|done]. intros Hin. apply Hk0.
        apply list_elem_of_fmap in Hin as (x & -> & Hx).
        apply list_elem_of_fmap. exists x. split; [done|]. by apply Hsub.
      * rewrite not_elem_of_cons. done.
Qed.

End PyDictMore.

Section CacheEmbeddings.

Variable int : string → result Z.
Variable w : World.
Variable is_valid_embedding :
  Chains → BinaryQuadraticModel → list (Z * Z) → result bool.

Lemma with_int_keys_NoDup {V W : Type} (convert : V → result W)
  (items : PyDict string V) (acc d : PyDict Z W) :
  NoDup (dict_keys acc) →
  for_each (fun acc '(key, value) =>
              k ← int key; w ← convert value; Return (dict_setitem k w acc))
    items acc = Return d →
  NoDup (dict_keys d).
Proof.
  revert acc. induction items as [|[key value] items IH]; intros acc Hnd.
  { by intros [= <-]. }
  rewrite with_int_keys_cons.
  destruct (int key) as [|k]; [done|]. cbn [mbind result_bind].
  destruct (convert value) as [|v]; [done|]. cbn [mbind result_bind].
  apply IH. by apply dict_setitem_NoDup.
Qed.

Lemma json_to_dict_NoDup (emb_json : JsonEmbeddings) (d : PyDict Z Chains) :
  json_to_dict int emb_json = Return d → NoDup (dict_keys d).
Proof. apply with_int_keys_NoDup. constructor. Qed.

Lemma validate_embedding_step (name : string) (cache cache' : PyDict Z Chains)
  (length : Z) :
  validate_embedding w is_valid_embedding name cache length = Return cache' →
  ∃ bqm edges emb valid,
    create_bqm length (-14 # 10)%Q = Return bqm
    ∧ qpus w !! name = Some edges
    ∧ dict_lookup length cache = Some emb
    ∧ is_valid_embedding emb bqm edges = Return valid
    ∧ (if valid then cache' = cache else dict_delitem length cache = Return cache').
Proof.
  unfold validate_embedding, dict_getitem.
  destruct (create_bqm length (-14 # 10)) as [|bqm]; [done|].
  cbn [mbind result_bind].
  destruct (qpus w !! name) as [edges|]; [|done]. cbn [mbind result_bind].
  destruct (dict_lookup length cache) as [emb|]; [|done]. cbn [mbind result_bind].
  destruct (is_valid_embedding emb bqm edges) as [|valid] eqn:Hvalid; [done|].
  cbn [mbind result_bind]. intros Hrun. exists bqm, edges, emb, valid.
  split_and!; try done. destruct valid; cbn [negb] in Hrun; congruence.
Qed.

Lemma validate_embeddings_loop (name : string) (keys : list Z)
  (cache d : PyDict Z Chains) :
  NoDup (dict_keys cache) →
  for_each (validate_embedding w is_valid_embedding name) keys cache = Return d →
  NoDup (dict_keys d)
  ∧ ∀ length emb, (length, emb) ∈ d →
      (length, emb) ∈ cache
      ∧ (length ∈ keys → validated w is_valid_embedding name length emb).
Proof.
  revert cache. induction keys as [|k keys IH]; intros cache Hnd.
  { intros [= <-]. split; [done|]. intros length emb Hin. split; [done|].
    intros H. by apply elem_of_nil in H. }
  cbn [for_each].
  destruct (validate_embedding w is_valid_embedding name cache k)
    as [|cache1] eqn:Hstep; [done|].
  cbn [mbind result_bind]. intros Hrest.
  apply validate_embedding_step in Hstep
    as (bqm & edges & emb0 & valid & Hbqm & Hedges & Hemb0 & Hvalid & Hcache1).
  destruct valid.
  - subst cache1. destruct (IH cache Hnd Hrest) as [Hnd' Hd]. split; [done|].
    intros length emb Hin. destruct (Hd length emb Hin) as [Hc Hv].
    split; [done|]. intros [->|Hk]%elem_of_cons; [|by apply Hv].
    rewrite (dict_lookup_elem_of k emb cache) in Hemb0 by done.
    injection Hemb0 as ->. by exists bqm, edges.
  - destruct (dict_delitem_spec k cache cache1 Hcache1) as [Hsub Hnd1].
    destruct (Hnd1 Hnd) as [Hnd1' Hk1].
    destruct (IH cache1 Hnd1' Hrest) as [Hnd' Hd]. split; [done|].
    intros length emb Hin. destruct (Hd length emb Hin) as [Hc Hv].
    split; [by apply Hsub|]. intros [->|Hk]%elem_of_cons; [|by apply Hv].
    exfalso. apply Hk1. apply list_elem_of_fmap. by exists (k, emb).
Qed.

Lemma validate_embeddings_sound (name : string) (cache d : PyDict Z Chains) :
  NoDup (dict_keys cache) →
  validate_embeddings w is_valid_embedding name cache = Return d →
  NoDup (dict_keys d)
  ∧ ∀ length emb, (length, emb) ∈ d →
      (length, emb) ∈ cache ∧ validated w is_valid_embedding name length emb.
Proof.
  intros Hnd Hrun. destruct (validate_embeddings_loop _ _ _ _ Hnd Hrun) as [Hnd' Hd].
  split; [done|]. intros length emb Hin. destruct (Hd length emb Hin) as [Hc Hv].
  split; [done|]. apply Hv. apply list_elem_of_fmap. by exists (length, emb).
Qed.

Variable folder : Folder.

(** What the loop over the embedding files keeps true of the cache. *)
Lemma load_embeddings_step (qpu_name : string) (listing : list string)
  (cache cache' : PyDict Z Chains) (filename : string) :
  let kept (c : PyDict Z Chains) :=
    NoDup (dict_keys c)
    ∧ (∀ length emb, (length, emb) ∈ c →
         validated w is_valid_embedding (embeddings_qpu qpu_name) length emb)
    ∧ (c = []
       ∨ ∃ file loaded converted,
           file ∈ listing
           ∧ contains file (embeddings_qpu qpu_name) = true
           ∧ json_load folder ("helpers/" +:+ file) = Return loaded
           ∧ json_to_dict int loaded = Return converted
           ∧ c ⊆ converted) in
  load_embeddings int folder w is_valid_embedding qpu_name cache filename
  = Return cache' →
  filename ∈ listing → kept cache → kept cache'.
Proof.
  intros kept Hrun Hin Hkept. unfold load_embeddings in Hrun. cbn zeta in Hrun.
  destruct (contains filename (embeddings_qpu qpu_name)) eqn:Hname;
    [|by injection Hrun as <-].
  destruct (json_load folder ("helpers/" +:+ filename)) as [|loaded] eqn:Hload;
    [done|].
  cbn [mbind result_bind] in Hrun.
  destruct (json_to_dict int loaded) as [|converted] eqn:Hconv; [done|].
  cbn [mbind result_bind] in Hrun.
  apply validate_embeddings_sound in Hrun as [Hnd Hvalid];
    [|by eapply json_to_dict_NoDup].
  split_and!; [done|intros length emb Hl; by apply Hvalid|].
  right. exists filename, loaded, converted. split_and!; try done.
  intros [length emb] Hl. by apply Hvalid.
Qed.

Lemma load_embeddings_loop (qpu_name : string) (listing files : list string)
  (cache cache' : PyDict Z Chains) :
  let kept (c : PyDict Z Chains) :=
    NoDup (dict_keys c)
    ∧ (∀ length emb, (length, emb) ∈ c →
         validated w is_valid_embedding (embeddings_qpu qpu_name) length emb)
    ∧ (c = []
       ∨ ∃ file loaded converted,
           file ∈ listing
           ∧ contains file (embeddings_qpu qpu_name) = true
           ∧ json_load folder ("helpers/" +:+ file) = Return loaded
           ∧ json_to_dict int loaded = Return converted
           ∧ c ⊆ converted) in
  for_each (load_embeddings int folder w is_valid_embedding qpu_name) files cache
  = Return cache' →
  files ⊆ listing → kept cache → kept cache'.
Proof.
  intros kept. revert cache. induction files as [|file files IH]; intros cache.
  { by intros [= <-]. }
  cbn [for_each].
  destruct (load_embeddings int folder w is_valid_embedding qpu_name cache file)
    as [|cache1] eqn:Hstep; [done|].
  cbn [mbind result_bind]. intros Hrest Hsub Hkept.
  apply (IH cache1 Hrest).
  - intros f Hf. apply Hsub. by right.
  - apply (load_embeddings_step qpu_name listing cache cache1 file Hstep);
      [|done]. apply Hsub. by left.
Qed.

End CacheEmbeddings.

(** X23: when the QPU selection fires [cache_embeddings], the cache of the
    page and the embedding signal are not read: the previous QPU's
    embeddings are gone.  Whatever is returned was loaded from one listed
    embedding file whose name contains the name of the QPU (the one of
    [Advantage_system6.4] for the classical sampler), holds every ring
    size once, and holds only embeddings that [is_valid_embedding]
    accepted for the ring of that size on that QPU; the second output
    lists its keys. *)
Theorem cache_embeddings_qpu_selection (int : string → result Z)
  (folder : Folder) (w : World)
  (is_valid_embedding : Chains → BinaryQuadraticModel → list (Z * Z) → result bool)
  (qpu_name : string) (embeddings_found : FoundJson)
  (embeddings_cached : JsonEmbeddings) (cache : Cache) (keys : list CacheKey) :
  cache_embeddings int folder w is_valid_embedding (Some "qpu_selection")
    qpu_name embeddings_found embeddings_cached = Return (cache, keys) →
  (∀ signal previous,
     cache_embeddings int folder w is_valid_embedding (Some "qpu_selection")
       qpu_name signal previous = Return (cache, keys))
  ∧ ∃ d,
      cache = CacheDict d
      ∧ keys = KeyInt <$> dict_keys d
      ∧ NoDup (dict_keys d)
      ∧ (∀ length emb, (length, emb) ∈ d →
           validated w is_valid_embedding (embeddings_qpu qpu_name) length emb)
      ∧ (d = []
         ∨ ∃ files file loaded converted,
             listdir folder = Return files
             ∧ file ∈ files
             ∧ contains file ".json" = true
             ∧ contains file "emb_" = true
             ∧ contains file (embeddings_qpu qpu_name) = true
             ∧ json_load folder ("helpers/" +:+ file) = Return loaded
             ∧ json_to_dict int loaded = Return converted
             ∧ d ⊆ converted).
Proof.
  intros Hrun. split; [intros signal previous; exact Hrun|].
  unfold cache_embeddings in Hrun. cbn [triggered_is] in Hrun.
  change (String.eqb "qpu_selection" "qpu_selection") with true in Hrun.
  cbn iota in Hrun.
  destruct (listdir folder) as [|files] eqn:Hfiles; [done|].
  cbn [mbind result_bind] in Hrun.
  set (listing := filter (fun file => contains file ".json" && contains file "emb_" = true)
                    files) in Hrun.
  destruct (for_each (load_embeddings int folder w is_valid_embedding qpu_name)
              listing []) as [|d] eqn:Hloop; [done|].
  cbn [mbind result_bind] in Hrun. injection Hrun as <- <-.
  exists d. split; [done|]. split; [done|].
  destruct (load_embeddings_loop int w is_valid_embedding folder qpu_name
              listing listing [] d Hloop) as (Hnd & Hvalid & Hfrom).
  { done. }
  { split_and!; [constructor| |by left].
    intros length emb Hin. by apply elem_of_nil in Hin. }
  split_and!; [done|done|].
  destruct Hfrom as [->|(file & loaded & converted & Hin & Hname & Hload & Hconv & Hsub)];
    [by left|].
  right. exists files, file, loaded, converted.
  apply list_elem_of_filter in Hin as [[H1 H2]%andb_true_iff Hin].
  by split_and!.
Qed.

Lemma cache_embeddings_qpu_selection_witness :
  cache_embeddings decimal_int helpers_folder (world_at tuesday_1338 "" PENDING)
    (fun _ _ _ => Return true) (Some "qpu_selection") "Advantage_system4.3"
    (FoundJsonText "needed") found_eight
  = Return (CacheDict [(4, four_chains)], [KeyInt 4]).
Proof.
  apply (proj1 (cache_embeddings_qpu_selection decimal_int helpers_folder
                  (world_at tuesday_1338 "" PENDING) (fun _ _ _ => Return true)
                  "Advantage_system4.3" (FoundJsonText "") []
                  (CacheDict [(4, four_chains)]) [KeyInt 4] eq_refl)).
Defined.

(** X24: when the embedding signal fires [cache_embeddings], a text signal
    (["needed"], ["not found"]) raises [PreventUpdate] and an empty
    dictionary raises [IndexError].  Otherwise the first entry of the
    signal is written into the cache: its ring size is among the keys
    returned, with the embedding of the signal, and every other ring size
    keeps its place and its embedding.  With any other trigger the cache
    is returned as the page sent it. *)
Theorem cache_embeddings_found (int : string → result Z) (folder : Folder)
  (w : World)
  (is_valid_embedding : Chains → BinaryQuadraticModel → list (Z * Z) → result bool)
  (qpu_name : string) (embeddings_cached : JsonEmbeddings) :
  let run := cache_embeddings int folder w is_valid_embedding in
  (∀ text, run (Some "embeddings_found") qpu_name (FoundJsonText text)
             embeddings_cached = Raise PreventUpdate)
  ∧ (∀ found cache,
       json_to_dict int embeddings_cached = Return cache →
       json_to_dict int found = Return [] →
       run (Some "embeddings_found") qpu_name (FoundJsonDict found)
         embeddings_cached = Raise IndexError)
  ∧ (∀ found cache spins emb others,
       json_to_dict int embeddings_cached = Return cache →
       json_to_dict int found = Return ((spins, emb) :: others) →
       ∃ cache',
         run (Some "embeddings_found") qpu_name (FoundJsonDict found)
           embeddings_cached
         = Return (CacheDict cache', KeyInt <$> dict_keys cache')
         ∧ spins ∈ dict_keys cache'
         ∧ dict_lookup spins cache' = Some emb
         ∧ (∀ other, other ≠ spins →
              dict_lookup other cache' = dict_lookup other cache)
         ∧ (∀ other, other ∈ dict_keys cache → other ∈ dict_keys cache'))
  ∧ (∀ triggered_id signal,
       triggered_is triggered_id "qpu_selection" = false →
       triggered_is triggered_id "embeddings_found" = false →
       run triggered_id qpu_name signal embeddings_cached
       = Return (CacheJson embeddings_cached,
                 KeyStr <$> dict_keys embeddings_cached)).
Proof.
  intros run. unfold run, cache_embeddings. split_and!.
  - done.
  - intros found cache Hcache Hfound. cbn [triggered_is].
    change (String.eqb "embeddings_found" "qpu_selection") with false.
    change (String.eqb "embeddings_found" "embeddings_found") with true.
    cbn iota. by rewrite Hcache, Hfound.
  - intros found cache spins emb others Hcache Hfound. cbn [triggered_is].
    change (String.eqb "embeddings_found" "qpu_selection") with false.
    change (String.eqb "embeddings_found" "embeddings_found") with true.
    cbn iota. rewrite Hcache, Hfound. cbn [mbind result_bind].
    unfold dict_keys at 1. cbn [fmap list_fmap fst lookup list_lookup].
    cbn [mbind result_bind]. unfold dict_getitem. cbn [dict_lookup].
    rewrite decide_True by done. cbn [mbind result_bind cache_keys].
    eexists. split; [done|]. split_and!.
    + rewrite dict_keys_setitem. destruct (decide (spins ∈ dict_keys cache)); [done|].
      rewrite elem_of_app, list_elem_of_singleton. by right.
    + rewrite dict_lookup_setitem. by rewrite decide_True.
    + intros other Hne. rewrite dict_lookup_setitem. by rewrite decide_False.
    + intros other Hin. rewrite dict_keys_setitem.
      destruct (decide (spins ∈ dict_keys cache)); [done|].
      rewrite elem_of_app. by left.
  - intros triggered_id signal -> ->. done.
Qed.

Lemma cache_embeddings_found_witness :
  ∃ cache',
    cache_embeddings decimal_int helpers_folder (world_at tuesday_1338 "" PENDING)
      (fun _ _ _ => Return true) (Some "embeddings_found") "Advantage_system4.3"
      (FoundJsonDict found_eight) cached_four
    = Return (CacheDict cache', KeyInt <$> dict_keys cache')
    ∧ 8 ∈ dict_keys cache'
    ∧ dict_lookup 8 cache' = Some [(0, [20]); (1, [21])]
    ∧ (∀ other, other ≠ 8 →
         dict_lookup other cache' = dict_lookup other [(4, four_chains)])
    ∧ (∀ other, other ∈ dict_keys [(4, four_chains)] → other ∈ dict_keys cache').
Proof.
  apply (proj1 (proj2 (proj2 (cache_embeddings_found decimal_int helpers_folder
                                (world_at tuesday_1338 "" PENDING)
                                (fun _ _ _ => Return true)
                                "Advantage_system4.3" cached_four)))
           found_eight [(4, four_chains)] 8 [(0, [20]); (1, [21])] []).
  - vm_compute. reflexivity.
  - vm_compute. reflexivity.
Defined.

(** ** Submitting a job *)

Lemma dict_lookup_None {K V : Type} `{EqDecision K} (k : K) (d : PyDict K V) :
  k ∉ dict_keys d → dict_lookup k d = None.
Proof.
  intros Hk. destruct (dict_lookup k d) as [v|] eqn:Hv; [|done].
  by apply dict_lookup_Some_keys in Hv.
Qed.

(** X25: [submit_job] needs a cached embedding for the ring size, also for
    the classical sampler.  With a registered sampler and a ring that can
    be built, it raises [KeyError] when the cache holds no embedding for
    [spins], whatever the samplers would answer.  [simulate] does not
    check this for the classical sampler: on a submit request it goes to
    SUBMITTED with the marker ["SA"], and the [submit_job] this fires
    raises. *)
Theorem submit_job_needs_cached_embedding (int : string → result Z)
  (qpus : gmap string Sampler) (calls : Submission) (w : World) (client : Client)
  (job current_state stored_time qpu_name : string) (signal : FoundData)
  (spins : Z) (J : Q) (ta_ns : float) (embeddings_cached : JsonEmbeddings)
  (cache : PyDict Z Chains) (is_kz_nm : bool) (filename : string)
  (initial_warning : bool) (bqm : BinaryQuadraticModel) :
  is_Some (qpus !! qpu_name) →
  create_bqm spins J = Return bqm →
  json_to_dict int embeddings_cached = Return cache →
  spins ∉ dict_keys cache →
  (∀ time, submit_job int qpus calls time qpu_name spins J ta_ns
             embeddings_cached is_kz_nm filename initial_warning
           = Raise KeyError)
  ∧ (qpu_name = classical →
     outcome (simulate w client (Some "btn_simulate") job current_state
                stored_time (dict_keys cache) spins qpu_name signal)
     = Return (submitted_with "SA")).
Proof.
  intros [sampler Hsampler] Hbqm Hcache Hspins. split.
  - intros time. unfold submit_job, dict_getitem.
    rewrite Hsampler, Hbqm, Hcache. cbn [mbind result_bind].
    by rewrite dict_lookup_None.
  - intros ->. unfold simulate. cbn [triggered_is]. rewrite String.eqb_refl.
    unfold classical. by rewrite String.eqb_refl, orb_true_r.
Qed.

Lemma submit_job_needs_cached_embedding_witness :
  submit_job decimal_int one_qpu_registry unreachable "SA" classical 8 (-1) 5
    cached_four false "" false
  = Raise KeyError.
Proof.
  refine (proj1 (submit_job_needs_cached_embedding decimal_int one_qpu_registry
                   unreachable (world_at tuesday_1338 "" PENDING) QpuClient
                   "" "READY" "" classical (FoundText "") 8 (-1) 5 cached_four
                   [(4, four_chains)] false "" false _ _ _ _ _) "SA").
  - eexists. vm_compute. reflexivity.
  - vm_compute. reflexivity.
  - vm_compute. reflexivity.
  - unfold dict_keys. cbn [fmap list_fmap fst].
    rewrite list_elem_of_singleton. discriminate.
Defined.

(** ** The extrapolation fit on data of its own form *)

Lemma sumQ_cons (x : Q) (v : list Q) : sumQ (x :: v) = (x + sumQ v)%Q.
Proof. reflexivity. Qed.

Lemma sumQ_line (a b : Q) (u : list Q) :
  (sumQ ((fun x => a + b * x) <$> u)
   == inject_Z (Z.of_nat (length u)) * a + b * sumQ u)%Q.
Proof.
  induction u as [|x u IH]; [cbn; ring|].
  cbn [fmap list_fmap length]. rewrite !sumQ_cons, IH, Nat2Z.inj_succ.
  unfold Z.succ. rewrite inject_Z_plus. ring.
Qed.

Lemma sumQ_line_weighted (a b : Q) (u : list Q) :
  (sumQ (zip_with Qmult u ((fun x => a + b * x) <$> u))
   == a * sumQ u + b * sumQ (zip_with Qmult u u))%Q.
Proof.
  induction u as [|x u IH]; [cbn; ring|].
  cbn [fmap list_fmap zip_with]. rewrite !sumQ_cons, IH. ring.
Qed.

(** X26: [fitted_function] squares the abscissae before the fit and the
    argument before the evaluation.  The function it returns is even, and
    the fit is the same when abscissae change sign.  Over an exact
    least-squares fit, data that lie on [y = a + b x^2] give back that
    function at every argument, when the normal equations on the squared
    abscissae are regular. *)
Theorem fitted_function_even_and_exact :
  (∀ (Polynomial_fit : list Q → list Q → nat → result (list Q))
     (xdata ydata : list Q) (y_func_x : Q → Q),
     fitted_function Polynomial_fit xdata ydata = Return y_func_x →
     (∀ x, y_func_x (- x)%Q = y_func_x x)
     ∧ fitted_function Polynomial_fit (Qopp <$> xdata) ydata = Return y_func_x)
  ∧ (∀ (a b : Q) (xdata : list Q),
       ¬ (normal_determinant ((fun x => x * x)%Q <$> xdata) == 0)%Q →
       ∃ y_func_x,
         fitted_function lstsq_line xdata ((fun x => a + b * (x * x))%Q <$> xdata)
         = Return y_func_x
         ∧ ∀ x, (y_func_x x == a + b * (x * x))%Q).
Proof.
  assert (Hsq : ∀ x : Q, (- x * - x)%Q = (x * x)%Q).
  { intros [n d]. unfold Qmult, Qopp. cbn [Qnum Qden]. by rewrite Z.mul_opp_opp. }
  split.
  - intros Polynomial_fit xdata ydata y_func_x. unfold fitted_function.
    assert (Hdata : (fun x => x * x)%Q <$> (Qopp <$> xdata)
                    = (fun x => x * x)%Q <$> xdata).
    { rewrite <- list_fmap_compose. apply list_fmap_ext. intros _ x _. apply Hsq. }
    rewrite Hdata.
    destruct (Polynomial_fit _ ydata 1%nat) as [|coeffs]; [done|].
    cbn [mbind result_bind]. intros [= <-]. split; [|done].
    intros x. by rewrite Hsq.
  - intros a b xdata Hdet. unfold fitted_function.
    set (u := (fun x => x * x)%Q <$> xdata) in *.
    replace ((fun x => a + b * (x * x))%Q <$> xdata)
      with ((fun x => a + b * x)%Q <$> u)
      by (unfold u; by rewrite <- list_fmap_compose).
    assert (Hne : u ≠ []).
    { intros Hu. apply Hdet. rewrite Hu. reflexivity. }
    unfold lstsq_line. destruct u as [|u0 u'] eqn:Hu; [done|].
    rewrite <- Hu in *. rewrite length_fmap, Nat.eqb_refl. cbn [negb].
    fold (normal_determinant u).
    destruct (Qeq_bool (normal_determinant u) 0) eqn:Hz.
    { by apply Qeq_bool_iff in Hz. }
    cbn [mbind result_bind]. eexists. split; [reflexivity|].
    intros x. cbn [polyval foldr].
    rewrite sumQ_line, sumQ_line_weighted.
    set (n := inject_Z (Z.of_nat (length u))) in *.
    assert (Hn : ¬ (n == 0)%Q).
    { unfold n. rewrite Hu. cbn [length]. rewrite Nat2Z.inj_succ.
      change 0%Q with (inject_Z 0). rewrite inject_Z_injective. lia. }
    unfold normal_determinant in *. fold n in Hdet |- *.
    field. by split.
Qed.

Lemma fitted_function_even_and_exact_witness :
  ∃ y_func_x,
    fitted_function lstsq_line [1; 2; 3]%Q
      ((fun x => 1 + 2 * (x * x))%Q <$> [1; 2; 3]%Q)
    = Return y_func_x
    ∧ ∀ x, (y_func_x x == 1 + 2 * (x * x))%Q.
Proof.
  apply (proj2 fitted_function_even_and_exact 1%Q 2%Q [1; 2; 3]%Q).
  intros H. vm_compute in H. discriminate.
Defined.
